(** * Voice Assistant Manager: the WebSocket command handlers

    A shallow embedding of [custom_components/voice_assistant_manager/api.py]
    and [const.py].  Python dictionaries with a fixed key set are records of
    optional fields, alias dictionaries are [gmap string string], Python
    sets are [gset string], and the handlers are functions in a small
    state-and-exception monad over a [World] that holds the storage
    document, the host's read-only registries and the outcomes of the
    fallible external calls still to come. *)

From Stdlib Require Import Ascii.
From stdpp Require Import base option list gmap sets strings sorting.

Open Scope string_scope.
Open Scope list_scope.

(** ** Constants ([const.py]) *)

Inductive Mode := MODE_LINKED | MODE_SEPARATE.
Inductive FilterMode := FILTER_MODE_EXCLUDE | FILTER_MODE_INCLUDE.
Inductive Assistant := ASSISTANT_GOOGLE | ASSISTANT_ALEXA | ASSISTANT_HOMEKIT.

#[global] Instance Mode_eq_dec : EqDecision Mode.
Proof. solve_decision. Defined.
#[global] Instance FilterMode_eq_dec : EqDecision FilterMode.
Proof. solve_decision. Defined.
#[global] Instance Assistant_eq_dec : EqDecision Assistant.
Proof. solve_decision. Defined.

Definition MAX_BULK_ENTITIES : nat := 500.

(** A filter configuration dictionary.  The message schema makes each of
    the five keys optional, and the handlers read the stored dictionary
    with [dict.get(key, default)], so a key may be missing: [None]. *)
Record FilterDict := mkFilterDict {
  d_filter_mode : option FilterMode;
  d_domains     : option (list string);
  d_entities    : option (list string);
  d_devices     : option (list string);
  d_overrides   : option (list string) }.

Definition DEFAULT_FILTER_CONFIG : FilterDict :=
  {| d_filter_mode := Some FILTER_MODE_EXCLUDE;
     d_domains := Some []; d_entities := Some [];
     d_devices := Some []; d_overrides := Some [] |}.

Record GoogleSettings := mkGoogleSettings {
  g_enabled : bool;
  g_project_id : string;
  g_service_account_path : string;
  g_report_state : bool;
  g_secure_devices_pin : string;
  g_advanced_yaml : string }.

Definition DEFAULT_GOOGLE_SETTINGS : GoogleSettings :=
  {| g_enabled := false; g_project_id := EmptyString; g_service_account_path := EmptyString;
     g_report_state := true; g_secure_devices_pin := EmptyString;
     g_advanced_yaml := EmptyString |}.

Record AlexaSettings := mkAlexaSettings {
  a_enabled : bool;
  a_advanced_yaml : string }.

Definition DEFAULT_ALEXA_SETTINGS : AlexaSettings :=
  {| a_enabled := false; a_advanced_yaml := EmptyString |}.

(** The persisted document, with the keys of [DEFAULT_DATA].  The alias map
    of the HomeKit assistant is not a key of [DEFAULT_DATA]; the data model
    gives every assistant one in separate mode, so the record has the
    field. *)
Record Store := mkStore {
  mode : Mode;
  filter_config : FilterDict;
  aliases : gmap string string;
  google_filter_config : FilterDict;
  google_aliases : gmap string string;
  alexa_filter_config : FilterDict;
  alexa_aliases : gmap string string;
  homekit_filter_config : FilterDict;
  homekit_aliases : gmap string string;
  homekit_entry_id : option string;
  google_settings : GoogleSettings;
  alexa_settings : AlexaSettings;
  last_generated : Assistant → option string }.

Definition DEFAULT_DATA : Store :=
  {| mode := MODE_LINKED;
     filter_config := DEFAULT_FILTER_CONFIG; aliases := ∅;
     google_filter_config := DEFAULT_FILTER_CONFIG; google_aliases := ∅;
     alexa_filter_config := DEFAULT_FILTER_CONFIG; alexa_aliases := ∅;
     homekit_filter_config := DEFAULT_FILTER_CONFIG; homekit_aliases := ∅;
     homekit_entry_id := None;
     google_settings := DEFAULT_GOOGLE_SETTINGS;
     alexa_settings := DEFAULT_ALEXA_SETTINGS;
     last_generated := λ _, None |}.

(** ** Exceptions, responses and the world *)

(** The exception classes the handlers distinguish in their [except]
    clauses; [str(err)] is the carried message.  [OtherException] stands
    for every [Exception] that is none of the three named classes. *)
Inductive Exc :=
  | ValidationError (m : string)
  | HomeKitError (m : string)
  | VoiceManagerError (m : string)
  | OtherException (m : string).

Definition str (e : Exc) : string :=
  match e with
  | ValidationError m | HomeKitError m | VoiceManagerError m
  | OtherException m => m
  end.

(** JSON-like payloads of [connection.send_result]. *)
#[local] Set Warnings "-register-all".
Inductive Json :=
  | JNull
  | JBool (b : bool)
  | JStr (s : string)
  | JList (l : list Json)
  | JObj (fields : list (string * Json)).

#[local] Set Warnings "register-all".

(** What a handler sends on the connection. *)
Inductive Response :=
  | send_result (payload : Json)
  | send_error (code : string) (message : string).

(** The fallible calls a handler makes outside the module: the storage's
    persisting operations, the YAML writer, the HomeKit manager and the
    host's service registry. *)
Inductive Call :=
  | c_set_filter_config (target : option Assistant)
  | c_toggle_override (target : option Assistant)
  | c_set_aliases_bulk (target : option Assistant)
  | c_set_google_settings
  | c_set_alexa_settings
  | c_set_homekit_entry_id
  | c_set_last_generated (a : Assistant)
  | c_write_google_yaml
  | c_write_alexa_yaml
  | c_sync_homekit
  | c_service (service : string)
  | c_set_mode
  | c_set_filter_mode (target : option Assistant)
  | c_set_domains (target : option Assistant)
  | c_set_alias (target : option Assistant)
  | c_get_full_state
  | c_get_homekit_bridges
  | c_import_homekit.

#[global] Instance Call_eq_dec : EqDecision Call.
Proof. solve_decision. Defined.

Record RegistryEntry := mkRegistryEntry {
  e_name : option string;
  e_original_name : option string;
  e_device_id : option string }.

(** A state object, reduced to [state.attributes.get("friendly_name")]. *)
Record State := mkState { s_friendly_name : option string }.

(** [script] lists the outcomes of the fallible external calls still to
    come, in call order: [None] is a call that returns, [Some e] one that
    raises [e]; an exhausted script means every further call returns.
    [trace] records the calls made, latest first, with their outcome. *)
Record World := mkWorld {
  store : Store;
  ent_reg : gmap string RegistryEntry;
  states : gmap string State;
  bridges : gset string;
  script : list (option Exc);
  trace : list (Call * option Exc) }.

Definition with_store (f : Store → Store) (w : World) : World :=
  {| store := f (store w); ent_reg := ent_reg w; states := states w;
     bridges := bridges w; script := script w; trace := trace w |}.

(** ** The handler monad: state and exceptions *)

Definition M (A : Type) : Type := World → (Exc + A) * World.

Definition ret {A} (x : A) : M A := λ w, (inr x, w).
Definition raise {A} (e : Exc) : M A := λ w, (inl e, w).
Definition bind {A B} (m : M A) (k : A → M B) : M B :=
  λ w, match m w with
       | (inr x, w') => k x w'
       | (inl e, w') => (inl e, w')
       end.
Definition get_world : M World := λ w, (inr w, w).

(** [try: body except Exception as err: handler(err)]. *)
Definition try_except {A} (body : M A) (handler : Exc → M A) : M A :=
  λ w, match body w with
       | (inr x, w') => (inr x, w')
       | (inl e, w') => handler e w'
       end.

Notation "x ←ₘ m ;; k" := (bind m (λ x, k))
  (at level 100, m at next level, right associativity).
Notation "m ;;ₘ k" := (bind m (λ _, k))
  (at level 100, right associativity).

(** A fallible external call: it takes the next outcome of the script and
    is recorded in the trace; [effect] is applied only when it returns. *)
Definition external (c : Call) (effect : Store → Store) : M unit :=
  λ w,
    let o := match script w with [] => None | o :: _ => o end in
    let w' := {| store := store w; ent_reg := ent_reg w; states := states w;
                 bridges := bridges w; script := tail (script w);
                 trace := (c, o) :: trace w |} in
    match o with
    | None => (inr tt, with_store effect w')
    | Some e => (inl e, w')
    end.

(** A validator raises [ValidationError] with a message or returns the
    validated value. *)
Definition validated {A} (r : string + A) : M A :=
  match r with
  | inl m => raise (ValidationError m)
  | inr x => ret x
  end.

(** The functions of [validators.py] that the handlers call.  The handlers
    are parameterised by them: nothing below depends on what a validator
    rejects or how it normalises its input. *)
Class Validators := {
  validate_assistant : option Assistant → string + option Assistant;
  validate_entity_id : string → string + string;
  validate_entity_ids : list string → string + list string;
  validate_alias : string → string + string;
  validate_filter_config : FilterDict → string + FilterDict;
  validate_google_settings : Json → string + GoogleSettings;
  validate_alexa_settings : Json → string + AlexaSettings }.

(** Validators that accept every input as it is. *)
Definition accept_all : Validators :=
  {| validate_assistant := inr; validate_entity_id := inr;
     validate_entity_ids := inr; validate_alias := inr;
     validate_filter_config := inr;
     validate_google_settings := λ _, inr DEFAULT_GOOGLE_SETTINGS;
     validate_alexa_settings := λ _, inr DEFAULT_ALEXA_SETTINGS |}.

(** ** The storage ([storage.py]) *)

Definition target_key := option Assistant.

(** Modelled from the spec: [storage.get_filter_config(assistant)], absent
    from the sources; the targeted FilterConfig is the shared one when the
    assistant is omitted and the assistant's own otherwise.  The caller
    receives a snapshot, not a reference into the document. *)
Definition get_filter_config (a : target_key) (s : Store) : FilterDict :=
  match a with
  | None => filter_config s
  | Some ASSISTANT_GOOGLE => google_filter_config s
  | Some ASSISTANT_ALEXA => alexa_filter_config s
  | Some ASSISTANT_HOMEKIT => homekit_filter_config s
  end.

Definition put_filter_config (a : target_key) (c : FilterDict) (s : Store)
  : Store :=
  {| mode := mode s;
     filter_config := if a is None then c else filter_config s;
     aliases := aliases s;
     google_filter_config :=
       if a is Some ASSISTANT_GOOGLE then c else google_filter_config s;
     google_aliases := google_aliases s;
     alexa_filter_config :=
       if a is Some ASSISTANT_ALEXA then c else alexa_filter_config s;
     alexa_aliases := alexa_aliases s;
     homekit_filter_config :=
       if a is Some ASSISTANT_HOMEKIT then c else homekit_filter_config s;
     homekit_aliases := homekit_aliases s;
     homekit_entry_id := homekit_entry_id s;
     google_settings := google_settings s;
     alexa_settings := alexa_settings s;
     last_generated := last_generated s |}.

(** The field-level merge of the Store: a field absent from [config] keeps
    its current value, a field present replaces it wholesale. *)
Definition merge_fields (config current : FilterDict) : FilterDict :=
  {| d_filter_mode :=
       if d_filter_mode config is Some m then Some m
       else d_filter_mode current;
     d_domains :=
       if d_domains config is Some l then Some l else d_domains current;
     d_entities :=
       if d_entities config is Some l then Some l else d_entities current;
     d_devices :=
       if d_devices config is Some l then Some l else d_devices current;
     d_overrides :=
       if d_overrides config is Some l then Some l
       else d_overrides current |}.

(** Modelled from the spec: [storage.async_set_filter_config(config,
    assistant)], absent from the sources; one atomic read-modify-write on
    the targeted FilterConfig, a field-level merge: any field absent from
    [config] retains its current value, fields present replace wholesale.
    It fails only on a persistence fault, leaving the document as it
    was. *)
Definition async_set_filter_config (c : FilterDict) (a : target_key)
  : M unit :=
  external (c_set_filter_config a)
           (λ s, put_filter_config a (merge_fields c (get_filter_config a s)) s).

Definition get_aliases (a : target_key) (s : Store) : gmap string string :=
  match a with
  | None => aliases s
  | Some ASSISTANT_GOOGLE => google_aliases s
  | Some ASSISTANT_ALEXA => alexa_aliases s
  | Some ASSISTANT_HOMEKIT => homekit_aliases s
  end.

Definition put_aliases (a : target_key) (m : gmap string string) (s : Store)
  : Store :=
  {| mode := mode s;
     filter_config := filter_config s;
     aliases := if a is None then m else aliases s;
     google_filter_config := google_filter_config s;
     google_aliases :=
       if a is Some ASSISTANT_GOOGLE then m else google_aliases s;
     alexa_filter_config := alexa_filter_config s;
     alexa_aliases :=
       if a is Some ASSISTANT_ALEXA then m else alexa_aliases s;
     homekit_filter_config := homekit_filter_config s;
     homekit_aliases :=
       if a is Some ASSISTANT_HOMEKIT then m else homekit_aliases s;
     homekit_entry_id := homekit_entry_id s;
     google_settings := google_settings s;
     alexa_settings := alexa_settings s;
     last_generated := last_generated s |}.

(** Modelled from the spec: [storage.async_set_aliases_bulk(map,
    assistant)], absent from the sources; it writes the given alias entries
    into the targeted alias map, an entry of the map replacing the stored
    one for the same entity (the empty string is stored as the cleared
    alias). *)
Definition async_set_aliases_bulk (new_aliases : gmap string string)
    (a : target_key) : M unit :=
  external (c_set_aliases_bulk a)
           (λ s, put_aliases a (new_aliases ∪ get_aliases a s) s).

(** The value of [config.get(key, [])] for a list-valued key. *)
Definition get_list (o : option (list string)) : list string := default [] o.

Definition toggled (entity_id : string) (c : FilterDict) : FilterDict :=
  {| d_filter_mode := d_filter_mode c;
     d_domains := d_domains c;
     d_entities := d_entities c;
     d_devices := d_devices c;
     d_overrides :=
       Some (if bool_decide (entity_id ∈@{list string} get_list (d_overrides c))
             then filter (λ x, x ≠ entity_id) (get_list (d_overrides c))
             else get_list (d_overrides c) ++ [entity_id]) |}.

(** Modelled from the spec: [storage.async_toggle_override(entity_id,
    assistant)], absent from the sources; it adds the id to [overrides] if
    absent (and returns true) or removes it if present (and returns
    false).  [overrides] is a set kept as a list: removing takes every
    occurrence out, adding appends. *)
Definition async_toggle_override (entity_id : string) (a : target_key)
  : M bool :=
  w ←ₘ get_world ;;
  let present :=
    bool_decide (entity_id ∈@{list string}
                   get_list (d_overrides (get_filter_config a (store w)))) in
  external (c_toggle_override a)
           (λ s, put_filter_config a (toggled entity_id (get_filter_config a s)) s) ;;ₘ
  ret (negb present).

Definition put_homekit_entry_id (entry_id : option string) (s : Store)
  : Store :=
  {| mode := mode s; filter_config := filter_config s; aliases := aliases s;
     google_filter_config := google_filter_config s;
     google_aliases := google_aliases s;
     alexa_filter_config := alexa_filter_config s;
     alexa_aliases := alexa_aliases s;
     homekit_filter_config := homekit_filter_config s;
     homekit_aliases := homekit_aliases s;
     homekit_entry_id := entry_id;
     google_settings := google_settings s;
     alexa_settings := alexa_settings s;
     last_generated := last_generated s |}.

(** Modelled from the spec: [storage.async_set_homekit_entry_id(id)],
    absent from the sources; it records the selected bridge id. *)
Definition async_set_homekit_entry_id (entry_id : option string) : M unit :=
  external c_set_homekit_entry_id (put_homekit_entry_id entry_id).

Definition put_settings (g : GoogleSettings) (al : AlexaSettings) (s : Store)
  : Store :=
  {| mode := mode s; filter_config := filter_config s; aliases := aliases s;
     google_filter_config := google_filter_config s;
     google_aliases := google_aliases s;
     alexa_filter_config := alexa_filter_config s;
     alexa_aliases := alexa_aliases s;
     homekit_filter_config := homekit_filter_config s;
     homekit_aliases := homekit_aliases s;
     homekit_entry_id := homekit_entry_id s;
     google_settings := g;
     alexa_settings := al;
     last_generated := last_generated s |}.

(** Modelled from the spec: [storage.async_set_google_settings] and
    [storage.async_set_alexa_settings], absent from the sources; a full
    replace of that assistant's settings. *)
Definition async_set_google_settings (g : GoogleSettings) : M unit :=
  external c_set_google_settings (λ s, put_settings g (alexa_settings s) s).

Definition async_set_alexa_settings (al : AlexaSettings) : M unit :=
  external c_set_alexa_settings (λ s, put_settings (google_settings s) al s).

Definition put_last_generated (a : Assistant) (timestamp : string)
    (s : Store) : Store :=
  {| mode := mode s; filter_config := filter_config s; aliases := aliases s;
     google_filter_config := google_filter_config s;
     google_aliases := google_aliases s;
     alexa_filter_config := alexa_filter_config s;
     alexa_aliases := alexa_aliases s;
     homekit_filter_config := homekit_filter_config s;
     homekit_aliases := homekit_aliases s;
     homekit_entry_id := homekit_entry_id s;
     google_settings := google_settings s;
     alexa_settings := alexa_settings s;
     last_generated :=
       λ a', if decide (a' = a) then Some timestamp else last_generated s a' |}.

(** Modelled from the spec: [storage.async_set_last_generated(assistant,
    timestamp)], absent from the sources. *)
Definition async_set_last_generated (a : Assistant) (timestamp : string)
  : M unit :=
  external (c_set_last_generated a) (put_last_generated a timestamp).

(** Modelled from the spec: the derived completeness predicates, absent
    from the sources; Google requires [enabled] and non-empty identifying
    fields, Alexa requires only [enabled], HomeKit requires a non-null
    selected bridge. *)
Definition is_google_complete (s : Store) : bool :=
  g_enabled (google_settings s)
  && negb (String.eqb (g_project_id (google_settings s)) EmptyString)
  && negb (String.eqb (g_service_account_path (google_settings s)) EmptyString).

Definition is_alexa_complete (s : Store) : bool :=
  a_enabled (alexa_settings s).

Definition is_homekit_complete (s : Store) : bool :=
  bool_decide (is_Some (homekit_entry_id s)).

(** Modelled from the spec: [HomeKitManager.get_bridge_config(entry_id)],
    absent from the sources; the bridge's detail, or none for an id that
    references no bridge.  The handlers only test the result against
    [None]. *)
Definition get_bridge_config (entry_id : string) (w : World) : option string :=
  if bool_decide (entry_id ∈ bridges w) then Some entry_id else None.

(** ** The command surface and its [except] clauses ([api.py]) *)

(** The eighteen commands that [async_register_websocket_api] registers. *)
Inductive Command :=
  | cmd_get_state | cmd_set_mode
  | cmd_set_filter_mode | cmd_set_filter_config | cmd_set_domains
  | cmd_toggle_override
  | cmd_set_alias | cmd_bulk_update
  | cmd_set_settings | cmd_save_all
  | cmd_preview_yaml | cmd_write_files
  | cmd_get_homekit_bridges | cmd_set_homekit_bridge
  | cmd_sync_homekit | cmd_import_homekit
  | cmd_check_config | cmd_restart.

#[global] Instance Command_eq_dec : EqDecision Command.
Proof. solve_decision. Defined.

(** The code of the last clause, [except Exception], of each handler that
    answers a failure with [connection.send_error]. *)
Definition generic_code (c : Command) : string :=
  match c with
  | cmd_get_state => "state_error"
  | cmd_set_mode => "mode_error"
  | cmd_set_filter_mode => "filter_mode_error"
  | cmd_set_filter_config => "filter_config_error"
  | cmd_set_domains => "domains_error"
  | cmd_toggle_override => "override_error"
  | cmd_set_alias => "alias_error"
  | cmd_bulk_update => "bulk_update_error"
  | cmd_set_settings => "settings_error"
  | cmd_save_all => "save_all_error"
  | cmd_preview_yaml => "preview_error"
  | cmd_write_files => "write_error"
  | cmd_get_homekit_bridges | cmd_set_homekit_bridge
  | cmd_sync_homekit | cmd_import_homekit => "homekit_error"
  | cmd_check_config | cmd_restart => EmptyString
  end.

(** Handlers with an [except ValidationError] clause. *)
Definition catches_validation (c : Command) : bool :=
  match c with
  | cmd_set_mode | cmd_set_filter_mode | cmd_set_filter_config
  | cmd_set_domains | cmd_toggle_override | cmd_set_alias
  | cmd_bulk_update | cmd_set_settings | cmd_save_all => true
  | _ => false
  end.

(** Handlers with an [except HomeKitError] clause ahead of the generic
    one. *)
Definition catches_homekit (c : Command) : bool :=
  match c with
  | cmd_save_all | cmd_set_homekit_bridge | cmd_sync_homekit
  | cmd_import_homekit => true
  | _ => false
  end.

(** The clause that catches [e] in handler [c], first match first. *)
Definition error_code (c : Command) (e : Exc) : string :=
  match e with
  | ValidationError _ =>
      if catches_validation c then "validation_error" else generic_code c
  | HomeKitError _ =>
      if catches_homekit c then "homekit_error" else generic_code c
  | VoiceManagerError _ | OtherException _ => generic_code c
  end.

(** The two host-service handlers answer a failure with
    [connection.send_result(msg["id"], {"success": False, "error": str(err)})]. *)
Definition failure_result (e : Exc) : Json :=
  JObj [("success", JBool false); ("error", JStr (str e))].

Definition respond (c : Command) (r : Exc + Json) : Response :=
  match r with
  | inr payload => send_result payload
  | inl e =>
      match c with
      | cmd_check_config | cmd_restart => send_result (failure_result e)
      | _ => send_error (error_code c e) (str e)
      end
  end.

(** A handler: the [try] body followed by the [except] clauses. *)
Definition handle (c : Command) (body : M Json) (w : World)
  : Response * World :=
  let (r, w') := body w in (respond c r, w').

Definition success : Json := JObj [("success", JBool true)].

Definition json_of_list (l : list string) : Json := JList (JStr <$> l).

Definition json_of_filter (c : FilterDict) : Json :=
  JObj
    (omap id
       [ (λ m, ("filter_mode",
                JStr (match m with
                      | FILTER_MODE_EXCLUDE => "exclude"
                      | FILTER_MODE_INCLUDE => "include"
                      end))) <$> d_filter_mode c;
         (λ l, ("domains", json_of_list l)) <$> d_domains c;
         (λ l, ("entities", json_of_list l)) <$> d_entities c;
         (λ l, ("devices", json_of_list l)) <$> d_devices c;
         (λ l, ("overrides", json_of_list l)) <$> d_overrides c ]).

(** ** [websocket_set_filter_config] *)

Record SetFilterConfigMsg := mkSetFilterConfigMsg {
  sfc_filter_config : FilterDict;
  sfc_assistant : option Assistant }.

(** The dictionary [merged] built from [new_config] and [current]. *)
Definition merged (new_config current : FilterDict) : FilterDict :=
  {| d_filter_mode :=
       Some (default (default FILTER_MODE_EXCLUDE (d_filter_mode current))
                     (d_filter_mode new_config));
     d_domains :=
       Some (default (default [] (d_domains current)) (d_domains new_config));
     d_entities :=
       Some (default (default [] (d_entities current)) (d_entities new_config));
     d_devices :=
       Some (default (default [] (d_devices current)) (d_devices new_config));
     d_overrides :=
       Some (default (default [] (d_overrides current))
                     (d_overrides new_config)) |}.

Section Handlers.
Context {V : Validators}.

Definition set_filter_config_body (msg : SetFilterConfigMsg) : M Json :=
  assistant ←ₘ validated (validate_assistant (sfc_assistant msg)) ;;
  w ←ₘ get_world ;;
  let current := get_filter_config assistant (store w) in
  let new_config := sfc_filter_config msg in
  validated_config ←ₘ
    validated (validate_filter_config (merged new_config current)) ;;
  async_set_filter_config validated_config assistant ;;ₘ
  ret (JObj [("success", JBool true);
             ("filter_config", json_of_filter validated_config)]).

Definition websocket_set_filter_config (msg : SetFilterConfigMsg) :=
  handle cmd_set_filter_config (set_filter_config_body msg).

(** ** [websocket_toggle_override] *)

Record ToggleOverrideMsg := mkToggleOverrideMsg {
  to_entity_id : string;
  to_assistant : option Assistant }.

Definition toggle_override_body (msg : ToggleOverrideMsg) : M Json :=
  entity_id ←ₘ validated (validate_entity_id (to_entity_id msg)) ;;
  assistant ←ₘ validated (validate_assistant (to_assistant msg)) ;;
  added ←ₘ async_toggle_override entity_id assistant ;;
  ret (JObj [("success", JBool true); ("entity_id", JStr entity_id);
             ("added", JBool added)]).

Definition websocket_toggle_override (msg : ToggleOverrideMsg) :=
  handle cmd_toggle_override (toggle_override_body msg).

(** ** [websocket_bulk_update] *)

Inductive BulkAction :=
  | exclude | unexclude | set_alias_prefix | set_alias_suffix | clear_alias
  | exclude_domain | exclude_device | add_override | remove_override.

Record BulkUpdateMsg := mkBulkUpdateMsg {
  bu_action : BulkAction;
  bu_entity_ids : list string;
  bu_value : option string;
  bu_assistant : option Assistant }.

(** [config[key] = value] for the four list-valued keys. *)
Definition set_domains (c : FilterDict) (l : list string) : FilterDict :=
  {| d_filter_mode := d_filter_mode c; d_domains := Some l;
     d_entities := d_entities c; d_devices := d_devices c;
     d_overrides := d_overrides c |}.
Definition set_entities (c : FilterDict) (l : list string) : FilterDict :=
  {| d_filter_mode := d_filter_mode c; d_domains := d_domains c;
     d_entities := Some l; d_devices := d_devices c;
     d_overrides := d_overrides c |}.
Definition set_devices (c : FilterDict) (l : list string) : FilterDict :=
  {| d_filter_mode := d_filter_mode c; d_domains := d_domains c;
     d_entities := d_entities c; d_devices := Some l;
     d_overrides := d_overrides c |}.
Definition set_overrides (c : FilterDict) (l : list string) : FilterDict :=
  {| d_filter_mode := d_filter_mode c; d_domains := d_domains c;
     d_entities := d_entities c; d_devices := d_devices c;
     d_overrides := Some l |}.

(** [set(l)] and [list(s)].  A Python set lists its members once each in an
    order of its own; [elements] does the same with another order, and
    nothing below depends on the order. *)
Definition py_set (l : list string) : gset string := list_to_set l.
Definition py_list (s : gset string) : list string := elements s.

(** Truthiness of an optional string: [None] and the empty string are
    falsy. *)
Definition truthy (o : option string) : bool :=
  match o with
  | Some s => negb (String.eqb s EmptyString)
  | None => false
  end.

(** [a or b], with [b] possibly [None], and with [b] a string. *)
Definition py_or (a b : option string) : option string :=
  if truthy a then a else b.
Definition py_or_str (a : option string) (b : string) : string :=
  match a with
  | Some s => if String.eqb s EmptyString then b else s
  | None => b
  end.

(** The name the two alias actions build on:
    [state.attributes.get("friendly_name") if state else None], then
    [name or entity.name or entity.original_name or entity_id]. *)
Definition display_name (w : World) (entity_id : string)
    (entity : RegistryEntry) : string :=
  let name :=
    match states w !! entity_id with
    | Some state => s_friendly_name state
    | None => None
    end in
  py_or_str (py_or (py_or name (e_name entity)) (e_original_name entity))
            entity_id.

(** The loop that fills [new_aliases]; [fmt] is the f-string. *)
Definition alias_loop (w : World) (fmt : string → string)
    (entity_ids : list string) : gmap string string :=
  foldl (λ new_aliases entity_id,
           match ent_reg w !! entity_id with
           | Some entity =>
               <[entity_id := fmt (display_name w entity_id entity)]>
                 new_aliases
           | None => new_aliases
           end)
        ∅ entity_ids.

(** [entity_id.split(".")[0]]. *)
Fixpoint domain_of (entity_id : string) : string :=
  match entity_id with
  | EmptyString => EmptyString
  | String c rest =>
      if Ascii.eqb c "."%char then EmptyString else String c (domain_of rest)
  end.

Definition device_loop (w : World) (entity_ids : list string) : gset string :=
  foldl (λ devices entity_id,
           match ent_reg w !! entity_id with
           | Some entity =>
               match e_device_id entity with
               | Some device_id =>
                   if truthy (Some device_id) then devices ∪ {[device_id]}
                   else devices
               | None => devices
               end
           | None => devices
           end)
        ∅ entity_ids.

Definition bulk_update_body (msg : BulkUpdateMsg) : M Json :=
  let action := bu_action msg in
  entity_ids ←ₘ validated (validate_entity_ids (bu_entity_ids msg)) ;;
  value ←ₘ validated (validate_alias (default EmptyString (bu_value msg))) ;;
  assistant ←ₘ validated (validate_assistant (bu_assistant msg)) ;;
  w ←ₘ get_world ;;
  let config := get_filter_config assistant (store w) in
  match action with
  | exclude =>
      let current_entities := py_set (get_list (d_entities config)) in
      let current_entities := current_entities ∪ py_set entity_ids in
      async_set_filter_config
        (set_entities config (py_list current_entities)) assistant
  | unexclude =>
      let current_entities := py_set (get_list (d_entities config)) in
      let current_entities := current_entities ∖ py_set entity_ids in
      async_set_filter_config
        (set_entities config (py_list current_entities)) assistant
  | add_override =>
      let current_overrides := py_set (get_list (d_overrides config)) in
      let current_overrides := current_overrides ∪ py_set entity_ids in
      async_set_filter_config
        (set_overrides config (py_list current_overrides)) assistant
  | remove_override =>
      let current_overrides := py_set (get_list (d_overrides config)) in
      let current_overrides := current_overrides ∖ py_set entity_ids in
      async_set_filter_config
        (set_overrides config (py_list current_overrides)) assistant
  | set_alias_prefix =>
      let new_aliases := alias_loop w (λ name, value +:+ name) entity_ids in
      async_set_aliases_bulk new_aliases assistant
  | set_alias_suffix =>
      let new_aliases := alias_loop w (λ name, name +:+ value) entity_ids in
      async_set_aliases_bulk new_aliases assistant
  | clear_alias =>
      let new_aliases : gmap string string :=
        list_to_map ((λ k, (k, EmptyString)) <$> entity_ids) in
      async_set_aliases_bulk new_aliases assistant
  | exclude_domain =>
      let domains := py_set (domain_of <$> entity_ids) in
      let current_domains := py_set (get_list (d_domains config)) in
      let current_domains := current_domains ∪ domains in
      async_set_filter_config
        (set_domains config (py_list current_domains)) assistant
  | exclude_device =>
      let devices := device_loop w entity_ids in
      let current_devices := py_set (get_list (d_devices config)) in
      let current_devices := current_devices ∪ devices in
      async_set_filter_config
        (set_devices config (py_list current_devices)) assistant
  end ;;ₘ
  ret success.

Definition websocket_bulk_update (msg : BulkUpdateMsg) :=
  handle cmd_bulk_update (bulk_update_body msg).

(** *** The schema of the command *)

(** The validators of the voluptuous library that the schema of the
    command is written with: [str], a constant, [vol.In(container)],
    [[element]], [vol.Length(max=...)] and [vol.All(first, second)]. *)
Inductive Schema :=
  | vol_str
  | vol_literal (value : string)
  | vol_In (container : list string)
  | vol_list (element : Schema)
  | vol_Length_max (max : nat)
  | vol_All (first second : Schema).

(** [vol.Required(name): schema] and [vol.Optional(name): schema]. *)
Inductive Marker := vol_Required | vol_Optional.

Record SchemaKey := mkSchemaKey {
  sk_marker : Marker;
  sk_name : string;
  sk_schema : Schema }.

(** The value passes the validator.  [vol.Length] takes [len(v)], which
    [None] and booleans do not have. *)
Fixpoint conforms (s : Schema) (v : Json) : bool :=
  match s with
  | vol_str => if v is JStr _ then true else false
  | vol_literal value =>
      if v is JStr x then bool_decide (x = value) else false
  | vol_In container =>
      if v is JStr x then bool_decide (x ∈ container) else false
  | vol_list element =>
      if v is JList l then forallb (conforms element) l else false
  | vol_Length_max max =>
      match v with
      | JList l => bool_decide (length l ≤ max)%nat
      | JStr x => bool_decide (String.length x ≤ max)%nat
      | JObj fields => bool_decide (length fields ≤ max)%nat
      | _ => false
      end
  | vol_All first second => conforms first v && conforms second v
  end.

(** A message passes a dictionary schema when every required key is
    there, every key that is there passes its validator, and there is no
    key the schema does not name.  (The [id] of a message, which the host
    adds to every schema, is left out of messages and answers alike.) *)
Definition dict_conforms (schema : list SchemaKey) (msg : gmap string Json)
  : bool :=
  forallb (λ k, match msg !! sk_name k with
                | Some v => conforms (sk_schema k) v
                | None => if sk_marker k is vol_Optional then true else false
                end) schema
  && forallb (λ name, bool_decide (name ∈ sk_name <$> schema))
             (elements (dom msg)).

(** The schema of [websocket_bulk_update], as the decorator of the handler
    gives it. *)
Definition BULK_UPDATE_SCHEMA : list SchemaKey :=
  [ mkSchemaKey vol_Required "type"
      (vol_literal "voice_assistant_manager/bulk_update");
    mkSchemaKey vol_Required "action"
      (vol_In ["exclude"; "unexclude"; "set_alias_prefix";
               "set_alias_suffix"; "clear_alias"; "exclude_domain";
               "exclude_device"; "add_override"; "remove_override"]);
    mkSchemaKey vol_Required "entity_ids"
      (vol_All (vol_list vol_str) (vol_Length_max MAX_BULK_ENTITIES));
    mkSchemaKey vol_Optional "value" vol_str;
    mkSchemaKey vol_Optional "assistant"
      (vol_In ["google"; "alexa"; "homekit"]) ].

(** The message as the handler reads it: [msg["action"]],
    [msg["entity_ids"]], [msg.get("value")], [msg.get("assistant")]. *)
Definition action_of (name : string) : option BulkAction :=
  if String.eqb name "exclude" then Some exclude
  else if String.eqb name "unexclude" then Some unexclude
  else if String.eqb name "set_alias_prefix" then Some set_alias_prefix
  else if String.eqb name "set_alias_suffix" then Some set_alias_suffix
  else if String.eqb name "clear_alias" then Some clear_alias
  else if String.eqb name "exclude_domain" then Some exclude_domain
  else if String.eqb name "exclude_device" then Some exclude_device
  else if String.eqb name "add_override" then Some add_override
  else if String.eqb name "remove_override" then Some remove_override
  else None.

Definition assistant_of (name : string) : option Assistant :=
  if String.eqb name "google" then Some ASSISTANT_GOOGLE
  else if String.eqb name "alexa" then Some ASSISTANT_ALEXA
  else if String.eqb name "homekit" then Some ASSISTANT_HOMEKIT
  else None.

Definition string_of (v : Json) : option string :=
  if v is JStr x then Some x else None.

Fixpoint strings_of (l : list Json) : option (list string) :=
  match l with
  | [] => Some []
  | v :: rest =>
      match string_of v, strings_of rest with
      | Some x, Some xs => Some (x :: xs)
      | _, _ => None
      end
  end.

(** [msg.get(key)] read with [read]: [None] for a key that is not there. *)
Definition optional {A} (read : Json → option A) (field : option Json)
  : option (option A) :=
  match field with
  | Some v => if read v is Some x then Some (Some x) else None
  | None => Some None
  end.

Definition read_action (v : Json) : option BulkAction :=
  if v is JStr x then action_of x else None.

Definition read_assistant (v : Json) : option Assistant :=
  if v is JStr x then assistant_of x else None.

Definition read_bulk_update (msg : gmap string Json) : option BulkUpdateMsg :=
  match (if msg !! "action" is Some v then read_action v else None),
        msg !! "entity_ids" with
  | Some action, Some (JList l) =>
      match strings_of l,
            optional string_of (msg !! "value"),
            optional read_assistant (msg !! "assistant") with
      | Some entity_ids, Some value, Some assistant =>
          Some {| bu_action := action; bu_entity_ids := entity_ids;
                  bu_value := value; bu_assistant := assistant |}
      | _, _, _ => None
      end
  | _, _ => None
  end.

(** Modelled from the spec: the command boundary, which is the host's and
    absent from the sources; malformed or out-of-range input is caught at
    the boundary, never reaches the Store, and is returned as a structured
    error.  A message that fails the schema of the command is answered
    with an error (the host's code for it is [invalid_format]) and the
    handler is not called. *)
Definition command_bulk_update (msg : gmap string Json) (w : World)
  : Response * World :=
  if dict_conforms BULK_UPDATE_SCHEMA msg then
    match read_bulk_update msg with
    | Some m => websocket_bulk_update m w
    | None => (send_error "invalid_format" "invalid message", w)
    end
  else (send_error "invalid_format" "invalid message", w).

(** ** [websocket_save_all] *)

(** Every key of the message is optional; [sa_homekit_entry_id] is
    [vol.Any(str, None)], so a present key holds an id or null. *)
Record SaveAllMsg := mkSaveAllMsg {
  sa_filter_config : option FilterDict;
  sa_google_filter_config : option FilterDict;
  sa_alexa_filter_config : option FilterDict;
  sa_homekit_filter_config : option FilterDict;
  sa_aliases : option (gmap string string);
  sa_google_aliases : option (gmap string string);
  sa_alexa_aliases : option (gmap string string);
  sa_google_settings : option Json;
  sa_alexa_settings : option Json;
  sa_homekit_entry_id : option (option string) }.

(** [if key in msg: ...]. *)
Definition if_in {A} (field : option A) (f : A → M unit) : M unit :=
  match field with
  | Some x => f x
  | None => ret tt
  end.

(** The bridge check shared by [save_all] and [set_homekit_bridge]:
    [if entry_id is not None: ... if bridge is None: raise HomeKitError]. *)
Definition check_bridge (entry_id : option string) : M unit :=
  match entry_id with
  | Some id =>
      w ←ₘ get_world ;;
      match get_bridge_config id w with
      | None => raise (HomeKitError ("HomeKit bridge not found: " +:+ id))
      | Some _ => ret tt
      end
  | None => ret tt
  end.

Definition save_all_body (msg : SaveAllMsg) : M Json :=
  if_in (sa_filter_config msg) (λ c,
    validated_config ←ₘ validated (validate_filter_config c) ;;
    async_set_filter_config validated_config None) ;;ₘ
  if_in (sa_google_filter_config msg) (λ c,
    validated_config ←ₘ validated (validate_filter_config c) ;;
    async_set_filter_config validated_config (Some ASSISTANT_GOOGLE)) ;;ₘ
  if_in (sa_alexa_filter_config msg) (λ c,
    validated_config ←ₘ validated (validate_filter_config c) ;;
    async_set_filter_config validated_config (Some ASSISTANT_ALEXA)) ;;ₘ
  if_in (sa_homekit_filter_config msg) (λ c,
    validated_config ←ₘ validated (validate_filter_config c) ;;
    async_set_filter_config validated_config (Some ASSISTANT_HOMEKIT)) ;;ₘ
  if_in (sa_aliases msg) (λ m, async_set_aliases_bulk m None) ;;ₘ
  if_in (sa_google_aliases msg) (λ m,
    async_set_aliases_bulk m (Some ASSISTANT_GOOGLE)) ;;ₘ
  if_in (sa_alexa_aliases msg) (λ m,
    async_set_aliases_bulk m (Some ASSISTANT_ALEXA)) ;;ₘ
  if_in (sa_google_settings msg) (λ g,
    validated_settings ←ₘ validated (validate_google_settings g) ;;
    async_set_google_settings validated_settings) ;;ₘ
  if_in (sa_alexa_settings msg) (λ a,
    validated_settings ←ₘ validated (validate_alexa_settings a) ;;
    async_set_alexa_settings validated_settings) ;;ₘ
  if_in (sa_homekit_entry_id msg) (λ entry_id,
    check_bridge entry_id ;;ₘ
    async_set_homekit_entry_id entry_id) ;;ₘ
  ret success.

Definition websocket_save_all (msg : SaveAllMsg) :=
  handle cmd_save_all (save_all_body msg).

(** ** [websocket_set_homekit_bridge] *)

Definition json_of_id (entry_id : option string) : Json :=
  match entry_id with
  | Some id => JStr id
  | None => JNull
  end.

Definition set_homekit_bridge_body (entry_id : option string) : M Json :=
  check_bridge entry_id ;;ₘ
  async_set_homekit_entry_id entry_id ;;ₘ
  ret (JObj [("success", JBool true); ("entry_id", json_of_id entry_id)]).

Definition websocket_set_homekit_bridge (entry_id : option string) :=
  handle cmd_set_homekit_bridge (set_homekit_bridge_body entry_id).

(** ** [websocket_write_files] *)

(** One entry of [result]: [{"written": ..., "error": ...}]. *)
Record WriteResult := mkWriteResult {
  written : bool;
  error : option string }.

(** One of the three blocks of the handler: the completeness test, the
    inner [try] with the write followed by [async_set_last_generated], and
    the two inner [except] clauses, which both store [str(err)]. *)
Definition write_block (complete : Store → bool) (write : Call)
    (a : Assistant) (timestamp : string) (incomplete : string)
  : M WriteResult :=
  w ←ₘ get_world ;;
  if complete (store w) then
    try_except
      (external write id ;;ₘ
       async_set_last_generated a timestamp ;;ₘ
       ret {| written := true; error := None |})
      (λ err, ret {| written := false; error := Some (str err) |})
  else ret {| written := false; error := Some incomplete |}.

Definition json_of_result (r : WriteResult) : Json :=
  JObj [("written", JBool (written r));
        ("error", match error r with Some m => JStr m | None => JNull end)].

Definition result_json (google alexa homekit : WriteResult) : Json :=
  JObj [("google", json_of_result google);
        ("alexa", json_of_result alexa);
        ("homekit", json_of_result homekit)].

(** [timestamp] is [datetime.now().isoformat()], read once before the
    three blocks. *)
Definition write_files_body (timestamp : string) : M Json :=
  google ←ₘ write_block is_google_complete c_write_google_yaml
              ASSISTANT_GOOGLE timestamp
              "Google Assistant settings incomplete or disabled" ;;
  alexa ←ₘ write_block is_alexa_complete c_write_alexa_yaml
             ASSISTANT_ALEXA timestamp
             "Alexa settings incomplete or disabled" ;;
  homekit ←ₘ write_block is_homekit_complete c_sync_homekit
               ASSISTANT_HOMEKIT timestamp
               "No HomeKit bridge configured" ;;
  ret (result_json google alexa homekit).

Definition websocket_write_files (timestamp : string) :=
  handle cmd_write_files (write_files_body timestamp).

(** ** [websocket_check_config] and [websocket_restart] *)

Definition service_body (service : string) : M Json :=
  external (c_service service) id ;;ₘ
  ret success.

Definition websocket_check_config :=
  handle cmd_check_config (service_body "check_config").

Definition websocket_restart :=
  handle cmd_restart (service_body "restart").

End Handlers.

(** ** The exposure decision and the FilterConfig of the data model *)

Record EntityDescriptor := mkEntityDescriptor {
  entity_id : string;
  domain : string;
  device_id : option string }.

(** Modelled from the spec: the filter resolution engine [exposed(E, C)],
    absent from the sources; the three criteria are OR'd, the mode turns
    the match into the base decision, and an override flips it. *)
Definition exposed (E : EntityDescriptor) (C : FilterDict) : bool :=
  let matched :=
    bool_decide (domain E ∈@{list string} get_list (d_domains C))
    || bool_decide (entity_id E ∈@{list string} get_list (d_entities C))
    || match device_id E with
       | Some d => bool_decide (d ∈@{list string} get_list (d_devices C))
       | None => false
       end in
  let base :=
    match default FILTER_MODE_EXCLUDE (d_filter_mode C) with
    | FILTER_MODE_INCLUDE => matched
    | FILTER_MODE_EXCLUDE => negb matched
    end in
  if bool_decide (entity_id E ∈@{list string} get_list (d_overrides C))
  then negb base else base.

(** The FilterConfig of the data model: a mode and four sets.  [view] reads
    a stored dictionary as one, a missing key as its default. *)
Record FilterConfig := mkFilterConfig {
  filter_mode : FilterMode;
  domains : gset string;
  entities : gset string;
  devices : gset string;
  overrides : gset string }.

Definition view (c : FilterDict) : FilterConfig :=
  {| filter_mode := default FILTER_MODE_EXCLUDE (d_filter_mode c);
     domains := py_set (get_list (d_domains c));
     entities := py_set (get_list (d_entities c));
     devices := py_set (get_list (d_devices c));
     overrides := py_set (get_list (d_overrides c)) |}.

(** ** Predicates used in the statements *)

(** A field after a merge: a value present in the input is the value
    after; with no value in the input, a stored value stays. *)
Definition field_merged {A} (new_value stored after : option A) : Prop :=
  (∀ v, new_value = Some v → after = Some v)
  ∧ (new_value = None → ∀ v, stored = Some v → after = Some v).

(** The next [n] fallible external calls return. *)
Definition calls_return (n : nat) (w : World) : Prop :=
  Forall (λ o, o = None) (take n (script w)).

(** The write call, the completeness predicate, the message of the [else]
    branch and the entry of [result] of each assistant in
    [websocket_write_files]. *)
Definition write_call (a : Assistant) : Call :=
  match a with
  | ASSISTANT_GOOGLE => c_write_google_yaml
  | ASSISTANT_ALEXA => c_write_alexa_yaml
  | ASSISTANT_HOMEKIT => c_sync_homekit
  end.

Definition is_complete (a : Assistant) : Store → bool :=
  match a with
  | ASSISTANT_GOOGLE => is_google_complete
  | ASSISTANT_ALEXA => is_alexa_complete
  | ASSISTANT_HOMEKIT => is_homekit_complete
  end.

Definition incomplete_message (a : Assistant) : string :=
  match a with
  | ASSISTANT_GOOGLE => "Google Assistant settings incomplete or disabled"
  | ASSISTANT_ALEXA => "Alexa settings incomplete or disabled"
  | ASSISTANT_HOMEKIT => "No HomeKit bridge configured"
  end.

Definition entry_of (a : Assistant) (google alexa homekit : WriteResult)
  : WriteResult :=
  match a with
  | ASSISTANT_GOOGLE => google
  | ASSISTANT_ALEXA => alexa
  | ASSISTANT_HOMEKIT => homekit
  end.

(** The four ways one block of [websocket_write_files] can go, with the
    entry it leaves in [result], the calls it makes (latest first) and the
    document after it. *)
Inductive block_run (a : Assistant) (timestamp : string) (s : Store)
  : WriteResult → list (Call * option Exc) → Store → Prop :=
  | run_skipped :
      is_complete a s = false →
      block_run a timestamp s
        {| written := false; error := Some (incomplete_message a) |} [] s
  | run_write_failed e :
      is_complete a s = true →
      block_run a timestamp s
        {| written := false; error := Some (str e) |}
        [(write_call a, Some e)] s
  | run_stamp_failed e :
      is_complete a s = true →
      block_run a timestamp s
        {| written := false; error := Some (str e) |}
        [(c_set_last_generated a, Some e); (write_call a, None)] s
  | run_written :
      is_complete a s = true →
      block_run a timestamp s
        {| written := true; error := None |}
        [(c_set_last_generated a, None); (write_call a, None)]
        (put_last_generated a timestamp s).

(** The number of times [x] occurs in [l]. *)
Definition occurrences (x : string) (l : list string) : nat :=
  length (filter (λ y, y = x) l).

(** The resolution order of a display name: the state's friendly name,
    else the registry entry's name, else its original name, else the
    entity id; an absent or empty name is passed over. *)
Inductive resolves (friendly name original : option string)
    (entity_id : string) : string → Prop :=
  | by_friendly_name n :
      friendly = Some n → n ≠ EmptyString →
      resolves friendly name original entity_id n
  | by_name n :
      truthy friendly = false → name = Some n → n ≠ EmptyString →
      resolves friendly name original entity_id n
  | by_original_name n :
      truthy friendly = false → truthy name = false →
      original = Some n → n ≠ EmptyString →
      resolves friendly name original entity_id n
  | by_entity_id :
      truthy friendly = false → truthy name = false →
      truthy original = false →
      resolves friendly name original entity_id entity_id.

(** [save_all]: the validators accept every filter configuration and
    settings object the message holds. *)
Definition accepts {A B} (f : A → string + B) (field : option A) : Prop :=
  match field with
  | Some x => ∃ y, f x = inr y
  | None => True
  end.

Definition earlier_steps_accepted `{Validators} (msg : SaveAllMsg) : Prop :=
  accepts validate_filter_config (sa_filter_config msg)
  ∧ accepts validate_filter_config (sa_google_filter_config msg)
  ∧ accepts validate_filter_config (sa_alexa_filter_config msg)
  ∧ accepts validate_filter_config (sa_homekit_filter_config msg)
  ∧ accepts validate_google_settings (sa_google_settings msg)
  ∧ accepts validate_alexa_settings (sa_alexa_settings msg).

(** A computation that leaves the bridges and the selected bridge id as
    they were, whether it returns or raises. *)
Definition keeps_bridge {A} (m : M A) : Prop :=
  ∀ w, bridges (m w).2 = bridges w
       ∧ homekit_entry_id (store (m w).2) = homekit_entry_id (store w).

(** A computation that, where [id] references no bridge, raises and leaves
    the selected bridge id as it was. *)
Definition never_selects {A} (id : string) (m : M A) : Prop :=
  ∀ w, id ∉ bridges w →
       (∃ e, (m w).1 = inl e)
       ∧ bridges (m w).2 = bridges w
       ∧ homekit_entry_id (store (m w).2) = homekit_entry_id (store w).

(** A computation that returns whenever its external call, if it makes
    one, returns; it leaves the bridges as they were. *)
Definition runs {A} (m : M A) : Prop :=
  ∀ n w, calls_return (S n) w →
         ∃ x w', m w = (inr x, w') ∧ calls_return n w'
                 ∧ bridges w' = bridges w.

(** ** The registry snapshots of [get_state] ([api.py]) *)

(** The registries the snapshot helpers read: the values of
    [ent_reg.entities] and [dev_reg.devices] in the order the registry
    yields them, the areas of [area_reg.async_list_areas()], and the state
    machine. *)
Record EntityEntry := mkEntityEntry {
  ee_entity_id : string;
  ee_disabled : bool;
  ee_device_id : option string;
  ee_area_id : option string;
  ee_name : option string;
  ee_original_name : option string;
  ee_platform : string }.

Record DeviceEntry := mkDeviceEntry {
  de_id : string;
  de_disabled : bool;
  de_name_by_user : option string;
  de_name : option string;
  de_area_id : option string;
  de_manufacturer : option string;
  de_model : option string }.

Record AreaEntry := mkAreaEntry {
  ar_id : string;
  ar_name : string }.

Record Registries := mkRegistries {
  reg_entities : list EntityEntry;
  reg_devices : list DeviceEntry;
  reg_areas : list AreaEntry;
  reg_states : gmap string State }.

(** [dev_reg.async_get(device_id)] and [area_reg.async_get_area(area_id)]:
    the entry with that id, or [None]. *)
Definition async_get_device (r : Registries) (device_id : string)
  : option DeviceEntry :=
  head (filter (λ d, de_id d = device_id) (reg_devices r)).

Definition async_get_area (r : Registries) (area_id : string)
  : option AreaEntry :=
  head (filter (λ a, ar_id a = area_id) (reg_areas r)).

(** [if area_id: area = area_reg.async_get_area(area_id); if area:
    area_name = area.name]. *)
Definition area_name_of (r : Registries) (area_id : option string)
  : option string :=
  match area_id with
  | Some id =>
      if truthy (Some id) then
        match async_get_area r id with
        | Some area => Some (ar_name area)
        | None => None
        end
      else None
  | None => None
  end.

(** One element of the list [_get_entities_data] returns. *)
Record EntityRow := mkEntityRow {
  row_entity_id : string;
  row_name : string;
  row_domain : string;
  row_device_id : option string;
  row_device_name : option string;
  row_area_id : option string;
  row_area_name : option string;
  row_platform : string }.

(** The body of the loop of [_get_entities_data] for an entity that is not
    disabled. *)
Definition entity_row (r : Registries) (entity : EntityEntry) : EntityRow :=
  let '(device_name, device_area_id) :=
    match ee_device_id entity with
    | Some device_id =>
        if truthy (Some device_id) then
          match async_get_device r device_id with
          | Some device =>
              (py_or (de_name_by_user device) (de_name device),
               de_area_id device)
          | None => (None, None)
          end
        else (None, None)
    | None => (None, None)
    end in
  let area_id := py_or (ee_area_id entity) device_area_id in
  let area_name := area_name_of r area_id in
  let friendly_name :=
    match reg_states r !! ee_entity_id entity with
    | Some state => s_friendly_name state
    | None => None
    end in
  let friendly_name :=
    py_or_str friendly_name
      (py_or_str (py_or (ee_name entity) (ee_original_name entity))
                 (ee_entity_id entity)) in
  let domain := domain_of (ee_entity_id entity) in
  {| row_entity_id := ee_entity_id entity;
     row_name := friendly_name;
     row_domain := domain;
     row_device_id := ee_device_id entity;
     row_device_name := device_name;
     row_area_id := area_id;
     row_area_name := area_name;
     row_platform := ee_platform entity |}.

Fixpoint entities_loop (r : Registries) (entities : list EntityEntry)
  : list EntityRow :=
  match entities with
  | [] => []
  | entity :: rest =>
      if ee_disabled entity then entities_loop r rest
      else entity_row r entity :: entities_loop r rest
  end.

Definition _get_entities_data (r : Registries) : list EntityRow :=
  entities_loop r (reg_entities r).

(** One element of the list [_get_devices_data] returns. *)
Record DeviceRow := mkDeviceRow {
  drow_id : string;
  drow_name : option string;
  drow_area_id : option string;
  drow_area_name : option string;
  drow_manufacturer : option string;
  drow_model : option string }.

Definition device_row (r : Registries) (device : DeviceEntry) : DeviceRow :=
  {| drow_id := de_id device;
     drow_name := py_or (de_name_by_user device) (de_name device);
     drow_area_id := de_area_id device;
     drow_area_name := area_name_of r (de_area_id device);
     drow_manufacturer := de_manufacturer device;
     drow_model := de_model device |}.

Fixpoint devices_loop (r : Registries) (devices : list DeviceEntry)
  : list DeviceRow :=
  match devices with
  | [] => []
  | device :: rest =>
      if de_disabled device then devices_loop r rest
      else device_row r device :: devices_loop r rest
  end.

Definition _get_devices_data (r : Registries) : list DeviceRow :=
  devices_loop r (reg_devices r).

Definition _get_areas_data (r : Registries) : list (string * string) :=
  (λ area, (ar_id area, ar_name area)) <$> reg_areas r.

(** [sorted(s)] of a set of strings: its members once each, in the order
    of their code points. *)
Definition sorted (s : gset string) : list string :=
  merge_sort String.le (elements s).

Definition _get_domains (r : Registries) : list string :=
  let domains :=
    foldl (λ domains entity,
             if negb (ee_disabled entity)
             then domains ∪ {[domain_of (ee_entity_id entity)]}
             else domains)
          (∅ : gset string) (reg_entities r) in
  sorted domains.

(** ** [websocket_sync_homekit] and [websocket_preview_yaml] ([api.py]) *)

(** [sync_result] is what [async_sync_from_voice_assistant_manager]
    returns, and [timestamp] the [datetime.now().isoformat()] taken after
    it. *)
Definition sync_homekit_body (sync_result : Json) (timestamp : string)
  : M Json :=
  external c_sync_homekit id ;;ₘ
  async_set_last_generated ASSISTANT_HOMEKIT timestamp ;;ₘ
  ret sync_result.

Definition websocket_sync_homekit (sync_result : Json) (timestamp : string) :=
  handle cmd_sync_homekit (sync_homekit_body sync_result timestamp).

(** The two generators of [yaml_generator.py] that the preview calls: the
    document and its warnings, or an exception.  The handler is
    parameterised by them. *)
Class Generator := {
  generate_google_yaml : World → Exc + (string * list string);
  generate_alexa_yaml : World → Exc + (string * list string) }.

Definition generated {A} (r : Exc + A) : M A :=
  match r with
  | inl e => raise e
  | inr x => ret x
  end.

Definition preview_entry (yaml : string) (warnings : list string)
    (complete : bool) : Json :=
  JObj [("yaml", JStr yaml); ("warnings", json_of_list warnings);
        ("complete", JBool complete)].

(** [result] is built key by key; an assistant other than the two of the
    schema adds none. *)
Definition preview_yaml_body `{Generator} (assistant : option Assistant)
  : M Json :=
  w ←ₘ get_world ;;
  google ←ₘ
    (if bool_decide (assistant = None ∨ assistant = Some ASSISTANT_GOOGLE)
     then
       g ←ₘ generated (generate_google_yaml w) ;;
       ret [("google",
             preview_entry g.1 g.2 (is_google_complete (store w)))]
     else ret []) ;;
  alexa ←ₘ
    (if bool_decide (assistant = None ∨ assistant = Some ASSISTANT_ALEXA)
     then
       al ←ₘ generated (generate_alexa_yaml w) ;;
       ret [("alexa",
             preview_entry al.1 al.2 (is_alexa_complete (store w)))]
     else ret []) ;;
  ret (JObj (google ++ alexa)).

Definition websocket_preview_yaml `{Generator} (assistant : option Assistant) :=
  handle cmd_preview_yaml (preview_yaml_body assistant).

(** ** The remaining handlers ([api.py]) *)

(** What the handlers below take from the modules that are absent from the
    sources: three more functions of [validators.py], the snapshot
    [storage.get_full_state()], and of the HomeKit manager the list of
    bridges and the import (what it writes into the document and the
    result it returns).  The handlers are parameterised by them. *)
Class Collaborators := {
  validate_mode : Mode → string + Mode;
  validate_filter_mode : FilterMode → string + FilterMode;
  validate_domains : list string → string + list string;
  get_full_state : Store → gmap string Json;
  get_homekit_bridges : World → Json;
  import_effect : Store → Store;
  import_result : World → Json }.

Definition put_mode (m : Mode) (s : Store) : Store :=
  {| mode := m; filter_config := filter_config s; aliases := aliases s;
     google_filter_config := google_filter_config s;
     google_aliases := google_aliases s;
     alexa_filter_config := alexa_filter_config s;
     alexa_aliases := alexa_aliases s;
     homekit_filter_config := homekit_filter_config s;
     homekit_aliases := homekit_aliases s;
     homekit_entry_id := homekit_entry_id s;
     google_settings := google_settings s;
     alexa_settings := alexa_settings s;
     last_generated := last_generated s |}.

(** Modelled from the spec: [storage.async_set_mode(mode)], absent from
    the sources. *)
Definition async_set_mode (m : Mode) : M unit :=
  external c_set_mode (put_mode m).

Definition set_filter_mode (c : FilterDict) (m : FilterMode) : FilterDict :=
  {| d_filter_mode := Some m; d_domains := d_domains c;
     d_entities := d_entities c; d_devices := d_devices c;
     d_overrides := d_overrides c |}.

(** Modelled from the spec: [storage.async_set_filter_mode(mode,
    assistant)], absent from the sources; it sets only [filter_mode] on
    the targeted FilterConfig. *)
Definition async_set_filter_mode (m : FilterMode) (a : target_key) : M unit :=
  external (c_set_filter_mode a)
    (λ s, put_filter_config a (set_filter_mode (get_filter_config a s) m) s).

(** Modelled from the spec: [storage.async_set_domains(domains,
    assistant)], absent from the sources; it replaces the [domains] field
    of the targeted FilterConfig. *)
Definition async_set_domains (domains : list string) (a : target_key)
  : M unit :=
  external (c_set_domains a)
    (λ s, put_filter_config a (set_domains (get_filter_config a s) domains) s).

(** Modelled from the spec: [storage.async_set_alias(entity_id, alias,
    assistant)], absent from the sources; it writes the alias entry. *)
Definition async_set_alias (entity_id alias : string) (a : target_key)
  : M unit :=
  external (c_set_alias a)
    (λ s, put_aliases a (<[entity_id := alias]> (get_aliases a s)) s).

Definition HOMEKIT_SUPPORTED_DOMAINS : gset string :=
  list_to_set
    [ "alarm_control_panel"; "climate"; "cover"; "fan"; "humidifier";
      "light"; "lock"; "switch"; "water_heater"; "binary_sensor";
      "button"; "camera"; "input_boolean"; "lawn_mower"; "scene";
      "script"; "sensor"; "valve" ].

Definition json_of_entity_row (row : EntityRow) : Json :=
  JObj [("entity_id", JStr (row_entity_id row));
        ("name", JStr (row_name row));
        ("domain", JStr (row_domain row));
        ("device_id", json_of_id (row_device_id row));
        ("device_name", json_of_id (row_device_name row));
        ("area_id", json_of_id (row_area_id row));
        ("area_name", json_of_id (row_area_name row));
        ("platform", JStr (row_platform row))].

Definition json_of_device_row (row : DeviceRow) : Json :=
  JObj [("id", JStr (drow_id row));
        ("name", json_of_id (drow_name row));
        ("area_id", json_of_id (drow_area_id row));
        ("area_name", json_of_id (drow_area_name row));
        ("manufacturer", json_of_id (drow_manufacturer row));
        ("model", json_of_id (drow_model row))].

Section MoreHandlers.
Context {V : Validators} {K : Collaborators}.

(** [websocket_get_state]; [r] holds the host's registries. *)
Definition get_state_body (r : Registries) : M Json :=
  external c_get_full_state id ;;ₘ
  w ←ₘ get_world ;;
  let state := get_full_state (store w) in
  let state := <["entities" := JList (json_of_entity_row <$> _get_entities_data r)]> state in
  let state := <["devices" := JList (json_of_device_row <$> _get_devices_data r)]> state in
  let state :=
    <["areas" := JList ((λ a, JObj [("id", JStr a.1); ("name", JStr a.2)])
                          <$> _get_areas_data r)]> state in
  let state := <["domains" := json_of_list (_get_domains r)]> state in
  external c_get_homekit_bridges id ;;ₘ
  let state := <["homekit_bridges" := get_homekit_bridges w]> state in
  let state :=
    <["homekit_supported_domains" :=
        json_of_list (sorted HOMEKIT_SUPPORTED_DOMAINS)]> state in
  ret (JObj (map_to_list state)).

Definition websocket_get_state (r : Registries) :=
  handle cmd_get_state (get_state_body r).

Definition json_of_mode (m : Mode) : Json :=
  JStr (match m with MODE_LINKED => "linked" | MODE_SEPARATE => "separate" end).

Definition json_of_filter_mode (m : FilterMode) : Json :=
  JStr (match m with
        | FILTER_MODE_EXCLUDE => "exclude"
        | FILTER_MODE_INCLUDE => "include"
        end).

Definition set_mode_body (m : Mode) : M Json :=
  validated_mode ←ₘ validated (validate_mode m) ;;
  async_set_mode validated_mode ;;ₘ
  ret (JObj [("success", JBool true); ("mode", json_of_mode validated_mode)]).

Definition websocket_set_mode (m : Mode) :=
  handle cmd_set_mode (set_mode_body m).

Definition set_filter_mode_body (m : FilterMode) (a : option Assistant)
  : M Json :=
  filter_mode ←ₘ validated (validate_filter_mode m) ;;
  assistant ←ₘ validated (validate_assistant a) ;;
  async_set_filter_mode filter_mode assistant ;;ₘ
  ret (JObj [("success", JBool true);
             ("filter_mode", json_of_filter_mode filter_mode)]).

Definition websocket_set_filter_mode (m : FilterMode) (a : option Assistant) :=
  handle cmd_set_filter_mode (set_filter_mode_body m a).

Definition set_domains_body (l : list string) (a : option Assistant)
  : M Json :=
  domains ←ₘ validated (validate_domains l) ;;
  assistant ←ₘ validated (validate_assistant a) ;;
  async_set_domains domains assistant ;;ₘ
  ret (JObj [("success", JBool true); ("domains", json_of_list domains)]).

Definition websocket_set_domains (l : list string) (a : option Assistant) :=
  handle cmd_set_domains (set_domains_body l a).

Definition set_alias_body (entity_id alias : string) (a : option Assistant)
  : M Json :=
  validated_entity_id ←ₘ validated (validate_entity_id entity_id) ;;
  validated_alias ←ₘ validated (validate_alias alias) ;;
  validated_assistant ←ₘ validated (validate_assistant a) ;;
  async_set_alias validated_entity_id validated_alias validated_assistant ;;ₘ
  ret success.

Definition websocket_set_alias (entity_id alias : string)
    (a : option Assistant) :=
  handle cmd_set_alias (set_alias_body entity_id alias a).

(** [if assistant == ASSISTANT_GOOGLE: ... else: ...]. *)
Definition set_settings_body (assistant : Assistant) (settings : Json)
  : M Json :=
  (if decide (assistant = ASSISTANT_GOOGLE) then
     validated_settings ←ₘ validated (validate_google_settings settings) ;;
     async_set_google_settings validated_settings
   else
     validated_settings ←ₘ validated (validate_alexa_settings settings) ;;
     async_set_alexa_settings validated_settings) ;;ₘ
  ret success.

Definition websocket_set_settings (assistant : Assistant) (settings : Json) :=
  handle cmd_set_settings (set_settings_body assistant settings).

Definition get_homekit_bridges_body : M Json :=
  external c_get_homekit_bridges id ;;ₘ
  w ←ₘ get_world ;;
  ret (JObj [("bridges", get_homekit_bridges w)]).

Definition websocket_get_homekit_bridges :=
  handle cmd_get_homekit_bridges get_homekit_bridges_body.

Definition import_homekit_body : M Json :=
  w ←ₘ get_world ;;
  external c_import_homekit import_effect ;;ₘ
  ret (import_result w).

Definition websocket_import_homekit :=
  handle cmd_import_homekit import_homekit_body.

End MoreHandlers.

(** ** The command surface as a whole *)

(** A request: one of the eighteen commands with what its handler reads
    from the message, and for the handlers that read the clock or the
    host's registries, what they find there. *)
Inductive Request :=
  | req_get_state (r : Registries)
  | req_set_mode (m : Mode)
  | req_set_filter_mode (m : FilterMode) (a : option Assistant)
  | req_set_filter_config (msg : SetFilterConfigMsg)
  | req_set_domains (l : list string) (a : option Assistant)
  | req_toggle_override (msg : ToggleOverrideMsg)
  | req_set_alias (entity_id alias : string) (a : option Assistant)
  | req_bulk_update (msg : BulkUpdateMsg)
  | req_set_settings (a : Assistant) (settings : Json)
  | req_save_all (msg : SaveAllMsg)
  | req_preview_yaml (a : option Assistant)
  | req_write_files (timestamp : string)
  | req_get_homekit_bridges
  | req_set_homekit_bridge (entry_id : option string)
  | req_sync_homekit (sync_result : Json) (timestamp : string)
  | req_import_homekit
  | req_check_config
  | req_restart.

Definition command_of (req : Request) : Command :=
  match req with
  | req_get_state _ => cmd_get_state
  | req_set_mode _ => cmd_set_mode
  | req_set_filter_mode _ _ => cmd_set_filter_mode
  | req_set_filter_config _ => cmd_set_filter_config
  | req_set_domains _ _ => cmd_set_domains
  | req_toggle_override _ => cmd_toggle_override
  | req_set_alias _ _ _ => cmd_set_alias
  | req_bulk_update _ => cmd_bulk_update
  | req_set_settings _ _ => cmd_set_settings
  | req_save_all _ => cmd_save_all
  | req_preview_yaml _ => cmd_preview_yaml
  | req_write_files _ => cmd_write_files
  | req_get_homekit_bridges => cmd_get_homekit_bridges
  | req_set_homekit_bridge _ => cmd_set_homekit_bridge
  | req_sync_homekit _ _ => cmd_sync_homekit
  | req_import_homekit => cmd_import_homekit
  | req_check_config => cmd_check_config
  | req_restart => cmd_restart
  end.

Section Surface.
Context {V : Validators} {G : Generator} {K : Collaborators}.

(** The [try] block of the handler of a request. *)
Definition body_of (req : Request) : M Json :=
  match req with
  | req_get_state r => get_state_body r
  | req_set_mode m => set_mode_body m
  | req_set_filter_mode m a => set_filter_mode_body m a
  | req_set_filter_config msg => set_filter_config_body msg
  | req_set_domains l a => set_domains_body l a
  | req_toggle_override msg => toggle_override_body msg
  | req_set_alias entity_id alias a => set_alias_body entity_id alias a
  | req_bulk_update msg => bulk_update_body msg
  | req_set_settings a settings => set_settings_body a settings
  | req_save_all msg => save_all_body msg
  | req_preview_yaml a => preview_yaml_body a
  | req_write_files timestamp => write_files_body timestamp
  | req_get_homekit_bridges => get_homekit_bridges_body
  | req_set_homekit_bridge entry_id => set_homekit_bridge_body entry_id
  | req_sync_homekit sync_result timestamp =>
      sync_homekit_body sync_result timestamp
  | req_import_homekit => import_homekit_body
  | req_check_config => service_body "check_config"
  | req_restart => service_body "restart"
  end.

(** The handler that [async_register_websocket_api] registers for the
    command of the request. *)
Definition run (req : Request) : World → Response * World :=
  match req with
  | req_get_state r => websocket_get_state r
  | req_set_mode m => websocket_set_mode m
  | req_set_filter_mode m a => websocket_set_filter_mode m a
  | req_set_filter_config msg => websocket_set_filter_config msg
  | req_set_domains l a => websocket_set_domains l a
  | req_toggle_override msg => websocket_toggle_override msg
  | req_set_alias entity_id alias a => websocket_set_alias entity_id alias a
  | req_bulk_update msg => websocket_bulk_update msg
  | req_set_settings a settings => websocket_set_settings a settings
  | req_save_all msg => websocket_save_all msg
  | req_preview_yaml a => websocket_preview_yaml a
  | req_write_files timestamp => websocket_write_files timestamp
  | req_get_homekit_bridges => websocket_get_homekit_bridges
  | req_set_homekit_bridge entry_id => websocket_set_homekit_bridge entry_id
  | req_sync_homekit sync_result timestamp =>
      websocket_sync_homekit sync_result timestamp
  | req_import_homekit => websocket_import_homekit
  | req_check_config => websocket_check_config
  | req_restart => websocket_restart
  end.

End Surface.

(** A computation in which a call that raises ends the computation with
    that exception: nothing in it catches a failure. *)
Definition propagates {A} (m : M A) : Prop :=
  ∀ w, ∃ new, trace (m w).2 = new ++ trace w
              ∧ ∀ c e, (c, Some e) ∈ new → (m w).1 = inl e.

(** A computation that leaves the part [f] of the stored document as it
    was, whether it returns or raises. *)
Definition keeps {A B} (f : Store → B) (m : M A) : Prop :=
  ∀ w, f (store (m w).2) = f (store w).

(** ** Inputs for the registry snapshots *)

Definition example_registries : Registries :=
  {| reg_entities :=
       [ {| ee_entity_id := "light.kitchen"; ee_disabled := false;
            ee_device_id := Some "dev1"; ee_area_id := None;
            ee_name := None; ee_original_name := Some "Kitchen";
            ee_platform := "hue" |};
         {| ee_entity_id := "switch.fan"; ee_disabled := true;
            ee_device_id := None; ee_area_id := None;
            ee_name := None; ee_original_name := None;
            ee_platform := "zwave" |};
         {| ee_entity_id := "light.hall"; ee_disabled := false;
            ee_device_id := None; ee_area_id := Some "hall";
            ee_name := Some "Hall"; ee_original_name := None;
            ee_platform := "hue" |} ];
     reg_devices :=
       [ {| de_id := "dev1"; de_disabled := false;
            de_name_by_user := None; de_name := Some "Hue bulb";
            de_area_id := Some "kitchen"; de_manufacturer := Some "Signify";
            de_model := None |} ];
     reg_areas :=
       [ {| ar_id := "kitchen"; ar_name := "Kitchen" |};
         {| ar_id := "hall"; ar_name := "Hallway" |} ];
     reg_states :=
       {[ "light.kitchen" := {| s_friendly_name := Some "Kitchen Light" |} ]} |}.

Definition kitchen_entity : EntityEntry :=
  {| ee_entity_id := "light.kitchen"; ee_disabled := false;
     ee_device_id := Some "dev1"; ee_area_id := None;
     ee_name := None; ee_original_name := Some "Kitchen";
     ee_platform := "hue" |}.

Definition bulk_msg (action : BulkAction) (ids : list string) : BulkUpdateMsg :=
  {| bu_action := action; bu_entity_ids := ids; bu_value := Some "!";
     bu_assistant := None |}.

(** ** Example inputs *)

(** A world for the examples: the default document with [light] excluded
    and [light.kitchen] overridden in the shared configuration, two
    registered entities and one bridge. *)
Definition example_config : FilterDict :=
  {| d_filter_mode := Some FILTER_MODE_EXCLUDE;
     d_domains := Some ["light"];
     d_entities := Some ["switch.fan"];
     d_devices := Some [];
     d_overrides := Some ["light.kitchen"] |}.

Definition example_world : World :=
  {| store := put_filter_config None example_config DEFAULT_DATA;
     ent_reg :=
       {[ "light.kitchen" :=
            {| e_name := None; e_original_name := Some "Kitchen";
               e_device_id := Some "dev1" |};
          "light.hall" :=
            {| e_name := Some "Hall"; e_original_name := None;
               e_device_id := None |} ]};
     states := {[ "light.kitchen" := {| s_friendly_name := Some "Kitchen Light" |} ]};
     bridges := {[ "bridge-1" ]};
     script := [];
     trace := [] |}.

Definition only_domains (l : list string) : FilterDict :=
  {| d_filter_mode := None; d_domains := Some l; d_entities := None;
     d_devices := None; d_overrides := None |}.

Definition with_script (outcomes : list (option Exc)) (w : World) : World :=
  {| store := store w; ent_reg := ent_reg w; states := states w;
     bridges := bridges w; script := outcomes; trace := trace w |}.

(** The example world with Google and Alexa complete and no bridge
    selected. *)
Definition complete_world : World :=
  with_store
    (put_settings
       {| g_enabled := true; g_project_id := "home-1234";
          g_service_account_path := "sa.json"; g_report_state := true;
          g_secure_devices_pin := EmptyString;
          g_advanced_yaml := EmptyString |}
       {| a_enabled := true; a_advanced_yaml := EmptyString |})
    example_world.

Definition empty_save_all : SaveAllMsg :=
  {| sa_filter_config := None; sa_google_filter_config := None;
     sa_alexa_filter_config := None; sa_homekit_filter_config := None;
     sa_aliases := None; sa_google_aliases := None;
     sa_alexa_aliases := None; sa_google_settings := None;
     sa_alexa_settings := None; sa_homekit_entry_id := None |}.

Definition select_bridge (id : string) : SaveAllMsg :=
  {| sa_filter_config := Some (only_domains ["switch"]);
     sa_google_filter_config := None;
     sa_alexa_filter_config := None; sa_homekit_filter_config := None;
     sa_aliases := None; sa_google_aliases := None;
     sa_alexa_aliases := None; sa_google_settings := None;
     sa_alexa_settings := None; sa_homekit_entry_id := Some (Some id) |}.

(** * Properties *)

Section SetFilterConfig.
Context {V : Validators}.

(** ** The monad *)

Lemma external_returns c f w n :
  calls_return (S n) w →
  ∃ w', external c f w = (inr tt, w')
        ∧ store w' = f (store w) ∧ ent_reg w' = ent_reg w
        ∧ states w' = states w ∧ bridges w' = bridges w
        ∧ trace w' = (c, None) :: trace w
        ∧ calls_return n w'.
Proof.
  unfold calls_return, external.
  destruct (script w) as [|[e|] r]; simpl; intros Hs.
  - eexists; split; [done|]. repeat split; simpl.
    by rewrite take_nil.
  - by apply Forall_cons in Hs as [[=] _].
  - eexists; split; [done|]. repeat split; simpl.
    by apply Forall_cons in Hs as [_ ?].
Qed.

Lemma get_put_filter_config a c s :
  get_filter_config a (put_filter_config a c s) = c.
Proof. by destruct a as [[]|]. Qed.

Lemma get_put_filter_config_ne a b c s :
  a ≠ b → get_filter_config b (put_filter_config a c s) = get_filter_config b s.
Proof. by destruct a as [[]|], b as [[]|]. Qed.

(** Where the configuration written holds every key the stored one holds,
    the merge of the Store stores it as it is. *)
Lemma merge_fields_merged new_config current stored :
  merge_fields (merged new_config current) stored = merged new_config current.
Proof. done. Qed.

Lemma merge_fields_set_domains c l : merge_fields (set_domains c l) c = set_domains c l.
Proof. by destruct c as [[] [] [] [] []]. Qed.

Lemma merge_fields_set_entities c l :
  merge_fields (set_entities c l) c = set_entities c l.
Proof. by destruct c as [[] [] [] [] []]. Qed.

Lemma merge_fields_set_devices c l :
  merge_fields (set_devices c l) c = set_devices c l.
Proof. by destruct c as [[] [] [] [] []]. Qed.

Lemma merge_fields_set_overrides c l :
  merge_fields (set_overrides c l) c = set_overrides c l.
Proof. by destruct c as [[] [] [] [] []]. Qed.

(** A persisted [async_set_filter_config]. *)
Lemma set_filter_config_returns c a w n :
  calls_return (S n) w →
  ∃ w', async_set_filter_config c a w = (inr tt, w')
        ∧ store w' =
            put_filter_config a
              (merge_fields c (get_filter_config a (store w))) (store w)
        ∧ calls_return n w'.
Proof.
  intros Hio. unfold async_set_filter_config.
  destruct (external_returns (c_set_filter_config a)
              (λ s, put_filter_config a
                      (merge_fields c (get_filter_config a s)) s) w n Hio)
    as (w' & E & Hs & _ & _ & _ & _ & Hn).
  by exists w'.
Qed.

(** ** set_filter_config *)

Lemma merged_fields new_config current :
  let m := merged new_config current in
  field_merged (d_filter_mode new_config) (d_filter_mode current) (d_filter_mode m)
  ∧ field_merged (d_domains new_config) (d_domains current) (d_domains m)
  ∧ field_merged (d_entities new_config) (d_entities current) (d_entities m)
  ∧ field_merged (d_devices new_config) (d_devices current) (d_devices m)
  ∧ field_merged (d_overrides new_config) (d_overrides current) (d_overrides m).
Proof.
  unfold field_merged; simpl.
  repeat split; intros; simplify_eq/=; by repeat match goal with
    | H : _ = _ |- _ => rewrite H end.
Qed.

(** The handler stores what the validator returns for [merged], on the
    FilterConfig the validated assistant targets, and touches no other. *)
Lemma set_filter_config_stores msg w a vc :
  validate_assistant (sfc_assistant msg) = inr a →
  validate_filter_config
    (merged (sfc_filter_config msg) (get_filter_config a (store w))) = inr vc →
  calls_return 1 w →
  let (r, w') := websocket_set_filter_config msg w in
  r = send_result (JObj [("success", JBool true);
                         ("filter_config", json_of_filter vc)])
  ∧ store w' =
      put_filter_config a
        (merge_fields vc (get_filter_config a (store w))) (store w).
Proof.
  intros Ha Hv Hio.
  unfold websocket_set_filter_config, handle, set_filter_config_body,
    bind, validated, get_world, ret.
  rewrite Ha; simpl. rewrite Hv; simpl.
  destruct (set_filter_config_returns vc a w 0 Hio) as (w' & -> & Hs & _).
  done.
Qed.

(** C1: in [set_filter_config], with the merged configuration accepted as
    it is by the validator and the write persisted, each of the five fields
    absent from the partial input keeps its stored value on the targeted
    FilterConfig, and each field present in the input replaces the stored
    value wholesale. *)
Theorem set_filter_config_field_merge msg w a :
  validate_assistant (sfc_assistant msg) = inr a →
  validate_filter_config
    (merged (sfc_filter_config msg) (get_filter_config a (store w)))
    = inr (merged (sfc_filter_config msg) (get_filter_config a (store w))) →
  calls_return 1 w →
  let new_config := sfc_filter_config msg in
  let current := get_filter_config a (store w) in
  let after :=
    get_filter_config a (store (websocket_set_filter_config msg w).2) in
  field_merged (d_filter_mode new_config) (d_filter_mode current) (d_filter_mode after)
  ∧ field_merged (d_domains new_config) (d_domains current) (d_domains after)
  ∧ field_merged (d_entities new_config) (d_entities current) (d_entities after)
  ∧ field_merged (d_devices new_config) (d_devices current) (d_devices after)
  ∧ field_merged (d_overrides new_config) (d_overrides current) (d_overrides after).
Proof.
  intros Ha Hv Hio new_config current after.
  pose proof (set_filter_config_stores msg w a _ Ha Hv Hio) as Hs.
  subst after. destruct (websocket_set_filter_config msg w) as [r w'].
  destruct Hs as [_ Hs]. simpl.
  rewrite Hs, get_put_filter_config, merge_fields_merged.
  apply merged_fields.
Qed.

End SetFilterConfig.

(** Runs the storage call the goal is stopped at, for a call that returns,
    and reads the document after it. *)
Ltac persist w n Hio :=
  match goal with
  | |- context [external ?call ?f w] =>
      let w' := fresh "w'" in
      let Hs := fresh "Hs" in
      let Hn := fresh "Hn" in
      destruct (external_returns call f w n Hio)
        as (w' & -> & Hs & _ & _ & _ & _ & Hn);
      exists w'; cbv beta in Hs;
      rewrite ?merge_fields_set_domains, ?merge_fields_set_entities,
        ?merge_fields_set_devices, ?merge_fields_set_overrides in Hs
  end.

Lemma set_filter_config_field_merge_witness :
  let msg := {| sfc_filter_config := only_domains ["switch"];
                sfc_assistant := None |} in
  let after :=
    get_filter_config None
      (store (websocket_set_filter_config (V := accept_all) msg example_world).2) in
  field_merged (d_filter_mode (only_domains ["switch"]))
    (d_filter_mode example_config) (d_filter_mode after)
  ∧ field_merged (d_domains (only_domains ["switch"]))
      (d_domains example_config) (d_domains after)
  ∧ field_merged (d_entities (only_domains ["switch"]))
      (d_entities example_config) (d_entities after)
  ∧ field_merged (d_devices (only_domains ["switch"]))
      (d_devices example_config) (d_devices after)
  ∧ field_merged (d_overrides (only_domains ["switch"]))
      (d_overrides example_config) (d_overrides after).
Proof.
  exact (set_filter_config_field_merge (V := accept_all)
           {| sfc_filter_config := only_domains ["switch"];
              sfc_assistant := None |}
           example_world None eq_refl eq_refl (Forall_nil_2 _)).
Defined.

(** ** write_files *)

Section WriteFiles.

Lemma write_block_run a timestamp w :
  ∃ res new w',
    write_block (is_complete a) (write_call a) a timestamp
      (incomplete_message a) w = (inr res, w')
    ∧ trace w' = new ++ trace w
    ∧ block_run a timestamp (store w) res new (store w').
Proof.
  unfold write_block, bind, get_world, try_except, external,
    async_set_last_generated, ret.
  destruct (is_complete a (store w)) eqn:Hc.
  - destruct (script w) as [|[e|] [|[e'|] r]] eqn:Hs; cbn [tail];
      rewrite ?Hs; cbn [with_store store script trace tail];
      first
        [ by eexists _, [_; _], _;
             (split; [reflexivity|]); (split; [done|]); apply run_written
        | by eexists _, [_; _], _;
             (split; [reflexivity|]); (split; [done|]);
             apply run_stamp_failed
        | by eexists _, [_], _;
             (split; [reflexivity|]); (split; [done|]);
             apply run_write_failed ].
  - eexists _, [], _. split; [reflexivity|]. split; [done|].
    by apply run_skipped.
Qed.

Lemma block_run_frame a timestamp s res new s' :
  block_run a timestamp s res new s' →
  s' = s ∨ s' = put_last_generated a timestamp s.
Proof. destruct 1; auto. Qed.

Lemma block_run_complete a timestamp s res new s' b :
  block_run a timestamp s res new s' →
  is_complete b s' = is_complete b s.
Proof.
  intros [-> | ->]%block_run_frame; [done|]. by destruct b.
Qed.

Lemma block_run_other_stamp a timestamp s res new s' b :
  block_run a timestamp s res new s' → b ≠ a →
  last_generated s' b = last_generated s b.
Proof.
  intros [-> | ->]%block_run_frame Hb; [done|]. simpl. by case_decide.
Qed.

(** The calls of a block are its assistant's write call and its
    assistant's [async_set_last_generated]. *)
Lemma block_run_calls a timestamp s res new s' c o :
  block_run a timestamp s res new s' → (c, o) ∈ new →
  c = write_call a ∨ c = c_set_last_generated a.
Proof.
  destruct 1; intros Hin; repeat
    (apply elem_of_cons in Hin as [[= -> ->] | Hin]; [tauto|]);
    by apply elem_of_nil in Hin.
Qed.

Lemma write_call_inj a b : write_call a = write_call b → a = b.
Proof. by destruct a, b. Qed.

Lemma write_call_not_stamp a b : write_call a ≠ c_set_last_generated b.
Proof. by destruct a. Qed.

(** A whole run of the handler: three blocks in sequence, then
    [connection.send_result]. *)
Lemma write_files_run timestamp w :
  ∃ g al h ng na nh s1 s2 w',
    websocket_write_files timestamp w = (send_result (result_json g al h), w')
    ∧ trace w' = nh ++ na ++ ng ++ trace w
    ∧ block_run ASSISTANT_GOOGLE timestamp (store w) g ng s1
    ∧ block_run ASSISTANT_ALEXA timestamp s1 al na s2
    ∧ block_run ASSISTANT_HOMEKIT timestamp s2 h nh (store w').
Proof.
  unfold websocket_write_files, handle, write_files_body.
  change (write_block is_google_complete c_write_google_yaml ASSISTANT_GOOGLE
            timestamp "Google Assistant settings incomplete or disabled")
    with (write_block (is_complete ASSISTANT_GOOGLE)
            (write_call ASSISTANT_GOOGLE) ASSISTANT_GOOGLE timestamp
            (incomplete_message ASSISTANT_GOOGLE)).
  change (write_block is_alexa_complete c_write_alexa_yaml ASSISTANT_ALEXA
            timestamp "Alexa settings incomplete or disabled")
    with (write_block (is_complete ASSISTANT_ALEXA)
            (write_call ASSISTANT_ALEXA) ASSISTANT_ALEXA timestamp
            (incomplete_message ASSISTANT_ALEXA)).
  change (write_block is_homekit_complete c_sync_homekit ASSISTANT_HOMEKIT
            timestamp "No HomeKit bridge configured")
    with (write_block (is_complete ASSISTANT_HOMEKIT)
            (write_call ASSISTANT_HOMEKIT) ASSISTANT_HOMEKIT timestamp
            (incomplete_message ASSISTANT_HOMEKIT)).
  destruct (write_block_run ASSISTANT_GOOGLE timestamp w)
    as (g & ng & w1 & E1 & T1 & R1).
  destruct (write_block_run ASSISTANT_ALEXA timestamp w1)
    as (al & na & w2 & E2 & T2 & R2).
  destruct (write_block_run ASSISTANT_HOMEKIT timestamp w2)
    as (h & nh & w3 & E3 & T3 & R3).
  exists g, al, h, ng, na, nh, (store w1), (store w2), w3.
  unfold bind, ret. rewrite E1, E2, E3. simpl.
  split; [done|]. split; [by rewrite T3, T2, T1|]. done.
Qed.

(** What a run says about one assistant [a]: its entry of [result], the
    calls made for it, and its timestamp afterwards. *)
Lemma write_files_per_assistant timestamp w a :
  ∃ g al h new w',
    websocket_write_files timestamp w = (send_result (result_json g al h), w')
    ∧ trace w' = new ++ trace w
    ∧ ∃ res mine s s',
        entry_of a g al h = res
        ∧ block_run a timestamp s res mine s'
        ∧ is_complete a s = is_complete a (store w)
        ∧ last_generated s a = last_generated (store w) a
        ∧ last_generated (store w') a = last_generated s' a
        ∧ (∀ c o, (c, o) ∈ mine → (c, o) ∈ new)
        ∧ (∀ c o, (c, o) ∈ new →
             c = write_call a ∨ c = c_set_last_generated a → (c, o) ∈ mine).
Proof.
  destruct (write_files_run timestamp w)
    as (g & al & h & ng & na & nh & s1 & s2 & w' & E & T & R1 & R2 & R3).
  exists g, al, h, (nh ++ na ++ ng), w'.
  split; [done|]. split; [by rewrite T, <- !app_assoc|].
  assert (∀ b x tsx sx rx nx sx' c o,
            block_run x tsx sx rx nx sx' → (c, o) ∈ nx →
            c = write_call b ∨ c = c_set_last_generated b → x = b) as Hown.
  { intros b x tsx sx rx nx sx' c o Hr Hin Hc.
    destruct (block_run_calls _ _ _ _ _ _ _ _ Hr Hin) as [-> | ->],
      Hc as [Hc | Hc]; try (by apply write_call_inj);
      try (by destruct x, b); by simplify_eq. }
  destruct a.
  - exists g, ng, (store w), s1. repeat split; try done.
    + rewrite (block_run_other_stamp _ _ _ _ _ _ ASSISTANT_GOOGLE R3) by done.
      by rewrite (block_run_other_stamp _ _ _ _ _ _ ASSISTANT_GOOGLE R2).
    + intros c o ?. rewrite !elem_of_app. auto.
    + intros c o Hin Hc. rewrite !elem_of_app in Hin.
      destruct Hin as [Hin | [Hin | Hin]]; [| |done].
      * by pose proof (Hown _ _ _ _ _ _ _ _ _ R3 Hin Hc).
      * by pose proof (Hown _ _ _ _ _ _ _ _ _ R2 Hin Hc).
  - exists al, na, s1, s2. repeat split; try done.
    + by rewrite (block_run_complete _ _ _ _ _ _ ASSISTANT_ALEXA R1).
    + by rewrite (block_run_other_stamp _ _ _ _ _ _ ASSISTANT_ALEXA R1).
    + by rewrite (block_run_other_stamp _ _ _ _ _ _ ASSISTANT_ALEXA R3).
    + intros c o ?. rewrite !elem_of_app. auto.
    + intros c o Hin Hc. rewrite !elem_of_app in Hin.
      destruct Hin as [Hin | [Hin | Hin]]; [|done|].
      * by pose proof (Hown _ _ _ _ _ _ _ _ _ R3 Hin Hc).
      * by pose proof (Hown _ _ _ _ _ _ _ _ _ R1 Hin Hc).
  - exists h, nh, s2, (store w'). repeat split; try done.
    + rewrite (block_run_complete _ _ _ _ _ _ ASSISTANT_HOMEKIT R2).
      by rewrite (block_run_complete _ _ _ _ _ _ ASSISTANT_HOMEKIT R1).
    + rewrite (block_run_other_stamp _ _ _ _ _ _ ASSISTANT_HOMEKIT R2) by done.
      by rewrite (block_run_other_stamp _ _ _ _ _ _ ASSISTANT_HOMEKIT R1).
    + intros c o ?. rewrite !elem_of_app. auto.
    + intros c o Hin Hc. rewrite !elem_of_app in Hin.
      destruct Hin as [Hin | [Hin | Hin]]; [done| |].
      * by pose proof (Hown _ _ _ _ _ _ _ _ _ R2 Hin Hc).
      * by pose proof (Hown _ _ _ _ _ _ _ _ _ R1 Hin Hc).
Qed.

Lemma result_json_inj g al h g' al' h' :
  result_json g al h = result_json g' al' h' →
  written g = written g' ∧ written al = written al' ∧ written h = written h'
  ∧ error g = error g' ∧ error al = error al' ∧ error h = error h'.
Proof.
  destruct g as [? [?|]], al as [? [?|]], h as [? [?|]],
    g' as [? [?|]], al' as [? [?|]], h' as [? [?|]];
    unfold result_json, json_of_result; simpl; intros [=]; by subst.
Qed.

Lemma write_files_at timestamp w g al h new w' a :
  websocket_write_files timestamp w = (send_result (result_json g al h), w') →
  trace w' = new ++ trace w →
  ∃ mine s s',
    block_run a timestamp s (entry_of a g al h) mine s'
    ∧ is_complete a s = is_complete a (store w)
    ∧ last_generated s a = last_generated (store w) a
    ∧ last_generated (store w') a = last_generated s' a
    ∧ (∀ c o, (c, o) ∈ mine → (c, o) ∈ new)
    ∧ (∀ c o, (c, o) ∈ new →
         c = write_call a ∨ c = c_set_last_generated a → (c, o) ∈ mine).
Proof.
  intros E T.
  destruct (write_files_per_assistant timestamp w a)
    as (g0 & al0 & h0 & new0 & w0 & E0 & T0 & res & mine & s & s'
        & <- & R & Hrest).
  rewrite E in E0.
  assert (w' = w0) as <- by congruence.
  pose proof (f_equal (λ x, match x.1 with
                            | send_result payload => payload
                            | send_error _ _ => JNull
                            end) E0) as EJ; simpl in EJ.
  rewrite T in T0. apply app_inv_tail in T0 as <-.
  apply result_json_inj in EJ as (? & ? & ? & ? & ? & ?).
  assert (entry_of a g al h = entry_of a g0 al0 h0) as ->.
  { destruct g, al, h, g0, al0, h0, a; simpl in *; congruence. }
  by exists mine, s, s'.
Qed.

(** C2: every invocation of [write_files] answers with a result holding
    one [{written, error}] record per assistant; an assistant whose
    completeness predicate holds has its write attempted whatever happened
    to the others, and an exception raised by its write (or by recording
    its timestamp) ends up in its own [error] field. *)
Theorem write_files_isolates_failures timestamp w :
  ∃ g al h new w',
    websocket_write_files timestamp w =
      (send_result
         (JObj [("google",
                 JObj [("written", JBool (written g));
                       ("error",
                        if error g is Some m then JStr m else JNull)]);
                ("alexa",
                 JObj [("written", JBool (written al));
                       ("error",
                        if error al is Some m then JStr m else JNull)]);
                ("homekit",
                 JObj [("written", JBool (written h));
                       ("error",
                        if error h is Some m then JStr m else JNull)])]),
       w')
    ∧ trace w' = new ++ trace w
    ∧ ∀ a,
        (is_complete a (store w) = true → ∃ o, (write_call a, o) ∈ new)
        ∧ (∀ e, ((write_call a, Some e) ∈ new
                 ∨ (c_set_last_generated a, Some e) ∈ new) →
                entry_of a g al h =
                  {| written := false; error := Some (str e) |}).
Proof.
  destruct (write_files_run timestamp w)
    as (g & al & h & ng & na & nh & s1 & s2 & w' & E & T & _).
  exists g, al, h, (nh ++ na ++ ng), w'.
  rewrite <- !app_assoc. split; [exact E|]. split; [done|].
  intros a.
  destruct (write_files_at timestamp w g al h (nh ++ na ++ ng) w' a E)
    as (mine & s & s' & R & Hc & _ & _ & Hsub & Hown);
    [by rewrite <- !app_assoc|].
  split.
  - intros Hcomplete. rewrite <- Hc in Hcomplete.
    destruct R; [congruence| | |]; eexists; apply Hsub;
      apply list_elem_of_here || (apply list_elem_of_further, list_elem_of_here).
  - intros e He.
    assert ((write_call a, Some e) ∈ mine
            ∨ (c_set_last_generated a, Some e) ∈ mine) as Hm.
    { destruct He as [He | He]; [left | right]; apply Hown; auto. }
    destruct R; destruct Hm as [Hm | Hm];
      repeat (apply elem_of_cons in Hm as [Hm | Hm];
              [by (simplify_eq || (injection Hm as Hm _;
                                   by apply write_call_not_stamp in Hm)
                   || (injection Hm as Hm _; symmetry in Hm;
                       by apply write_call_not_stamp in Hm))|]);
      by apply elem_of_nil in Hm.
Qed.

(** C3: in [write_files] an assistant is reported written only when its
    completeness predicate holds and its write was made and returned; when
    the predicate is false no write or sync and no timestamp update is
    attempted for it, and its record is [written = false] with the
    explanatory message. *)
Theorem write_files_gated_by_completeness timestamp w :
  ∃ g al h new w',
    websocket_write_files timestamp w =
      (send_result
         (JObj [("google",
                 JObj [("written", JBool (written g));
                       ("error",
                        if error g is Some m then JStr m else JNull)]);
                ("alexa",
                 JObj [("written", JBool (written al));
                       ("error",
                        if error al is Some m then JStr m else JNull)]);
                ("homekit",
                 JObj [("written", JBool (written h));
                       ("error",
                        if error h is Some m then JStr m else JNull)])]),
       w')
    ∧ trace w' = new ++ trace w
    ∧ ∀ a,
        (written (entry_of a g al h) = true →
           is_complete a (store w) = true ∧ (write_call a, None) ∈ new)
        ∧ (is_complete a (store w) = false →
             entry_of a g al h =
               {| written := false; error := Some (incomplete_message a) |}
             ∧ ∀ o, ((write_call a, o) ∉ new)
                    ∧ ((c_set_last_generated a, o) ∉ new)).
Proof.
  destruct (write_files_run timestamp w)
    as (g & al & h & ng & na & nh & s1 & s2 & w' & E & T & _).
  exists g, al, h, (nh ++ na ++ ng), w'.
  rewrite <- !app_assoc. split; [exact E|]. split; [done|].
  intros a.
  destruct (write_files_at timestamp w g al h (nh ++ na ++ ng) w' a E)
    as (mine & s & s' & R & Hc & _ & _ & Hsub & Hown);
    [by rewrite <- !app_assoc|].
  rewrite <- Hc. split.
  - intros Hw. destruct R; simpl in Hw; try done.
    split; [done|]. apply Hsub, list_elem_of_further, list_elem_of_here.
  - intros Hn. destruct R; try congruence.
    split; [done|]. intros o; split; intros Hin;
      apply Hown in Hin; auto; by apply elem_of_nil in Hin.
Qed.

(** C10: in [write_files] the [last_generated] value of an assistant
    changes only when its write or sync was made and returned; with a
    failed or skipped write it is the stored value, and every assistant
    reported written holds the one timestamp taken at the start. *)
Theorem write_files_last_generated timestamp w :
  ∃ g al h new w',
    websocket_write_files timestamp w = (send_result (result_json g al h), w')
    ∧ trace w' = new ++ trace w
    ∧ ∀ a,
        ((write_call a, None) ∉ new →
           last_generated (store w') a = last_generated (store w) a)
        ∧ (written (entry_of a g al h) = false →
             last_generated (store w') a = last_generated (store w) a)
        ∧ (written (entry_of a g al h) = true →
             (write_call a, None) ∈ new
             ∧ last_generated (store w') a = Some timestamp).
Proof.
  destruct (write_files_run timestamp w)
    as (g & al & h & ng & na & nh & s1 & s2 & w' & E & T & _).
  exists g, al, h, (nh ++ na ++ ng), w'.
  rewrite <- !app_assoc. split; [done|]. split; [done|].
  intros a.
  destruct (write_files_at timestamp w g al h (nh ++ na ++ ng) w' a E)
    as (mine & s & s' & R & _ & Hs & Hs' & Hsub & Hown);
    [by rewrite <- !app_assoc|].
  rewrite Hs', <- Hs. repeat split.
  - intros Hno. destruct R; try done.
    destruct Hno. apply Hsub, list_elem_of_further, list_elem_of_here.
  - intros Hw. by destruct R.
  - destruct R; simpl in *; try done.
    apply Hsub, list_elem_of_further, list_elem_of_here.
  - destruct R; simpl in *; try done. by case_decide.
Qed.

End WriteFiles.

(** ** toggle_override *)

Section ToggleOverride.
Context {V : Validators}.

Lemma toggled_overrides entity_id c x :
  x ∈ get_list (d_overrides (toggled entity_id c)) ↔
  if bool_decide (entity_id ∈ get_list (d_overrides c))
  then x ∈ get_list (d_overrides c) ∧ x ≠ entity_id
  else x ∈ get_list (d_overrides c) ∨ x = entity_id.
Proof.
  unfold toggled; simpl. case_bool_decide.
  - rewrite list_elem_of_filter. tauto.
  - rewrite elem_of_app, list_elem_of_singleton. tauto.
Qed.

Lemma toggled_twice_overrides entity_id c x :
  x ∈ get_list (d_overrides (toggled entity_id (toggled entity_id c))) ↔
  x ∈ get_list (d_overrides c).
Proof.
  destruct (decide (entity_id ∈ get_list (d_overrides c))) as [Hin | Hnin].
  - assert (∀ y, y ∈ get_list (d_overrides (toggled entity_id c)) ↔
                 y ∈ get_list (d_overrides c) ∧ y ≠ entity_id) as H1.
    { intros y. by rewrite toggled_overrides, bool_decide_true. }
    assert (entity_id ∉ get_list (d_overrides (toggled entity_id c))) as Hout.
    { rewrite H1. tauto. }
    rewrite toggled_overrides, bool_decide_false, H1 by done.
    destruct (decide (x = entity_id)) as [-> | ?]; tauto.
  - assert (∀ y, y ∈ get_list (d_overrides (toggled entity_id c)) ↔
                 y ∈ get_list (d_overrides c) ∨ y = entity_id) as H1.
    { intros y. by rewrite toggled_overrides, bool_decide_false. }
    assert (entity_id ∈ get_list (d_overrides (toggled entity_id c))) as Hnow.
    { rewrite H1. tauto. }
    rewrite toggled_overrides, bool_decide_true, H1 by done.
    split; [intros [[? | ?] ?]; tauto|].
    intros Hx. split; [tauto|]. by intros ->.
Qed.

Lemma exposed_ext E c c' :
  d_filter_mode c' = d_filter_mode c → d_domains c' = d_domains c →
  d_entities c' = d_entities c → d_devices c' = d_devices c →
  (∀ x, x ∈ get_list (d_overrides c') ↔ x ∈ get_list (d_overrides c)) →
  exposed E c' = exposed E c.
Proof.
  intros Hm Hd He Hv Ho. unfold exposed. rewrite Hm, Hd, He, Hv.
  by rewrite (bool_decide_ext _ _ (Ho (entity_id E))).
Qed.

Lemma view_ext c c' :
  d_filter_mode c' = d_filter_mode c → d_domains c' = d_domains c →
  d_entities c' = d_entities c → d_devices c' = d_devices c →
  (∀ x, x ∈ get_list (d_overrides c') ↔ x ∈ get_list (d_overrides c)) →
  view c' = view c.
Proof.
  intros Hm Hd He Hv Ho. unfold view. rewrite Hm, Hd, He, Hv. f_equal.
  apply set_eq. intros x. unfold py_set. by rewrite !elem_of_list_to_set.
Qed.

(** One toggle, with the validators' results and the call persisted. *)
Lemma toggle_override_once msg w entity_id a n :
  validate_entity_id (to_entity_id msg) = inr entity_id →
  validate_assistant (to_assistant msg) = inr a →
  calls_return (S n) w →
  ∃ w',
    websocket_toggle_override msg w =
      (send_result
         (JObj [("success", JBool true); ("entity_id", JStr entity_id);
                ("added",
                 JBool (negb (bool_decide
                    (entity_id ∈ get_list
                       (d_overrides (get_filter_config a (store w)))))))]),
       w')
    ∧ store w' =
        put_filter_config a
          (toggled entity_id (get_filter_config a (store w))) (store w)
    ∧ calls_return n w'.
Proof.
  intros He Ha Hio.
  unfold websocket_toggle_override, handle, toggle_override_body,
    async_toggle_override, bind, validated, get_world, ret.
  rewrite He; simpl. rewrite Ha; simpl.
  destruct (external_returns (c_toggle_override a)
              (λ s, put_filter_config a
                      (toggled entity_id (get_filter_config a s)) s)
              w n Hio) as (w' & -> & Hs & _ & _ & _ & _ & Hn).
  by exists w'.
Qed.

(** C4: [toggle_override] answers [added = true] and leaves the id in
    [overrides] when it was absent, answers [added = false] and leaves it
    out when it was present; after two consecutive toggles of the same id
    the targeted FilterConfig is the original one (its overrides hold the
    same ids, every other field is untouched), every other part of the
    document is untouched, and every entity has its original exposure. *)
Theorem toggle_override_involution msg w entity_id a :
  validate_entity_id (to_entity_id msg) = inr entity_id →
  validate_assistant (to_assistant msg) = inr a →
  calls_return 2 w →
  let c := get_filter_config a (store w) in
  let present := bool_decide (entity_id ∈ get_list (d_overrides c)) in
  let (r1, w1) := websocket_toggle_override msg w in
  let (r2, w2) := websocket_toggle_override msg w1 in
  let c1 := get_filter_config a (store w1) in
  let c2 := get_filter_config a (store w2) in
  r1 = send_result
         (JObj [("success", JBool true); ("entity_id", JStr entity_id);
                ("added", JBool (negb present))])
  ∧ r2 = send_result
           (JObj [("success", JBool true); ("entity_id", JStr entity_id);
                  ("added", JBool present)])
  ∧ (entity_id ∈ get_list (d_overrides c1) ↔
       entity_id ∉ get_list (d_overrides c))
  ∧ view c2 = view c
  ∧ (∀ E, exposed E c2 = exposed E c)
  ∧ ∃ l, store w2 = put_filter_config a (set_overrides c l) (store w)
         ∧ ∀ x, x ∈ l ↔ x ∈ get_list (d_overrides c).
Proof.
  intros He Ha Hio c present.
  destruct (toggle_override_once msg w entity_id a 1 He Ha Hio)
    as (w1 & -> & Hs1 & Hio1).
  destruct (toggle_override_once msg w1 entity_id a 0 He Ha Hio1)
    as (w2 & -> & Hs2 & _).
  rewrite Hs2, Hs1, !get_put_filter_config. fold c.
  assert (bool_decide (entity_id ∈ get_list (d_overrides (toggled entity_id c)))
          = negb present) as Hflip.
  { subst present. pose proof (toggled_overrides entity_id c entity_id) as Hid.
    destruct (bool_decide (entity_id ∈ get_list (d_overrides c))) eqn:Hp;
      simpl.
    - apply bool_decide_eq_false. rewrite Hid. tauto.
    - apply bool_decide_eq_true. rewrite Hid. tauto. }
  split; [done|]. split; [by rewrite Hflip, negb_involutive|].
  split.
  { rewrite (toggled_overrides entity_id c entity_id).
    destruct (decide (entity_id ∈ get_list (d_overrides c)));
      [rewrite bool_decide_true by done | rewrite bool_decide_false by done].
    - split; [by intros [_ ?] | done].
    - split; [done | auto]. }
  split; [by apply view_ext, toggled_twice_overrides|].
  split; [by intros E; apply exposed_ext, toggled_twice_overrides|].
  exists (get_list (d_overrides (toggled entity_id (toggled entity_id c)))).
  split; [|apply toggled_twice_overrides].
  by destruct a as [[]|].
Qed.

End ToggleOverride.

(** ** bulk_update *)

Section BulkUpdate.
Context {V : Validators}.

Lemma occurrences_absent x l : x ∉ l → occurrences x l = 0.
Proof.
  unfold occurrences. induction l as [|y l IH]; [done|].
  rewrite not_elem_of_cons, filter_cons. intros [Hxy Hx].
  case_decide; [by subst | auto].
Qed.

Lemma occurrences_NoDup x l : NoDup l → x ∈ l → occurrences x l = 1.
Proof.
  induction 1 as [|y l Hy Hl IH]; intros Hx.
  - by apply elem_of_nil in Hx.
  - unfold occurrences in *. rewrite filter_cons. case_decide as Hxy.
    + subst y. simpl. f_equal. by apply occurrences_absent.
    + apply elem_of_cons in Hx as [-> | Hx]; [done | auto].
Qed.

(** The handler in the [exclude] branch: one [async_set_filter_config] with
    the entities replaced by the list of the united set. *)
Lemma bulk_exclude_stores msg w entity_ids value a :
  bu_action msg = exclude →
  validate_entity_ids (bu_entity_ids msg) = inr entity_ids →
  validate_alias (default EmptyString (bu_value msg)) = inr value →
  validate_assistant (bu_assistant msg) = inr a →
  calls_return 1 w →
  let c := get_filter_config a (store w) in
  ∃ w',
    websocket_bulk_update msg w = (send_result success, w')
    ∧ store w' =
        put_filter_config a
          (set_entities c
             (py_list (py_set (get_list (d_entities c)) ∪ py_set entity_ids)))
          (store w).
Proof.
  intros Hact Hids Hval Ha Hio c.
  unfold websocket_bulk_update, handle, bulk_update_body, bind, validated,
    get_world, ret, async_set_filter_config.
  rewrite Hids; simpl. rewrite Hval; simpl. rewrite Ha; simpl.
  rewrite Hact. subst c. cbv beta iota zeta.
  persist w 0 Hio. done.
Qed.

(** C5: [bulk_update] with action [exclude] leaves [entities] holding each
    id of the request exactly once, whether or not it was there before and
    however often the request names it, keeps every id that was there, and
    leaves [filter_mode], [domains], [devices] and [overrides] as they
    were.  (The ids are those the validator returns; the filter mode plays
    no part.) *)
Theorem bulk_exclude_set_semantics msg w entity_ids value a :
  bu_action msg = exclude →
  validate_entity_ids (bu_entity_ids msg) = inr entity_ids →
  validate_alias (default EmptyString (bu_value msg)) = inr value →
  validate_assistant (bu_assistant msg) = inr a →
  calls_return 1 w →
  let c := get_filter_config a (store w) in
  let c' := get_filter_config a (store (websocket_bulk_update msg w).2) in
  (websocket_bulk_update msg w).1 = send_result success
  ∧ (∀ x, x ∈ entity_ids → occurrences x (get_list (d_entities c')) = 1)
  ∧ (∀ x, x ∈ get_list (d_entities c') ↔
          x ∈ get_list (d_entities c) ∨ x ∈ entity_ids)
  ∧ NoDup (get_list (d_entities c'))
  ∧ d_filter_mode c' = d_filter_mode c
  ∧ d_domains c' = d_domains c
  ∧ d_devices c' = d_devices c
  ∧ d_overrides c' = d_overrides c.
Proof.
  intros Hact Hids Hval Ha Hio c c'.
  destruct (bulk_exclude_stores msg w entity_ids value a Hact Hids Hval Ha Hio)
    as (w' & E & Hs).
  subst c'. rewrite E. simpl. rewrite Hs, get_put_filter_config. simpl.
  fold c.
  assert (∀ x, x ∈ py_list (py_set (get_list (d_entities c))
                              ∪ py_set entity_ids) ↔
               x ∈ get_list (d_entities c) ∨ x ∈ entity_ids) as Hmem.
  { intros x. unfold py_list, py_set.
    by rewrite elem_of_elements, elem_of_union, !elem_of_list_to_set. }
  assert (NoDup (py_list (py_set (get_list (d_entities c))
                            ∪ py_set entity_ids))) as Hnd
    by apply NoDup_elements.
  repeat split; try done.
  - intros x Hx. apply occurrences_NoDup; [done|]. apply Hmem. auto.
  - apply Hmem.
  - apply Hmem.
Qed.

(** *** The alias actions *)

Lemma truthy_true o :
  truthy o = true →
  ∃ n, o = Some n ∧ n ≠ EmptyString ∧ String.eqb n EmptyString = false.
Proof.
  destruct o as [n|]; simpl; [|done]. intros Hn%negb_true_iff.
  exists n. repeat split; [|done]. by apply String.eqb_neq.
Qed.

Lemma py_or_str_falsy o b : truthy o = false → py_or_str o b = b.
Proof.
  destruct o as [n|]; simpl; [|done]. intros Hn%negb_false_iff.
  by rewrite Hn.
Qed.

Lemma display_name_resolves w entity_id entity :
  resolves
    (match states w !! entity_id with
     | Some state => s_friendly_name state
     | None => None
     end)
    (e_name entity) (e_original_name entity) entity_id
    (display_name w entity_id entity).
Proof.
  unfold display_name.
  set (friendly := match states w !! entity_id with
                   | Some state => s_friendly_name state
                   | None => None
                   end).
  destruct (truthy friendly) eqn:Tf.
  { destruct (truthy_true _ Tf) as (n & Hn & Hne & Hb).
    unfold py_or. rewrite Tf, Tf, Hn. simpl. rewrite Hb.
    by apply by_friendly_name. }
  unfold py_or at 2. rewrite Tf.
  destruct (truthy (e_name entity)) eqn:Tn.
  { destruct (truthy_true _ Tn) as (n & Hn & Hne & Hb).
    unfold py_or. rewrite Tn, Hn. simpl. rewrite Hb.
    by apply by_name. }
  unfold py_or. rewrite Tn.
  destruct (truthy (e_original_name entity)) eqn:To.
  { destruct (truthy_true _ To) as (n & Hn & Hne & Hb).
    rewrite Hn. simpl. rewrite Hb. by apply by_original_name. }
  rewrite py_or_str_falsy by done. by apply by_entity_id.
Qed.

Lemma alias_loop_lookup w fmt entity_ids k (acc : gmap string string) :
  foldl (λ new_aliases entity_id,
           match ent_reg w !! entity_id with
           | Some entity =>
               <[entity_id := fmt (display_name w entity_id entity)]>
                 new_aliases
           | None => new_aliases
           end) acc entity_ids !! k =
  match ent_reg w !! k with
  | Some entity =>
      if bool_decide (k ∈ entity_ids)
      then Some (fmt (display_name w k entity)) else acc !! k
  | None => acc !! k
  end.
Proof.
  revert acc. induction entity_ids as [|x l IH]; intros acc; simpl.
  - by destruct (ent_reg w !! k).
  - rewrite IH. destruct (ent_reg w !! k) as [entity|] eqn:Hk.
    + destruct (decide (k = x)) as [-> | Hkx].
      * rewrite Hk, lookup_insert_eq.
        rewrite (bool_decide_true (x ∈ x :: l)) by apply list_elem_of_here.
        by case_bool_decide.
      * rewrite (bool_decide_ext (k ∈ x :: l) (k ∈ l))
          by (rewrite elem_of_cons; tauto).
        case_bool_decide; [done|].
        destruct (ent_reg w !! x); [by rewrite lookup_insert_ne | done].
    + destruct (ent_reg w !! x) eqn:Hx; [|done].
      rewrite lookup_insert_ne; [done|]. intros ->. congruence.
Qed.

Lemma get_put_aliases a m s : get_aliases a (put_aliases a m s) = m.
Proof. by destruct a as [[]|]. Qed.

(** C7: [bulk_update] with action [set_alias_prefix] gives every requested
    entity that the registry knows the alias [value + display_name], the
    display name being the state's friendly name, else the entry's name,
    else its original name, else the entity id; an id the registry does not
    know is skipped without error and no alias is written for it.  (The
    ids and the value are those the validators return.) *)
Theorem bulk_alias_prefix msg w entity_ids value a :
  bu_action msg = set_alias_prefix →
  validate_entity_ids (bu_entity_ids msg) = inr entity_ids →
  validate_alias (default EmptyString (bu_value msg)) = inr value →
  validate_assistant (bu_assistant msg) = inr a →
  calls_return 1 w →
  let new_aliases := alias_loop w (λ name, value +:+ name) entity_ids in
  let after := get_aliases a (store (websocket_bulk_update msg w).2) in
  (websocket_bulk_update msg w).1 = send_result success
  ∧ (∀ e1 entity,
       e1 ∈ entity_ids → ent_reg w !! e1 = Some entity →
       new_aliases !! e1 = Some (value +:+ display_name w e1 entity)
       ∧ after !! e1 = Some (value +:+ display_name w e1 entity)
       ∧ resolves
           (match states w !! e1 with
            | Some state => s_friendly_name state
            | None => None
            end)
           (e_name entity) (e_original_name entity) e1
           (display_name w e1 entity))
  ∧ (∀ e1, ent_reg w !! e1 = None →
       new_aliases !! e1 = None
       ∧ after !! e1 = get_aliases a (store w) !! e1).
Proof.
  intros Hact Hids Hval Ha Hio new_aliases after.
  assert (∃ w', websocket_bulk_update msg w = (send_result success, w')
                ∧ store w' =
                    put_aliases a (new_aliases ∪ get_aliases a (store w))
                      (store w)) as (w' & E & Hs).
  { unfold websocket_bulk_update, handle, bulk_update_body, bind, validated,
      get_world, ret, async_set_aliases_bulk.
    rewrite Hids; simpl. rewrite Hval; simpl. rewrite Ha; simpl.
    rewrite Hact. cbv beta iota zeta. fold new_aliases.
    destruct (external_returns (c_set_aliases_bulk a)
      (λ s, put_aliases a (new_aliases ∪ get_aliases a s) s)
      w 0 Hio) as (w' & -> & Hs & _).
    by exists w'. }
  subst after. rewrite E. simpl. rewrite Hs, get_put_aliases.
  split; [done|]. split.
  - intros e1 entity Hin Hreg.
    assert (new_aliases !! e1 = Some (value +:+ display_name w e1 entity))
      as Hnew.
    { unfold new_aliases, alias_loop. rewrite alias_loop_lookup, Hreg.
      by rewrite bool_decide_true. }
    split; [done|]. split; [|apply display_name_resolves].
    by apply lookup_union_Some_l.
  - intros e1 Hreg.
    assert (new_aliases !! e1 = None) as Hnew.
    { unfold new_aliases, alias_loop.
      by rewrite alias_loop_lookup, Hreg, lookup_empty. }
    split; [done|]. by apply lookup_union_r.
Qed.

Lemma strings_of_conforms l :
  forallb (conforms vol_str) l = true →
  ∃ ids, strings_of l = Some ids ∧ length ids = length l
         ∧ l = JStr <$> ids.
Proof.
  induction l as [|v l IH]; simpl; [by exists []|].
  intros [Hv Hl]%andb_true_iff. destruct v; try done.
  destruct (IH Hl) as (ids & -> & Hlen & ->). simpl.
  eexists (_ :: ids). repeat split; simpl; by f_equal.
Qed.

Lemma action_of_conforms x :
  x ∈ ["exclude"; "unexclude"; "set_alias_prefix"; "set_alias_suffix";
       "clear_alias"; "exclude_domain"; "exclude_device"; "add_override";
       "remove_override"] →
  is_Some (action_of x).
Proof.
  intros Hx.
  repeat (apply elem_of_cons in Hx as [-> | Hx]; [by eexists|]).
  by apply elem_of_nil in Hx.
Qed.

Lemma assistant_of_conforms x :
  x ∈ ["google"; "alexa"; "homekit"] → is_Some (assistant_of x).
Proof.
  intros Hx.
  repeat (apply elem_of_cons in Hx as [-> | Hx]; [by eexists|]).
  by apply elem_of_nil in Hx.
Qed.

(** C8: the schema of [bulk_update] bounds the number of entity ids by
    [MAX_BULK_ENTITIES] = 500.  A message whose [entity_ids] is a list of
    more than 500 values fails the schema, whatever its other keys hold,
    so the command answers with an error, the handler does not run, and
    the world (the stored configuration with it) is unchanged.  A message
    that passes the schema reaches the handler with the ids of the
    message, which are at most 500. *)
Theorem bulk_update_bounded msg w :
  MAX_BULK_ENTITIES = 500
  ∧ (∀ l, msg !! "entity_ids" = Some (JList l) →
          (length l > MAX_BULK_ENTITIES)%nat →
          dict_conforms BULK_UPDATE_SCHEMA msg = false
          ∧ ∃ code message,
              command_bulk_update msg w = (send_error code message, w))
  ∧ (dict_conforms BULK_UPDATE_SCHEMA msg = true →
       ∃ m, read_bulk_update msg = Some m
            ∧ msg !! "entity_ids" = Some (JList (JStr <$> bu_entity_ids m))
            ∧ (length (bu_entity_ids m) ≤ MAX_BULK_ENTITIES)%nat
            ∧ command_bulk_update msg w = websocket_bulk_update m w).
Proof.
  split; [done|]. split.
  - intros l Hl Hlen.
    assert (dict_conforms BULK_UPDATE_SCHEMA msg = false) as Hno.
    { unfold dict_conforms, BULK_UPDATE_SCHEMA.
      apply andb_false_iff. left.
      cbn [forallb sk_name sk_schema sk_marker]. rewrite Hl.
      cbn [conforms]. rewrite (bool_decide_false (length l ≤ _)%nat) by lia.
      by rewrite !andb_false_r. }
    split; [done|]. unfold command_bulk_update. rewrite Hno. by eexists _, _.
  - intros Hok. unfold command_bulk_update. rewrite Hok.
    unfold dict_conforms, BULK_UPDATE_SCHEMA in Hok.
    apply andb_true_iff in Hok as [Hkeys _].
    cbn [forallb sk_name sk_schema sk_marker] in Hkeys.
    repeat (apply andb_true_iff in Hkeys as [? Hkeys]).
    unfold read_bulk_update.
    destruct (msg !! "action") as [va|]; [|done].
    destruct va; try done. simpl in H0. apply bool_decide_eq_true in H0.
    destruct (action_of_conforms _ H0) as [action Haction].
    simpl. rewrite Haction.
    destruct (msg !! "entity_ids") as [vi|]; [|done].
    simpl in H1. apply andb_true_iff in H1 as [Hstr Hlen].
    destruct vi; try done.
    apply bool_decide_eq_true in Hlen.
    destruct (strings_of_conforms _ Hstr) as (ids & -> & Hl & ->).
    assert (∃ value, optional string_of (msg !! "value") = Some value)
      as [value ->].
    { destruct (msg !! "value") as [v|]; [|by eexists].
      destruct v; try done. by eexists. }
    assert (∃ assistant,
              optional read_assistant (msg !! "assistant") = Some assistant)
      as [assistant ->].
    { destruct (msg !! "assistant") as [v|]; [|by eexists].
      destruct v; try done. simpl in H3. apply bool_decide_eq_true in H3.
      destruct (assistant_of_conforms _ H3) as [a Ha]. simpl. rewrite Ha.
      by eexists. }
    eexists. split; [done|]. simpl. split; [done|]. split; [lia | done].
Qed.

End BulkUpdate.

(** ** The HomeKit bridge selection *)

Section HomeKitBridge.
Context {V : Validators}.

Lemma keeps_ret {A} (x : A) : keeps_bridge (ret x).
Proof. done. Qed.

Lemma keeps_raise {A} e : keeps_bridge (raise (A := A) e).
Proof. done. Qed.

Lemma keeps_validated {A} (r : string + A) : keeps_bridge (validated r).
Proof. by destruct r. Qed.

Lemma keeps_bind {A B} (m : M A) (k : A → M B) :
  keeps_bridge m → (∀ x, keeps_bridge (k x)) → keeps_bridge (bind m k).
Proof.
  intros Hm Hk w. unfold bind. specialize (Hm w).
  destruct (m w) as [[e|x] w1]; simpl in *; [done|].
  specialize (Hk x w1). destruct (k x w1) as [r w2]; simpl in *.
  destruct Hm as [Hb Hh], Hk as [Hb' Hh']. by rewrite Hb', Hh'.
Qed.

Lemma keeps_external c f :
  (∀ s, homekit_entry_id (f s) = homekit_entry_id s) →
  keeps_bridge (external c f).
Proof.
  intros Hf w. unfold external.
  destruct (script w) as [|[e|] r]; simpl; auto.
Qed.

Lemma keeps_if_in {A} (field : option A) f :
  (∀ x, keeps_bridge (f x)) → keeps_bridge (if_in field f).
Proof. intros Hf. destruct field; simpl; [done | apply keeps_ret]. Qed.

Lemma keeps_set_filter_config c a :
  keeps_bridge (async_set_filter_config c a).
Proof. apply keeps_external. by destruct a as [[]|]. Qed.

Lemma keeps_set_aliases_bulk m a : keeps_bridge (async_set_aliases_bulk m a).
Proof. apply keeps_external. by destruct a as [[]|]. Qed.

Lemma keeps_set_google_settings g : keeps_bridge (async_set_google_settings g).
Proof. by apply keeps_external. Qed.

Lemma keeps_set_alexa_settings al : keeps_bridge (async_set_alexa_settings al).
Proof. by apply keeps_external. Qed.

Lemma never_bind {A B} id (m : M A) (k : A → M B) :
  keeps_bridge m → (∀ x, never_selects id (k x)) →
  never_selects id (bind m k).
Proof.
  intros Hm Hk w Hid. unfold bind. specialize (Hm w).
  destruct (m w) as [[e|x] w1]; simpl in *; [by eauto|].
  destruct Hm as [Hb Hh].
  destruct (Hk x w1) as (He & Hb' & Hh'); [by rewrite Hb|].
  destruct (k x w1) as [r w2]; simpl in *.
  split; [done|]. by rewrite Hb', Hh'.
Qed.

(** The check that [save_all] and [set_homekit_bridge] share. *)
Lemma check_bridge_unknown id w :
  id ∉ bridges w →
  check_bridge (Some id) w =
    (inl (HomeKitError ("HomeKit bridge not found: " +:+ id)), w).
Proof.
  intros Hid. unfold check_bridge, bind, get_world, get_bridge_config.
  by rewrite bool_decide_false.
Qed.

Lemma check_bridge_known id w :
  id ∈ bridges w → check_bridge (Some id) w = (inr tt, w).
Proof.
  intros Hid. unfold check_bridge, bind, get_world, get_bridge_config.
  by rewrite bool_decide_true.
Qed.

(** A known id is stored, and the answer echoes it. *)
Lemma known_bridge_selected id w :
  id ∈ bridges w → calls_return 1 w →
  (websocket_set_homekit_bridge (Some id) w).1 =
    send_result (JObj [("success", JBool true); ("entry_id", JStr id)])
  ∧ homekit_entry_id (store (websocket_set_homekit_bridge (Some id) w).2)
    = Some id.
Proof.
  intros Hid Hio.
  unfold websocket_set_homekit_bridge, handle, set_homekit_bridge_body,
    async_set_homekit_entry_id.
  destruct (external_returns c_set_homekit_entry_id
              (put_homekit_entry_id (Some id)) w 0 Hio)
    as (w' & E & Hs & _).
  unfold bind, ret. rewrite !(check_bridge_known id w Hid), !E.
  cbn [fst snd]. by rewrite Hs.
Qed.

Lemma never_homekit_step {B} id (k : unit → M B) :
  never_selects id
    (bind (if_in (Some (Some id))
             (λ entry_id,
                check_bridge entry_id ;;ₘ async_set_homekit_entry_id entry_id))
          k).
Proof.
  intros w Hid. unfold bind, if_in.
  rewrite (check_bridge_unknown id w Hid). simpl. eauto.
Qed.

Lemma never_save_all msg id :
  sa_homekit_entry_id msg = Some (Some id) →
  never_selects id (save_all_body msg).
Proof.
  intros Hmsg. unfold save_all_body. rewrite Hmsg.
  repeat (apply never_bind;
          [apply keeps_if_in; intros ?;
           first [ apply keeps_set_aliases_bulk
                 | apply keeps_bind;
                   [apply keeps_validated
                   |intros ?;
                    first [ apply keeps_set_filter_config
                          | apply keeps_set_google_settings
                          | apply keeps_set_alexa_settings ]] ]
          |intros _]).
  apply never_homekit_step.
Qed.

Lemma calls_return_S n w : calls_return (S n) w → calls_return n w.
Proof.
  unfold calls_return. generalize (script w) as l. clear w. intros l.
  revert n. induction l as [|o l IH]; intros [|n]; simpl; try done.
  intros [? ?]%Forall_cons. constructor; auto.
Qed.

Lemma runs_external c f : runs (external c f).
Proof.
  intros n w Hn.
  destruct (external_returns c f w n Hn) as (w' & E & _ & _ & _ & Hb & _ & Hn').
  by exists tt, w'.
Qed.

Lemma runs_validated_then {A} (r : string + A) (k : A → M unit) :
  (∃ y, r = inr y) → (∀ y, runs (k y)) → runs (bind (validated r) k).
Proof. intros [y ->] Hk. unfold bind, validated, ret. apply Hk. Qed.

Lemma runs_if_in {A} (field : option A) (f : A → M unit) :
  (∀ x, field = Some x → runs (f x)) → runs (if_in field f).
Proof.
  intros Hf. destruct field as [x|]; simpl; [by apply Hf|].
  intros n w Hn. exists tt, w. split; [done|].
  split; [by apply calls_return_S | done].
Qed.

Lemma bind_runs (m : M unit) n w :
  runs m → calls_return (S n) w →
  ∃ w', (∀ B (k : unit → M B), bind m k w = k tt w')
        ∧ calls_return n w' ∧ bridges w' = bridges w.
Proof.
  intros Hm Hn. destruct (Hm n w Hn) as ([] & w' & E & Hn' & Hb).
  exists w'. split; [|done]. intros B k. unfold bind. by rewrite E.
Qed.

(** C6: selecting a bridge id that references no bridge fails.
    [set_homekit_bridge] answers with the HomeKit error "HomeKit bridge not
    found: <id>" and changes nothing; [save_all] with that id under
    [homekit_entry_id] never succeeds and leaves the stored selected bridge
    id as it was, and when its earlier steps go through, its answer is that
    same not-found error. *)
Theorem unknown_bridge_not_found msg id w :
  id ∉ bridges w →
  websocket_set_homekit_bridge (Some id) w =
    (send_error "homekit_error" ("HomeKit bridge not found: " +:+ id), w)
  ∧ (sa_homekit_entry_id msg = Some (Some id) →
       (∃ code message,
          (websocket_save_all msg w).1 = send_error code message)
       ∧ homekit_entry_id (store (websocket_save_all msg w).2)
         = homekit_entry_id (store w)
       ∧ (earlier_steps_accepted msg → calls_return 9 w →
            (websocket_save_all msg w).1 =
              send_error "homekit_error"
                ("HomeKit bridge not found: " +:+ id))).
Proof.
  intros Hid. split.
  { unfold websocket_set_homekit_bridge, handle, set_homekit_bridge_body, bind.
    by rewrite (check_bridge_unknown id w Hid). }
  intros Hmsg.
  destruct (never_save_all msg id Hmsg w Hid) as ([e He] & _ & Hh).
  unfold websocket_save_all, handle.
  destruct (save_all_body msg w) as [r w'] eqn:E; simpl in *. subst r.
  split; [by eauto|]. split; [done|].
  intros (H1 & H2 & H3 & H4 & H5 & H6) Hio.
  revert E. unfold save_all_body. rewrite Hmsg.
  assert (∀ a (field : option FilterDict),
            accepts validate_filter_config field →
            runs (if_in field (λ c,
                    validated_config ←ₘ validated (validate_filter_config c) ;;
                    async_set_filter_config validated_config a))) as Hcfg.
  { intros a field Hacc. apply runs_if_in. intros x ->.
    apply runs_validated_then; [done|]. intros y. apply runs_external. }
  assert (∀ a (field : option (gmap string string)),
            runs (if_in field (λ m, async_set_aliases_bulk m a))) as Hal.
  { intros a field. apply runs_if_in. intros x _. apply runs_external. }
  destruct (bind_runs _ 8 w (Hcfg None _ H1) Hio)
    as (w1 & E1 & Hio1 & Hb1); rewrite E1; clear E1.
  destruct (bind_runs _ 7 w1 (Hcfg (Some ASSISTANT_GOOGLE) _ H2) Hio1)
    as (w2 & E2 & Hio2 & Hb2); rewrite E2; clear E2.
  destruct (bind_runs _ 6 w2 (Hcfg (Some ASSISTANT_ALEXA) _ H3) Hio2)
    as (w3 & E3 & Hio3 & Hb3); rewrite E3; clear E3.
  destruct (bind_runs _ 5 w3 (Hcfg (Some ASSISTANT_HOMEKIT) _ H4) Hio3)
    as (w4 & E4 & Hio4 & Hb4); rewrite E4; clear E4.
  destruct (bind_runs _ 4 w4 (Hal None (sa_aliases msg)) Hio4)
    as (w5 & E5 & Hio5 & Hb5); rewrite E5; clear E5.
  destruct (bind_runs _ 3 w5
              (Hal (Some ASSISTANT_GOOGLE) (sa_google_aliases msg)) Hio5)
    as (w6 & E6 & Hio6 & Hb6); rewrite E6; clear E6.
  destruct (bind_runs _ 2 w6
              (Hal (Some ASSISTANT_ALEXA) (sa_alexa_aliases msg)) Hio6)
    as (w7 & E7 & Hio7 & Hb7); rewrite E7; clear E7.
  assert (runs (if_in (sa_google_settings msg) (λ g,
                  validated_settings ←ₘ validated (validate_google_settings g) ;;
                  async_set_google_settings validated_settings))) as Hg.
  { apply runs_if_in. intros x Hx. rewrite Hx in H5.
    apply runs_validated_then; [done|]. intros y. apply runs_external. }
  destruct (bind_runs _ 1 w7 Hg Hio7) as (w8 & E8 & Hio8 & Hb8);
    rewrite E8; clear E8.
  assert (runs (if_in (sa_alexa_settings msg) (λ a,
                  validated_settings ←ₘ validated (validate_alexa_settings a) ;;
                  async_set_alexa_settings validated_settings))) as Ha.
  { apply runs_if_in. intros x Hx. rewrite Hx in H6.
    apply runs_validated_then; [done|]. intros y. apply runs_external. }
  destruct (bind_runs _ 0 w8 Ha Hio8) as (w9 & E9 & Hio9 & Hb9);
    rewrite E9; clear E9.
  unfold bind at 1, if_in. unfold bind at 1.
  rewrite (check_bridge_unknown id w9)
    by (by rewrite Hb9, Hb8, Hb7, Hb6, Hb5, Hb4, Hb3, Hb2, Hb1).
  by intros [= <- <-].
Qed.

End HomeKitBridge.

(** ** The shape of the responses *)

Section Responses.
Context {V : Validators} {G : Generator} {K : Collaborators}.

Lemma error_code_set c e :
  c ≠ cmd_check_config → c ≠ cmd_restart → error_code c e ≠ EmptyString.
Proof. destruct c, e; simpl; done. Qed.

Lemma run_handles req w :
  run req w = handle (command_of req) (body_of req) w.
Proof. by destruct req. Qed.

Lemma propagates_ret {A} (x : A) : propagates (ret x).
Proof. intros w. exists []. split; [done|]. by intros c e []%elem_of_nil. Qed.

Lemma propagates_raise {A} e : propagates (raise (A := A) e).
Proof. intros w. exists []. split; [done|]. by intros c e' []%elem_of_nil. Qed.

Lemma propagates_get_world : propagates get_world.
Proof. intros w. exists []. split; [done|]. by intros c e []%elem_of_nil. Qed.

Lemma propagates_validated {A} (r : string + A) : propagates (validated r).
Proof. destruct r; [apply propagates_raise | apply propagates_ret]. Qed.

Lemma propagates_generated {A} (r : Exc + A) : propagates (generated r).
Proof. destruct r; [apply propagates_raise | apply propagates_ret]. Qed.

Lemma propagates_external c f : propagates (external c f).
Proof.
  intros w. unfold external.
  destruct (script w) as [|[e|] rest]; simpl; eexists [_];
    (split; [done|]); intros c' e' [[= _ ?] | []%elem_of_nil]%elem_of_cons;
    by simplify_eq.
Qed.

Lemma propagates_bind {A B} (m : M A) (k : A → M B) :
  propagates m → (∀ x, propagates (k x)) → propagates (bind m k).
Proof.
  intros Hm Hk w. unfold bind.
  destruct (Hm w) as (new_m & Tm & Fm).
  destruct (m w) as [[e|x] w1]; simpl in *.
  - exists new_m. split; [done|]. intros c e' Hin.
    specialize (Fm c e' Hin). by simplify_eq.
  - destruct (Hk x w1) as (new_k & Tk & Fk).
    exists (new_k ++ new_m). rewrite Tk, Tm, app_assoc. split; [done|].
    intros c e [Hin | Hin]%elem_of_app; [exact (Fk c e Hin)|].
    by specialize (Fm c e Hin).
Qed.

Lemma propagates_if_in {A} (field : option A) f :
  (∀ x, propagates (f x)) → propagates (if_in field f).
Proof. intros Hf. destruct field; simpl; [done | apply propagates_ret]. Qed.

Lemma propagates_check_bridge entry_id : propagates (check_bridge entry_id).
Proof.
  destruct entry_id as [id|]; simpl; [|apply propagates_ret].
  apply propagates_bind; [apply propagates_get_world|]. intros w.
  destruct (get_bridge_config id w);
    [apply propagates_ret | apply propagates_raise].
Qed.

(** Every [try] block but the one of [write_files] is a plain sequence of
    calls: none of them catches an exception. *)
Lemma bodies_propagate req :
  (∀ timestamp, req ≠ req_write_files timestamp) → propagates (body_of req).
Proof.
  intros Hreq.
  destruct req; simpl;
    try (by destruct (Hreq timestamp));
    unfold get_state_body, set_mode_body, set_filter_mode_body,
      set_filter_config_body, set_domains_body, toggle_override_body,
      set_alias_body, bulk_update_body, set_settings_body, save_all_body,
      preview_yaml_body, get_homekit_bridges_body, set_homekit_bridge_body,
      sync_homekit_body, import_homekit_body, service_body,
      async_toggle_override, async_set_filter_config, async_set_aliases_bulk,
      async_set_mode, async_set_filter_mode, async_set_domains,
      async_set_alias, async_set_google_settings, async_set_alexa_settings,
      async_set_homekit_entry_id, async_set_last_generated;
    cbv zeta;
    repeat first
      [ apply propagates_ret
      | apply propagates_get_world
      | apply propagates_validated
      | apply propagates_generated
      | apply propagates_external
      | apply propagates_check_bridge
      | apply propagates_if_in; intros ?
      | apply propagates_bind; [|intros ?]
      | match goal with
        | |- propagates (match ?x with _ => _ end) => destruct x
        end ].
Qed.

(** C9, as the handlers have it.  Every request is answered with one
    response, and no failure is discarded.  An exception that leaves the
    [try] block of a handler is answered with a structured error, the code
    chosen by the first matching [except] clause and the message
    [str(err)], except in [check_config] and [restart], which answer it
    with the result [{success: false, error: str(err)}]; a payload the
    block returns is sent as the result.  In every handler but the one of
    [write_files] a call that raises ends the block with that exception,
    so a result is never sent after a failed call; [write_files] catches
    the failure of an assistant's write, sync or timestamp update itself
    and reports its text in the [error] field of that assistant's record
    in its result. *)
Theorem every_outcome_answered (req : Request) (w : World) :
  ∃ new,
    trace (run req w).2 = new ++ trace w
    ∧ match (body_of req w).1 with
      | inr payload => (run req w).1 = send_result payload
      | inl e =>
          match req with
          | req_check_config | req_restart =>
              (run req w).1 =
                send_result (JObj [("success", JBool false);
                                   ("error", JStr (str e))])
          | _ =>
              (run req w).1 = send_error (error_code (command_of req) e) (str e)
              ∧ error_code (command_of req) e ≠ EmptyString
          end
      end
    ∧ ∀ c e, (c, Some e) ∈ new →
        match req with
        | req_write_files _ =>
            ∃ a g al h,
              (c = write_call a ∨ c = c_set_last_generated a)
              ∧ entry_of a g al h =
                  {| written := false; error := Some (str e) |}
              ∧ (run req w).1 =
                  send_result
                    (JObj [("google",
                            JObj [("written", JBool (written g));
                                  ("error",
                                   if error g is Some m then JStr m
                                   else JNull)]);
                           ("alexa",
                            JObj [("written", JBool (written al));
                                  ("error",
                                   if error al is Some m then JStr m
                                   else JNull)]);
                           ("homekit",
                            JObj [("written", JBool (written h));
                                  ("error",
                                   if error h is Some m then JStr m
                                   else JNull)])])
        | _ => (body_of req w).1 = inl e
        end.
Proof.
  assert (match (body_of req w).1 with
          | inr payload => (run req w).1 = send_result payload
          | inl e =>
              match req with
              | req_check_config | req_restart =>
                  (run req w).1 =
                    send_result (JObj [("success", JBool false);
                                       ("error", JStr (str e))])
              | _ =>
                  (run req w).1
                  = send_error (error_code (command_of req) e) (str e)
                  ∧ error_code (command_of req) e ≠ EmptyString
              end
          end) as Hanswer.
  { rewrite run_handles. unfold handle.
    destruct (body_of req w) as [[e|payload] w']; [|done].
    destruct req; simpl; try done; (split; [done|]);
      by apply error_code_set. }
  assert ((∃ timestamp, req = req_write_files timestamp)
          ∨ (∀ timestamp, req ≠ req_write_files timestamp))
    as [[timestamp ->] | Hreq]
    by (destruct req; eauto; right; intros; discriminate).
  - destruct (write_files_run timestamp w)
      as (g & al & h & ng & na & nh & s1 & s2 & w' & E & T & R1 & R2 & R3).
    exists (nh ++ na ++ ng).
    split; [simpl; rewrite E; simpl; by rewrite T, <- !app_assoc|].
    split; [done|].
    intros c e Hin.
    assert (∀ a s res mine s',
              block_run a timestamp s res mine s' → (c, Some e) ∈ mine →
              (c = write_call a ∨ c = c_set_last_generated a)
              ∧ res = {| written := false; error := Some (str e) |}) as Hblock.
    { intros a s res mine s' R Hc.
      destruct R;
        repeat (apply elem_of_cons in Hc as [Hc | Hc];
                [by (injection Hc as -> ?; simplify_eq; auto)|]);
        by apply elem_of_nil in Hc. }
    apply elem_of_app in Hin as [Hin | Hin];
      [|apply elem_of_app in Hin as [Hin | Hin]].
    + destruct (Hblock _ _ _ _ _ R3 Hin) as [Hc ->].
      exists ASSISTANT_HOMEKIT, g, al,
        {| written := false; error := Some (str e) |}.
      split; [done|]. split; [done|]. simpl. by rewrite E.
    + destruct (Hblock _ _ _ _ _ R2 Hin) as [Hc ->].
      exists ASSISTANT_ALEXA, g,
        {| written := false; error := Some (str e) |}, h.
      split; [done|]. split; [done|]. simpl. by rewrite E.
    + destruct (Hblock _ _ _ _ _ R1 Hin) as [Hc ->].
      exists ASSISTANT_GOOGLE,
        {| written := false; error := Some (str e) |}, al, h.
      split; [done|]. split; [done|]. simpl. by rewrite E.
  - destruct (bodies_propagate req Hreq w) as (new & T & F).
    exists new. split.
    { rewrite run_handles. unfold handle.
      by destruct (body_of req w) as [r w']. }
    split; [done|].
    intros c e Hin. specialize (F c e Hin).
    destruct req; try done. by destruct (Hreq timestamp).
Qed.

End Responses.

(** * The theorems at concrete inputs *)

Lemma toggle_override_involution_witness :
  let msg := {| to_entity_id := "light.kitchen"; to_assistant := None |} in
  let w1 := (websocket_toggle_override (V := accept_all) msg example_world).2 in
  let w2 := (websocket_toggle_override (V := accept_all) msg w1).2 in
  view (get_filter_config None (store w2)) = view example_config
  ∧ ∀ E, exposed E (get_filter_config None (store w2))
         = exposed E example_config.
Proof.
  intros msg w1 w2.
  pose proof (toggle_override_involution (V := accept_all) msg example_world
                "light.kitchen" None eq_refl eq_refl (Forall_nil_2 _)) as H.
  cbv zeta in H. subst w2 w1.
  destruct (websocket_toggle_override msg example_world) as [r1 w1].
  cbn [snd] in *.
  destruct (websocket_toggle_override msg w1) as [r2 w2].
  cbn [snd] in *.
  destruct H as (_ & _ & _ & Hview & Hexp & _).
  split; [exact Hview | exact Hexp].
Defined.

Lemma bulk_exclude_set_semantics_witness :
  let msg := {| bu_action := exclude;
                bu_entity_ids := ["switch.fan"; "light.hall"; "light.hall"];
                bu_value := None; bu_assistant := None |} in
  let after :=
    get_list (d_entities
      (get_filter_config None
         (store (websocket_bulk_update (V := accept_all) msg example_world).2))) in
  occurrences "switch.fan" after = 1 ∧ occurrences "light.hall" after = 1.
Proof.
  intros msg after.
  pose proof (bulk_exclude_set_semantics (V := accept_all) msg example_world
                ["switch.fan"; "light.hall"; "light.hall"] EmptyString None
                eq_refl eq_refl eq_refl eq_refl (Forall_nil_2 _))
    as (_ & Honce & _).
  split; apply Honce.
  - apply list_elem_of_here.
  - apply list_elem_of_further, list_elem_of_here.
Defined.

Lemma bulk_alias_prefix_witness :
  let msg := {| bu_action := set_alias_prefix;
                bu_entity_ids := ["light.kitchen"; "sensor.ghost"];
                bu_value := Some "Upstairs "; bu_assistant := None |} in
  let after :=
    get_aliases None
      (store (websocket_bulk_update (V := accept_all) msg example_world).2) in
  after !! "light.kitchen" = Some "Upstairs Kitchen Light"
  ∧ after !! "sensor.ghost" = None.
Proof.
  intros msg after.
  pose proof (bulk_alias_prefix (V := accept_all) msg example_world
                ["light.kitchen"; "sensor.ghost"] "Upstairs " None
                eq_refl eq_refl eq_refl eq_refl (Forall_nil_2 _))
    as (_ & Hknown & Hunknown).
  split.
  - destruct (Hknown "light.kitchen"
                {| e_name := None; e_original_name := Some "Kitchen";
                   e_device_id := Some "dev1" |})
      as (_ & Hafter & _); [apply list_elem_of_here | by vm_compute |].
    exact Hafter.
  - destruct (Hunknown "sensor.ghost") as (_ & Hafter); [by vm_compute|].
    exact Hafter.
Defined.

Lemma unknown_bridge_not_found_witness :
  websocket_set_homekit_bridge (Some "ghost") example_world =
    (send_error "homekit_error" "HomeKit bridge not found: ghost",
     example_world)
  ∧ (websocket_save_all (V := accept_all) (select_bridge "ghost")
       example_world).1 =
      send_error "homekit_error" "HomeKit bridge not found: ghost"
  ∧ homekit_entry_id
      (store (websocket_save_all (V := accept_all) (select_bridge "ghost")
                example_world).2) = None.
Proof.
  assert ("ghost" ∉ bridges example_world) as Hid.
  { simpl. intros Hin%elem_of_singleton. discriminate Hin. }
  destruct (unknown_bridge_not_found (V := accept_all) (select_bridge "ghost")
              "ghost" example_world Hid) as (Hset & Hsave).
  destruct (Hsave eq_refl) as (_ & Hkeep & Hfound).
  split; [exact Hset|]. split; [|exact Hkeep].
  apply Hfound; [|apply Forall_nil_2].
  repeat split. by exists (only_domains ["switch"]).
Defined.

(** C9, as it was claimed: where the host's [check_config] service call
    raises, the body of the handler fails, yet the answer is no structured
    error but a result, whose payload says [success: false]. *)
Lemma check_config_failure_counterexample :
  let w := with_script [Some (OtherException "service unavailable")]
             example_world in
  (service_body "check_config" w).1
    = inl (OtherException "service unavailable")
  ∧ (websocket_check_config w).1
    = send_result (JObj [("success", JBool false);
                         ("error", JStr "service unavailable")])
  ∧ (websocket_check_config w).1 ≠ send_result success
  ∧ ¬ (∃ code message,
         (websocket_check_config w).1 = send_error code message).
Proof.
  intros w. split; [done|]. split; [done|]. split; [done|].
  intros (code & message & H). discriminate H.
Qed.

(** ** Runs of the handlers *)

Example restart_failure_is_a_result :
  (websocket_restart
     (with_script [Some (OtherException "not allowed")] example_world)).1
  = send_result (JObj [("success", JBool false);
                       ("error", JStr "not allowed")]).
Proof. reflexivity. Qed.

(** The Google write fails; Alexa is written all the same, and HomeKit is
    skipped for want of a bridge. *)
Example write_files_google_write_fails :
  let run :=
    websocket_write_files "2024-05-01T10:00:00"
      (with_script [Some (VoiceManagerError "path escapes packages")]
         complete_world) in
  run.1 = send_result
            (result_json
               {| written := false; error := Some "path escapes packages" |}
               {| written := true; error := None |}
               {| written := false;
                  error := Some "No HomeKit bridge configured" |})
  ∧ last_generated (store run.2) ASSISTANT_GOOGLE = None
  ∧ last_generated (store run.2) ASSISTANT_ALEXA = Some "2024-05-01T10:00:00"
  ∧ last_generated (store run.2) ASSISTANT_HOMEKIT = None
  ∧ trace run.2 = [(c_set_last_generated ASSISTANT_ALEXA, None);
                   (c_write_alexa_yaml, None);
                   (c_write_google_yaml,
                    Some (VoiceManagerError "path escapes packages"))].
Proof. by vm_compute. Qed.

Example bulk_update_over_the_limit :
  command_bulk_update (V := accept_all)
    {[ "type" := JStr "voice_assistant_manager/bulk_update";
       "action" := JStr "exclude";
       "entity_ids" := JList (replicate 501 (JStr "light.hall")) ]}
    example_world
  = (send_error "invalid_format" "invalid message", example_world)
  ∧ (command_bulk_update (V := accept_all)
       {[ "type" := JStr "voice_assistant_manager/bulk_update";
          "action" := JStr "exclude";
          "entity_ids" := JList (replicate 500 (JStr "light.hall")) ]}
       example_world).1
    = send_result success.
Proof. by vm_compute. Qed.

(** The scenario of the exposure engine: [light] excluded, [light.kitchen]
    overridden. *)
Example exposure_scenario :
  exposed {| entity_id := "light.kitchen"; domain := "light";
             device_id := None |}
          {| d_filter_mode := Some FILTER_MODE_EXCLUDE;
             d_domains := Some ["light"]; d_entities := Some [];
             d_devices := Some []; d_overrides := Some ["light.kitchen"] |}
  = true
  ∧ exposed {| entity_id := "light.hall"; domain := "light";
               device_id := None |}
            {| d_filter_mode := Some FILTER_MODE_EXCLUDE;
               d_domains := Some ["light"]; d_entities := Some [];
               d_devices := Some []; d_overrides := Some ["light.kitchen"] |}
    = false
  ∧ exposed {| entity_id := "switch.fan"; domain := "switch";
               device_id := None |}
            {| d_filter_mode := Some FILTER_MODE_EXCLUDE;
               d_domains := Some ["light"]; d_entities := Some [];
               d_devices := Some []; d_overrides := Some ["light.kitchen"] |}
    = true.
Proof. by vm_compute. Qed.

(** * Further properties of the handlers and helpers *)

(** ** The registry snapshots *)

Section RegistrySnapshots.

Lemma entities_loop_filter r l :
  entities_loop r l = entity_row r <$> filter (λ e, ee_disabled e = false) l.
Proof.
  induction l as [|e l IH]; [done|]. simpl. rewrite filter_cons.
  destruct (ee_disabled e) eqn:Hd; case_decide; try done.
  simpl. by rewrite IH.
Qed.

Lemma devices_loop_filter r l :
  devices_loop r l = device_row r <$> filter (λ d, de_disabled d = false) l.
Proof.
  induction l as [|d l IH]; [done|]. simpl. rewrite filter_cons.
  destruct (de_disabled d) eqn:Hd; case_decide; try done.
  simpl. by rewrite IH.
Qed.

Lemma py_or_str_nonempty a b : b ≠ EmptyString → py_or_str a b ≠ EmptyString.
Proof.
  intros Hb. destruct a as [s|]; simpl; [|done].
  destruct (String.eqb s EmptyString) eqn:E; [done|].
  by apply String.eqb_neq.
Qed.

Lemma area_name_of_listed r area_id n :
  area_name_of r area_id = Some n →
  ∃ id, area_id = Some id ∧ id ≠ EmptyString
        ∧ (id, n) ∈ _get_areas_data r.
Proof.
  unfold area_name_of. destruct area_id as [id|]; [|done].
  destruct (truthy (Some id)) eqn:Ht; [|done].
  destruct (async_get_area r id) as [area|] eqn:Ha; [|done].
  intros [= <-]. exists id. split; [done|].
  split.
  { simpl in Ht. apply negb_true_iff in Ht. by apply String.eqb_neq. }
  unfold async_get_area in Ha. apply head_Some_elem_of in Ha.
  apply list_elem_of_filter in Ha as [<- Hin].
  unfold _get_areas_data. apply list_elem_of_fmap. by exists area.
Qed.

Lemma entity_row_id r entity :
  row_entity_id (entity_row r entity) = ee_entity_id entity
  ∧ row_domain (entity_row r entity) = domain_of (ee_entity_id entity).
Proof.
  unfold entity_row.
  by destruct (match ee_device_id entity with
               | Some device_id => _ | None => _ end) as [dn da].
Qed.

(** X1: [_get_entities_data] lists the entities that are not disabled,
    each once and in registry order; a disabled entity has no row. *)
Theorem entities_data_lists_enabled r :
  row_entity_id <$> _get_entities_data r =
    ee_entity_id <$> filter (λ e, ee_disabled e = false) (reg_entities r)
  ∧ ∀ row, row ∈ _get_entities_data r →
      ∃ entity, entity ∈ reg_entities r ∧ ee_disabled entity = false
                ∧ row = entity_row r entity.
Proof.
  unfold _get_entities_data. rewrite entities_loop_filter. split.
  - rewrite <- list_fmap_compose. apply list_fmap_ext.
    intros i entity _. apply entity_row_id.
  - intros row (entity & -> & Hin)%list_elem_of_fmap.
    apply list_elem_of_filter in Hin as [Hd Hin]. by exists entity.
Qed.

(** X2: with entity ids that are not empty, no row of
    [_get_entities_data] has an empty name: the name falls back from the
    state's friendly name to the entry's name, its original name and at
    last the entity id. *)
Theorem entities_data_names_not_empty r row :
  (∀ entity, entity ∈ reg_entities r → ee_entity_id entity ≠ EmptyString) →
  row ∈ _get_entities_data r →
  row_name row ≠ EmptyString
  ∧ ∃ entity, entity ∈ reg_entities r
      ∧ resolves
          (match reg_states r !! ee_entity_id entity with
           | Some state => s_friendly_name state
           | None => None
           end)
          (ee_name entity) (ee_original_name entity) (ee_entity_id entity)
          (row_name row).
Proof.
  intros Hids Hrow. unfold _get_entities_data in Hrow.
  rewrite entities_loop_filter in Hrow.
  apply list_elem_of_fmap in Hrow as (entity & -> & Hin).
  apply list_elem_of_filter in Hin as [_ Hin].
  split.
  { unfold entity_row.
    destruct (match ee_device_id entity with
              | Some device_id => _ | None => _ end) as [dn da].
    simpl. by apply py_or_str_nonempty, py_or_str_nonempty, Hids. }
  exists entity. split; [done|].
  unfold entity_row.
  destruct (match ee_device_id entity with
            | Some device_id => _ | None => _ end) as [dn da].
  simpl.
  set (friendly := match reg_states r !! ee_entity_id entity with
                   | Some state => s_friendly_name state
                   | None => None
                   end).
  destruct (truthy friendly) eqn:Tf.
  { destruct (truthy_true _ Tf) as (n & Hn & Hne & Hb).
    rewrite Hn. simpl. rewrite Hb. by apply by_friendly_name. }
  rewrite (py_or_str_falsy friendly) by done.
  destruct (truthy (ee_name entity)) eqn:Tn.
  { destruct (truthy_true _ Tn) as (n & Hn & Hne & Hb).
    unfold py_or. rewrite Tn, Hn. simpl. rewrite Hb. by apply by_name. }
  unfold py_or. rewrite Tn.
  destruct (truthy (ee_original_name entity)) eqn:To.
  { destruct (truthy_true _ To) as (n & Hn & Hne & Hb).
    rewrite Hn. simpl. rewrite Hb. by apply by_original_name. }
  rewrite py_or_str_falsy by done. by apply by_entity_id.
Qed.

(** X3: the area of an entity row.  The entity's own area, when it has
    one, wins over its device's; without one the row takes the area of the
    entity's device; and an area name on a row is the name under which
    [_get_areas_data] lists the row's area id. *)
Theorem entity_row_area r entity :
  (truthy (ee_area_id entity) = true →
     row_area_id (entity_row r entity) = ee_area_id entity)
  ∧ (∀ device_id device,
       truthy (ee_area_id entity) = false →
       ee_device_id entity = Some device_id → device_id ≠ EmptyString →
       async_get_device r device_id = Some device →
       row_area_id (entity_row r entity) = de_area_id device)
  ∧ (truthy (ee_area_id entity) = false →
     truthy (ee_device_id entity) = false →
       row_area_id (entity_row r entity) = None
       ∧ row_area_name (entity_row r entity) = None)
  ∧ (∀ n, row_area_name (entity_row r entity) = Some n →
       ∃ id, row_area_id (entity_row r entity) = Some id
             ∧ (id, n) ∈ _get_areas_data r).
Proof.
  unfold entity_row.
  destruct (match ee_device_id entity with
            | Some device_id => _ | None => _ end) as [dn da] eqn:Hdev.
  simpl. repeat split.
  - intros Ht. unfold py_or. by rewrite Ht.
  - intros device_id device Ht Hid Hne Hget. unfold py_or. rewrite Ht.
    rewrite Hid in Hdev. simpl in Hdev.
    apply String.eqb_neq in Hne. rewrite Hne in Hdev. simpl in Hdev.
    rewrite Hget in Hdev. by injection Hdev as _ <-.
  - unfold py_or. rewrite H. destruct (ee_device_id entity) as [d|].
    + rewrite H0 in Hdev. by injection Hdev as _ <-.
    + by injection Hdev as _ <-.
  - unfold py_or. rewrite H. destruct (ee_device_id entity) as [d|].
    + rewrite H0 in Hdev. by injection Hdev as _ <-.
    + by injection Hdev as _ <-.
  - intros n Hn. apply area_name_of_listed in Hn as (id & Hid & _ & Hin).
    by exists id.
Qed.

Lemma domains_loop_elem (l : list EntityEntry) (acc : gset string) d :
  d ∈ foldl (λ domains entity,
               if negb (ee_disabled entity)
               then domains ∪ {[domain_of (ee_entity_id entity)]}
               else domains) acc l ↔
  d ∈ acc ∨ ∃ entity, entity ∈ l ∧ ee_disabled entity = false
                      ∧ domain_of (ee_entity_id entity) = d.
Proof.
  revert acc. induction l as [|e l IH]; intros acc; simpl.
  - split; [auto|]. intros [? | (? & []%elem_of_nil & _)]. done.
  - rewrite IH. destruct (ee_disabled e) eqn:Hd; simpl.
    + split.
      * intros [? | (x & Hx & ?)]; [auto|]. right. exists x.
        split; [by apply list_elem_of_further | done].
      * intros [? | (x & Hx & Hdx & ?)]; [auto|].
        apply elem_of_cons in Hx as [-> | Hx]; [congruence|].
        right. by exists x.
    + rewrite elem_of_union, elem_of_singleton. split.
      * intros [[? | ->] | (x & Hx & ?)]; [auto| |].
        -- right. exists e. split; [apply list_elem_of_here | done].
        -- right. exists x. split; [by apply list_elem_of_further | done].
      * intros [? | (x & Hx & Hdx & Hdom)]; [auto|].
        apply elem_of_cons in Hx as [-> | Hx]; [auto|].
        right. by exists x.
Qed.

Lemma sorted_spec (s : gset string) :
  StronglySorted String.le (sorted s) ∧ NoDup (sorted s)
  ∧ ∀ x, x ∈ sorted s ↔ x ∈ s.
Proof.
  unfold sorted. split; [apply StronglySorted_merge_sort; apply _|].
  split.
  - rewrite merge_sort_Permutation. apply NoDup_elements.
  - intros x. by rewrite merge_sort_Permutation, elem_of_elements.
Qed.

(** X4: [_get_domains] returns the domains of the entities that are not
    disabled, each once, in ascending order. *)
Theorem get_domains_sorted_unique r :
  StronglySorted String.le (_get_domains r)
  ∧ NoDup (_get_domains r)
  ∧ ∀ d, d ∈ _get_domains r ↔
         ∃ entity, entity ∈ reg_entities r ∧ ee_disabled entity = false
                   ∧ domain_of (ee_entity_id entity) = d.
Proof.
  unfold _get_domains.
  destruct (sorted_spec
              (foldl (λ domains entity,
                        if negb (ee_disabled entity)
                        then domains ∪ {[domain_of (ee_entity_id entity)]}
                        else domains) ∅ (reg_entities r)))
    as (Hs & Hn & Hm).
  split; [done|]. split; [done|].
  intros d. rewrite Hm, domains_loop_elem.
  split; [intros [[]%not_elem_of_empty | ?]; done | auto].
Qed.

(** X5: [_get_domains] and [_get_entities_data] agree: a domain is listed
    exactly when some entity row carries it. *)
Theorem get_domains_match_rows r d :
  d ∈ _get_domains r ↔ d ∈ row_domain <$> _get_entities_data r.
Proof.
  unfold _get_domains, _get_entities_data.
  destruct (sorted_spec
              (foldl (λ domains entity,
                        if negb (ee_disabled entity)
                        then domains ∪ {[domain_of (ee_entity_id entity)]}
                        else domains) ∅ (reg_entities r)))
    as (_ & _ & Hm).
  rewrite Hm, domains_loop_elem, entities_loop_filter.
  rewrite list_elem_of_fmap. split.
  - intros [[]%not_elem_of_empty | (entity & Hin & Hd & <-)].
    exists (entity_row r entity). split.
    + symmetry. apply entity_row_id.
    + apply list_elem_of_fmap. exists entity. split; [done|].
      by apply list_elem_of_filter.
  - intros (row & -> & (entity & -> & Hin)%list_elem_of_fmap).
    apply list_elem_of_filter in Hin as [Hd Hin].
    right. exists entity. split; [done|]. split; [done|].
    symmetry. apply entity_row_id.
Qed.

(** X6: [domain_of], that is [entity_id.split(".")[0]]: the part of the id
    before its first dot.  What follows a dot plays no part, the result
    holds no dot (taking it again changes nothing), and the id is the
    result, or the result followed by a dot and the rest. *)
Theorem domain_of_first_part :
  (∀ d rest, domain_of (d +:+ String "."%char rest) = domain_of d)
  ∧ (∀ s, domain_of (domain_of s) = domain_of s)
  ∧ (∀ s, s = domain_of s
          ∨ ∃ rest, s = domain_of s +:+ String "."%char rest).
Proof.
  repeat split.
  - intros d rest. induction d as [|c d IH]; simpl; [done|].
    destruct (Ascii.eqb c "."); [done|]. by rewrite IH.
  - intros s. induction s as [|c s IH]; simpl; [done|].
    destruct (Ascii.eqb c ".") eqn:Hc; simpl; [done|]. by rewrite Hc, IH.
  - intros s. induction s as [|c s IH]; simpl; [by left|].
    destruct (Ascii.eqb c ".") eqn:Hc.
    + apply Ascii.eqb_eq in Hc as ->. right. by exists s.
    + destruct IH as [IH | [rest IH]].
      * left. by rewrite <- IH.
      * right. exists rest.
        change (String c s = String c (domain_of s +:+ String "."%char rest)).
        by rewrite <- IH.
Qed.

(** X7: [_get_devices_data] lists the devices that are not disabled, each
    once and in registry order, under the user's name for the device when
    there is one; an area name on a device row is the name under which
    [_get_areas_data] lists the device's area id. *)
Theorem devices_data_lists_enabled r :
  _get_devices_data r =
    device_row r <$> filter (λ d, de_disabled d = false) (reg_devices r)
  ∧ ∀ row, row ∈ _get_devices_data r →
      (∃ device, device ∈ reg_devices r ∧ de_disabled device = false
                 ∧ drow_id row = de_id device
                 ∧ (truthy (de_name_by_user device) = true →
                      drow_name row = de_name_by_user device)
                 ∧ (truthy (de_name_by_user device) = false →
                      drow_name row = de_name device))
      ∧ ∀ n, drow_area_name row = Some n →
             ∃ id, drow_area_id row = Some id ∧ (id, n) ∈ _get_areas_data r.
Proof.
  unfold _get_devices_data. rewrite devices_loop_filter. split; [done|].
  intros row (device & -> & Hin)%list_elem_of_fmap.
  apply list_elem_of_filter in Hin as [Hd Hin]. split.
  - exists device. repeat split; try done; simpl; unfold py_or;
      by intros ->.
  - intros n Hn. simpl in *.
    apply area_name_of_listed in Hn as (id & Hid & _ & Hin').
    by exists id.
Qed.

End RegistrySnapshots.

(** ** The other branches of bulk_update *)

Section BulkUpdateBranches.
Context {V : Validators}.

(** Runs the handler up to the storage call of the branch [Hact] names. *)
Ltac bulk_run Hact Hids Hval Ha :=
  unfold websocket_bulk_update, handle, bulk_update_body, bind, validated,
    get_world, ret, async_set_filter_config, async_set_aliases_bulk;
  rewrite Hids; simpl; rewrite Hval; simpl; rewrite Ha; simpl;
  rewrite Hact; cbv beta iota zeta.

Lemma py_list_union l ids x :
  x ∈ py_list (py_set l ∪ py_set ids) ↔ x ∈ l ∨ x ∈ ids.
Proof.
  unfold py_list, py_set.
  by rewrite elem_of_elements, elem_of_union, !elem_of_list_to_set.
Qed.

Lemma py_list_difference l ids x :
  x ∈ py_list (py_set l ∖ py_set ids) ↔ x ∈ l ∧ x ∉ ids.
Proof.
  unfold py_list, py_set.
  by rewrite elem_of_elements, elem_of_difference, !elem_of_list_to_set.
Qed.

Lemma py_list_NoDup s : NoDup (py_list s).
Proof. apply NoDup_elements. Qed.

(** X8: [bulk_update] with action [unexclude] takes every requested id out
    of [entities], keeps the other ids (each once), and leaves the four
    other keys as they were. *)
Theorem bulk_unexclude_removes msg w entity_ids value a :
  bu_action msg = unexclude →
  validate_entity_ids (bu_entity_ids msg) = inr entity_ids →
  validate_alias (default EmptyString (bu_value msg)) = inr value →
  validate_assistant (bu_assistant msg) = inr a →
  calls_return 1 w →
  let c := get_filter_config a (store w) in
  let c' := get_filter_config a (store (websocket_bulk_update msg w).2) in
  (websocket_bulk_update msg w).1 = send_result success
  ∧ (∀ x, x ∈ get_list (d_entities c') ↔
          x ∈ get_list (d_entities c) ∧ x ∉ entity_ids)
  ∧ NoDup (get_list (d_entities c'))
  ∧ d_filter_mode c' = d_filter_mode c
  ∧ d_domains c' = d_domains c
  ∧ d_devices c' = d_devices c
  ∧ d_overrides c' = d_overrides c.
Proof.
  intros Hact Hids Hval Ha Hio c c'.
  assert (∃ w', websocket_bulk_update msg w = (send_result success, w')
                ∧ store w' =
                    put_filter_config a
                      (set_entities c
                         (py_list (py_set (get_list (d_entities c))
                                   ∖ py_set entity_ids)))
                      (store w)) as (w' & E & Hs).
  { subst c. bulk_run Hact Hids Hval Ha.
    persist w 0 Hio. done. }
  subst c'. rewrite E. cbn [fst snd]. rewrite Hs, get_put_filter_config.
  simpl. split; [done|].
  split; [intros x; apply py_list_difference|].
  split; [apply py_list_NoDup | done].
Qed.

(** The [exclude] and [unexclude] branches, with the calls left over. *)
Lemma bulk_entities_stores msg w entity_ids value a n :
  validate_entity_ids (bu_entity_ids msg) = inr entity_ids →
  validate_alias (default EmptyString (bu_value msg)) = inr value →
  validate_assistant (bu_assistant msg) = inr a →
  calls_return (S n) w →
  let c := get_filter_config a (store w) in
  (bu_action msg = exclude →
   ∃ w', websocket_bulk_update msg w = (send_result success, w')
         ∧ store w' =
             put_filter_config a
               (set_entities c
                  (py_list (py_set (get_list (d_entities c))
                            ∪ py_set entity_ids))) (store w)
         ∧ calls_return n w')
  ∧ (bu_action msg = unexclude →
     ∃ w', websocket_bulk_update msg w = (send_result success, w')
           ∧ store w' =
               put_filter_config a
                 (set_entities c
                    (py_list (py_set (get_list (d_entities c))
                              ∖ py_set entity_ids))) (store w)
           ∧ calls_return n w').
Proof.
  intros Hids Hval Ha Hio c. subst c.
  split; intros Hact; bulk_run Hact Hids Hval Ha; persist w n Hio; done.
Qed.

(** X9: [unexclude] does not undo [exclude].  After [exclude] and then
    [unexclude] of the same ids, [entities] holds the ids it held before
    less every requested id, also those that were excluded before the two
    requests. *)
Theorem bulk_exclude_then_unexclude msg1 msg2 w entity_ids value a :
  bu_action msg1 = exclude → bu_action msg2 = unexclude →
  bu_entity_ids msg2 = bu_entity_ids msg1 →
  bu_value msg2 = bu_value msg1 →
  bu_assistant msg2 = bu_assistant msg1 →
  validate_entity_ids (bu_entity_ids msg1) = inr entity_ids →
  validate_alias (default EmptyString (bu_value msg1)) = inr value →
  validate_assistant (bu_assistant msg1) = inr a →
  calls_return 2 w →
  let c := get_filter_config a (store w) in
  let w1 := (websocket_bulk_update msg1 w).2 in
  let c2 := get_filter_config a (store (websocket_bulk_update msg2 w1).2) in
  (websocket_bulk_update msg1 w).1 = send_result success
  ∧ (websocket_bulk_update msg2 w1).1 = send_result success
  ∧ ∀ x, x ∈ get_list (d_entities c2) ↔
         x ∈ get_list (d_entities c) ∧ x ∉ entity_ids.
Proof.
  intros Hact1 Hact2 Eids Eval Ea Hids Hval Ha Hio c w1 c2.
  destruct (bulk_entities_stores msg1 w entity_ids value a 1 Hids Hval Ha Hio)
    as [Hex _].
  destruct (Hex Hact1) as (w1' & E1 & Hs1 & Hio1).
  subst c2 w1. rewrite E1. cbn [fst snd].
  rewrite <- Eids in Hids. rewrite <- Eval in Hval. rewrite <- Ea in Ha.
  destruct (bulk_entities_stores msg2 w1' entity_ids value a 0
              Hids Hval Ha Hio1) as [_ Hun].
  destruct (Hun Hact2) as (w2 & E2 & Hs2 & _).
  rewrite E2. cbn [fst snd]. rewrite Hs2, get_put_filter_config.
  split; [done|]. split; [done|].
  intros x. simpl. rewrite py_list_difference.
  rewrite Hs1, get_put_filter_config. simpl. rewrite py_list_union.
  fold c. tauto.
Qed.

(** The [add_override] and [remove_override] branches. *)
Lemma bulk_overrides_stores msg w entity_ids value a :
  validate_entity_ids (bu_entity_ids msg) = inr entity_ids →
  validate_alias (default EmptyString (bu_value msg)) = inr value →
  validate_assistant (bu_assistant msg) = inr a →
  calls_return 1 w →
  let c := get_filter_config a (store w) in
  (bu_action msg = add_override →
   ∃ w', websocket_bulk_update msg w = (send_result success, w')
         ∧ store w' =
             put_filter_config a
               (set_overrides c
                  (py_list (py_set (get_list (d_overrides c))
                            ∪ py_set entity_ids))) (store w))
  ∧ (bu_action msg = remove_override →
     ∃ w', websocket_bulk_update msg w = (send_result success, w')
           ∧ store w' =
               put_filter_config a
                 (set_overrides c
                    (py_list (py_set (get_list (d_overrides c))
                              ∖ py_set entity_ids))) (store w)).
Proof.
  intros Hids Hval Ha Hio c. subst c.
  split; intros Hact; bulk_run Hact Hids Hval Ha; persist w 0 Hio; done.
Qed.

(** X10: [bulk_update] with action [add_override] leaves [overrides]
    holding each requested id exactly once beside the ids it held, and
    with action [remove_override] takes every requested id out of it; in
    both the four other keys, [entities] among them, stay as they were. *)
Theorem bulk_override_actions msg w entity_ids value a :
  validate_entity_ids (bu_entity_ids msg) = inr entity_ids →
  validate_alias (default EmptyString (bu_value msg)) = inr value →
  validate_assistant (bu_assistant msg) = inr a →
  calls_return 1 w →
  let c := get_filter_config a (store w) in
  let c' := get_filter_config a (store (websocket_bulk_update msg w).2) in
  (bu_action msg = add_override →
     (websocket_bulk_update msg w).1 = send_result success
     ∧ (∀ x, x ∈ entity_ids → occurrences x (get_list (d_overrides c')) = 1)
     ∧ (∀ x, x ∈ get_list (d_overrides c') ↔
             x ∈ get_list (d_overrides c) ∨ x ∈ entity_ids)
     ∧ d_filter_mode c' = d_filter_mode c ∧ d_domains c' = d_domains c
     ∧ d_entities c' = d_entities c ∧ d_devices c' = d_devices c)
  ∧ (bu_action msg = remove_override →
       (websocket_bulk_update msg w).1 = send_result success
       ∧ (∀ x, x ∈ get_list (d_overrides c') ↔
               x ∈ get_list (d_overrides c) ∧ x ∉ entity_ids)
       ∧ d_filter_mode c' = d_filter_mode c ∧ d_domains c' = d_domains c
       ∧ d_entities c' = d_entities c ∧ d_devices c' = d_devices c).
Proof.
  intros Hids Hval Ha Hio c c'.
  destruct (bulk_overrides_stores msg w entity_ids value a Hids Hval Ha Hio)
    as [Hadd Hrem].
  split; intros Hact.
  - destruct (Hadd Hact) as (w' & E & Hs). subst c'.
    rewrite E. cbn [fst snd]. rewrite Hs, get_put_filter_config. simpl.
    split; [done|]. split.
    { intros x Hx. apply occurrences_NoDup; [apply py_list_NoDup|].
      apply py_list_union. auto. }
    split; [intros x; apply py_list_union | done].
  - destruct (Hrem Hact) as (w' & E & Hs). subst c'.
    rewrite E. cbn [fst snd]. rewrite Hs, get_put_filter_config. simpl.
    split; [done|].
    split; [intros x; apply py_list_difference | done].
Qed.

Lemma device_loop_elem w (entity_ids : list string) (acc : gset string) d :
  d ∈ foldl (λ devices entity_id,
               match ent_reg w !! entity_id with
               | Some entity =>
                   match e_device_id entity with
                   | Some device_id =>
                       if truthy (Some device_id)
                       then devices ∪ {[device_id]} else devices
                   | None => devices
                   end
               | None => devices
               end) acc entity_ids ↔
  d ∈ acc ∨ ∃ entity_id entity,
              entity_id ∈ entity_ids ∧ ent_reg w !! entity_id = Some entity
              ∧ e_device_id entity = Some d ∧ d ≠ EmptyString.
Proof.
  revert acc. induction entity_ids as [|x l IH]; intros acc; cbn [foldl].
  - split; [auto|]. intros [? | (? & ? & []%elem_of_nil & _)]. done.
  - rewrite IH. clear IH. split.
    + intros [Hacc | (y & e & Hy & ?)].
      * destruct (ent_reg w !! x) as [entity|] eqn:Hx; [|auto].
        destruct (e_device_id entity) as [dev|] eqn:Hdev; [|auto].
        destruct (truthy (Some dev)) eqn:Ht; [|auto].
        apply elem_of_union in Hacc as [? | ->%elem_of_singleton]; [auto|].
        right. exists x, entity. split; [apply list_elem_of_here|].
        split; [done|]. split; [done|].
        simpl in Ht. apply negb_true_iff in Ht. by apply String.eqb_neq.
      * right. exists y, e. split; [by apply list_elem_of_further | done].
    + intros [Hacc | (y & e & Hy & Hreg & Hdev & Hne)].
      * left. destruct (ent_reg w !! x) as [entity|]; [|done].
        destruct (e_device_id entity) as [dev|]; [|done].
        destruct (truthy (Some dev)); [|done].
        apply elem_of_union. auto.
      * apply elem_of_cons in Hy as [-> | Hy].
        -- left. rewrite Hreg, Hdev.
           apply String.eqb_neq in Hne. unfold truthy. rewrite Hne. simpl.
           apply elem_of_union. right. by apply elem_of_singleton.
        -- right. by exists y, e.
Qed.

(** X11: [bulk_update] with action [exclude_domain] adds to [domains] the
    domain of every requested id, that is the part of the id before its
    first dot, and keeps what was there; [entities] and the three other
    keys stay as they were. *)
Theorem bulk_exclude_domain msg w entity_ids value a :
  bu_action msg = exclude_domain →
  validate_entity_ids (bu_entity_ids msg) = inr entity_ids →
  validate_alias (default EmptyString (bu_value msg)) = inr value →
  validate_assistant (bu_assistant msg) = inr a →
  calls_return 1 w →
  let c := get_filter_config a (store w) in
  let c' := get_filter_config a (store (websocket_bulk_update msg w).2) in
  (websocket_bulk_update msg w).1 = send_result success
  ∧ (∀ d, d ∈ get_list (d_domains c') ↔
          d ∈ get_list (d_domains c)
          ∨ ∃ entity_id, entity_id ∈ entity_ids ∧ domain_of entity_id = d)
  ∧ NoDup (get_list (d_domains c'))
  ∧ d_filter_mode c' = d_filter_mode c ∧ d_entities c' = d_entities c
  ∧ d_devices c' = d_devices c ∧ d_overrides c' = d_overrides c.
Proof.
  intros Hact Hids Hval Ha Hio c c'.
  assert (∃ w', websocket_bulk_update msg w = (send_result success, w')
                ∧ store w' =
                    put_filter_config a
                      (set_domains c
                         (py_list (py_set (get_list (d_domains c))
                                   ∪ py_set (domain_of <$> entity_ids))))
                      (store w)) as (w' & E & Hs).
  { subst c. bulk_run Hact Hids Hval Ha.
    persist w 0 Hio. done. }
  subst c'. rewrite E. cbn [fst snd]. rewrite Hs, get_put_filter_config.
  simpl. split; [done|]. split.
  { intros d. rewrite py_list_union, list_elem_of_fmap.
    split; (intros [? | (y & ? & ?)]; [auto | right; exists y; auto]). }
  split; [apply py_list_NoDup | done].
Qed.

(** X12: [bulk_update] with action [exclude_device] adds to [devices] the
    device of every requested entity that the registry knows and that has
    a device; a requested id that is not registered, or whose entity has
    no device, adds nothing and raises no error. *)
Theorem bulk_exclude_device msg w entity_ids value a :
  bu_action msg = exclude_device →
  validate_entity_ids (bu_entity_ids msg) = inr entity_ids →
  validate_alias (default EmptyString (bu_value msg)) = inr value →
  validate_assistant (bu_assistant msg) = inr a →
  calls_return 1 w →
  let c := get_filter_config a (store w) in
  let c' := get_filter_config a (store (websocket_bulk_update msg w).2) in
  (websocket_bulk_update msg w).1 = send_result success
  ∧ (∀ d, d ∈ get_list (d_devices c') ↔
          d ∈ get_list (d_devices c)
          ∨ ∃ entity_id entity,
              entity_id ∈ entity_ids ∧ ent_reg w !! entity_id = Some entity
              ∧ e_device_id entity = Some d ∧ d ≠ EmptyString)
  ∧ NoDup (get_list (d_devices c'))
  ∧ d_filter_mode c' = d_filter_mode c ∧ d_domains c' = d_domains c
  ∧ d_entities c' = d_entities c ∧ d_overrides c' = d_overrides c.
Proof.
  intros Hact Hids Hval Ha Hio c c'.
  assert (∃ w', websocket_bulk_update msg w = (send_result success, w')
                ∧ store w' =
                    put_filter_config a
                      (set_devices c
                         (py_list (py_set (get_list (d_devices c))
                                   ∪ device_loop w entity_ids)))
                      (store w)) as (w' & E & Hs).
  { subst c. bulk_run Hact Hids Hval Ha.
    persist w 0 Hio. done. }
  subst c'. rewrite E. cbn [fst snd]. rewrite Hs, get_put_filter_config.
  simpl. split; [done|]. split.
  { intros d. unfold py_list, py_set, device_loop.
    rewrite elem_of_elements, elem_of_union, elem_of_list_to_set.
    rewrite device_loop_elem. split; [|intros [? | ?]; auto].
    intros [? | [[]%not_elem_of_empty | ?]]; auto. }
  split; [apply py_list_NoDup | done].
Qed.

Lemma fromkeys_lookup (entity_ids : list string) k :
  (list_to_map ((λ k, (k, EmptyString)) <$> entity_ids)
     : gmap string string) !! k =
  if bool_decide (k ∈ entity_ids) then Some EmptyString else None.
Proof.
  induction entity_ids as [|x l IH].
  - by rewrite fmap_nil, list_to_map_nil, lookup_empty.
  - rewrite fmap_cons, list_to_map_cons.
    destruct (decide (k = x)) as [-> | Hkx].
    + rewrite lookup_insert_eq.
      by rewrite (bool_decide_true (x ∈ x :: l)) by apply list_elem_of_here.
    + rewrite lookup_insert_ne by done. rewrite IH.
      apply (f_equal (λ b : bool, if b then Some EmptyString else None)).
      apply bool_decide_ext. rewrite elem_of_cons. tauto.
Qed.

Lemma alias_loop_at w fmt entity_ids k :
  alias_loop w fmt entity_ids !! k =
  match ent_reg w !! k with
  | Some entity =>
      if bool_decide (k ∈ entity_ids)
      then Some (fmt (display_name w k entity)) else None
  | None => None
  end.
Proof.
  unfold alias_loop. rewrite alias_loop_lookup, lookup_empty.
  by destruct (ent_reg w !! k).
Qed.

(** The three alias branches: one [async_set_aliases_bulk] with the
    dictionary the branch builds. *)
Lemma bulk_aliases_stores msg w entity_ids value a :
  validate_entity_ids (bu_entity_ids msg) = inr entity_ids →
  validate_alias (default EmptyString (bu_value msg)) = inr value →
  validate_assistant (bu_assistant msg) = inr a →
  calls_return 1 w →
  ∀ new_aliases,
    (bu_action msg = set_alias_prefix
     ∧ new_aliases = alias_loop w (λ name, value +:+ name) entity_ids)
    ∨ (bu_action msg = set_alias_suffix
       ∧ new_aliases = alias_loop w (λ name, name +:+ value) entity_ids)
    ∨ (bu_action msg = clear_alias
       ∧ new_aliases =
           list_to_map ((λ k, (k, EmptyString)) <$> entity_ids)) →
    ∃ w', websocket_bulk_update msg w = (send_result success, w')
          ∧ store w' =
              put_aliases a (new_aliases ∪ get_aliases a (store w)) (store w).
Proof.
  intros Hids Hval Ha Hio new_aliases
    [[Hact ->] | [[Hact ->] | [Hact ->]]];
    bulk_run Hact Hids Hval Ha;
    match goal with
    | |- context [external ?call ?f w] =>
        destruct (external_returns call f w 0 Hio) as (w' & -> & Hs & _)
    end; by exists w'.
Qed.

(** X13: [bulk_update] with action [clear_alias] stores the empty alias
    for every requested id, whether or not the registry knows the entity,
    and leaves the alias of every other id as it was. *)
Theorem bulk_clear_alias msg w entity_ids value a :
  bu_action msg = clear_alias →
  validate_entity_ids (bu_entity_ids msg) = inr entity_ids →
  validate_alias (default EmptyString (bu_value msg)) = inr value →
  validate_assistant (bu_assistant msg) = inr a →
  calls_return 1 w →
  let after := get_aliases a (store (websocket_bulk_update msg w).2) in
  (websocket_bulk_update msg w).1 = send_result success
  ∧ (∀ e1, e1 ∈ entity_ids → after !! e1 = Some EmptyString)
  ∧ (∀ e1, e1 ∉ entity_ids → after !! e1 = get_aliases a (store w) !! e1).
Proof.
  intros Hact Hids Hval Ha Hio after.
  destruct (bulk_aliases_stores msg w entity_ids value a Hids Hval Ha Hio
              (list_to_map ((λ k, (k, EmptyString)) <$> entity_ids)))
    as (w' & E & Hs); [auto|].
  subst after. rewrite E. cbn [fst snd]. rewrite Hs, get_put_aliases.
  split; [done|]. split.
  - intros e1 Hin. apply lookup_union_Some_l.
    by rewrite fromkeys_lookup, bool_decide_true.
  - intros e1 Hout. apply lookup_union_r.
    by rewrite fromkeys_lookup, bool_decide_false.
Qed.

(** X14: [bulk_update] with action [set_alias_suffix] gives every
    requested entity that the registry knows the alias [display_name +
    value]; an id the registry does not know gets no alias and keeps the
    one it had. *)
Theorem bulk_alias_suffix msg w entity_ids value a :
  bu_action msg = set_alias_suffix →
  validate_entity_ids (bu_entity_ids msg) = inr entity_ids →
  validate_alias (default EmptyString (bu_value msg)) = inr value →
  validate_assistant (bu_assistant msg) = inr a →
  calls_return 1 w →
  let after := get_aliases a (store (websocket_bulk_update msg w).2) in
  (websocket_bulk_update msg w).1 = send_result success
  ∧ (∀ e1 entity,
       e1 ∈ entity_ids → ent_reg w !! e1 = Some entity →
       after !! e1 = Some (display_name w e1 entity +:+ value))
  ∧ (∀ e1, ent_reg w !! e1 = None →
       after !! e1 = get_aliases a (store w) !! e1).
Proof.
  intros Hact Hids Hval Ha Hio after.
  destruct (bulk_aliases_stores msg w entity_ids value a Hids Hval Ha Hio
              (alias_loop w (λ name, name +:+ value) entity_ids))
    as (w' & E & Hs); [auto|].
  subst after. rewrite E. cbn [fst snd]. rewrite Hs, get_put_aliases.
  split; [done|]. split.
  - intros e1 entity Hin Hreg. apply lookup_union_Some_l.
    by rewrite alias_loop_at, Hreg, bool_decide_true.
  - intros e1 Hreg. apply lookup_union_r.
    by rewrite alias_loop_at, Hreg.
Qed.

(** X15: the failures of [bulk_update].  When a validator rejects the ids,
    the value or the assistant, the answer is [validation_error] with the
    validator's message and nothing is called or changed.  When the one
    storage call of the branch raises, the answer carries the exception's
    text under [bulk_update_error] (or [validation_error] for a
    [ValidationError]) and the stored document is unchanged. *)
Theorem bulk_update_failures msg w :
  (∀ m, validate_entity_ids (bu_entity_ids msg) = inl m →
        websocket_bulk_update msg w = (send_error "validation_error" m, w))
  ∧ (∀ entity_ids m,
       validate_entity_ids (bu_entity_ids msg) = inr entity_ids →
       validate_alias (default EmptyString (bu_value msg)) = inl m →
       websocket_bulk_update msg w = (send_error "validation_error" m, w))
  ∧ (∀ entity_ids value m,
       validate_entity_ids (bu_entity_ids msg) = inr entity_ids →
       validate_alias (default EmptyString (bu_value msg)) = inr value →
       validate_assistant (bu_assistant msg) = inl m →
       websocket_bulk_update msg w = (send_error "validation_error" m, w))
  ∧ (∀ entity_ids value a e rest,
       validate_entity_ids (bu_entity_ids msg) = inr entity_ids →
       validate_alias (default EmptyString (bu_value msg)) = inr value →
       validate_assistant (bu_assistant msg) = inr a →
       script w = Some e :: rest →
       (websocket_bulk_update msg w).1 =
         send_error (error_code cmd_bulk_update e) (str e)
       ∧ store (websocket_bulk_update msg w).2 = store w).
Proof.
  unfold websocket_bulk_update, handle, bulk_update_body, bind, validated,
    get_world, ret, raise.
  split; [by intros m ->|].
  split; [by intros ids m -> ->|].
  split; [by intros ids value m -> -> ->|].
  intros ids value a e rest -> -> -> Hscript. simpl.
  unfold async_set_filter_config, async_set_aliases_bulk, external.
  destruct (bu_action msg); rewrite Hscript; by destruct e.
Qed.

End BulkUpdateBranches.

(** ** save_all and set_filter_config, further *)

Section SaveAllFurther.
Context {V : Validators}.

Lemma keeps_ret' {A B} (f : Store → B) (x : A) : keeps f (ret x).
Proof. done. Qed.

Lemma keeps_validated' {A B} (f : Store → B) (r : string + A) :
  keeps f (validated r).
Proof. by destruct r. Qed.

Lemma keeps_bind' {A B C} (f : Store → C) (m : M A) (k : A → M B) :
  keeps f m → (∀ x, keeps f (k x)) → keeps f (bind m k).
Proof.
  intros Hm Hk w. unfold bind. specialize (Hm w).
  destruct (m w) as [[e|x] w1]; simpl in *; [done|].
  by rewrite Hk.
Qed.

Lemma keeps_external' {B} (f : Store → B) c effect :
  (∀ s, f (effect s) = f s) → keeps f (external c effect).
Proof.
  intros Hf w. unfold external.
  destruct (script w) as [|[e|] r]; simpl; auto.
Qed.

Lemma keeps_if_in' {A B} (f : Store → B) (field : option A) g :
  (∀ x, keeps f (g x)) → keeps f (if_in field g).
Proof. intros Hg. destruct field; simpl; [done | apply keeps_ret']. Qed.

Lemma keeps_check_bridge {B} (f : Store → B) entry_id :
  keeps f (check_bridge entry_id).
Proof.
  intros w. unfold check_bridge, bind, get_world.
  destruct entry_id as [id|]; [|done].
  by destruct (get_bridge_config id w).
Qed.

(** X16: [save_all] does not roll back.  Once the write of the shared
    [filter_config] of the message is persisted, every key that the
    validated configuration holds is stored with that value, and it stays
    so whatever the later steps of the same request do, also when one of
    them fails and the request is answered with an error. *)
Theorem save_all_keeps_earlier_steps msg w c vc :
  sa_filter_config msg = Some c →
  validate_filter_config c = inr vc →
  calls_return 1 w →
  let after := filter_config (store (websocket_save_all msg w).2) in
  (∀ v, d_filter_mode vc = Some v → d_filter_mode after = Some v)
  ∧ (∀ v, d_domains vc = Some v → d_domains after = Some v)
  ∧ (∀ v, d_entities vc = Some v → d_entities after = Some v)
  ∧ (∀ v, d_devices vc = Some v → d_devices after = Some v)
  ∧ (∀ v, d_overrides vc = Some v → d_overrides after = Some v).
Proof.
  intros Hc Hv Hio after.
  assert (after = merge_fields vc (filter_config (store w))) as ->.
  { subst after. unfold websocket_save_all, handle.
    destruct (save_all_body msg w) as [r w'] eqn:E. cbn [snd].
    revert E. unfold save_all_body. rewrite Hc. cbn [if_in].
    unfold bind at 1. unfold bind at 1, validated at 1, ret at 1.
    rewrite Hv.
    destruct (set_filter_config_returns vc None w 0 Hio)
      as (w1 & -> & Hs1 & _).
    intros E.
    assert (filter_config (store w1)
            = merge_fields vc (filter_config (store w))) as <-
      by by rewrite Hs1.
    match type of E with
    | ?m w1 = _ =>
        assert (keeps filter_config m) as Hk;
          [|specialize (Hk w1); by rewrite E in Hk]
    end.
    repeat (apply keeps_bind';
            [apply keeps_if_in'; intros ?;
             first [ apply keeps_external'; by intros ?
                   | apply keeps_bind';
                     [first [apply keeps_validated' | apply keeps_check_bridge]
                     |intros ?; apply keeps_external'; by intros ?] ]
            |intros ?]).
    apply keeps_ret'. }
  unfold merge_fields; simpl. repeat split; by intros v ->.
Qed.

(** X17: [set_homekit_bridge].  A null id clears the selection without
    looking any bridge up, and an id that references a bridge is stored;
    the answer echoes the id. *)
Theorem set_homekit_bridge_accepts entry_id w :
  (∀ id, entry_id = Some id → id ∈ bridges w) →
  calls_return 1 w →
  (websocket_set_homekit_bridge entry_id w).1 =
    send_result (JObj [("success", JBool true);
                       ("entry_id", json_of_id entry_id)])
  ∧ homekit_entry_id (store (websocket_set_homekit_bridge entry_id w).2)
    = entry_id.
Proof.
  intros Hid Hio.
  unfold websocket_set_homekit_bridge, handle, set_homekit_bridge_body,
    async_set_homekit_entry_id.
  destruct (external_returns c_set_homekit_entry_id
              (put_homekit_entry_id entry_id) w 0 Hio)
    as (w' & E & Hs & _).
  assert (check_bridge entry_id w = (inr tt, w)) as Hcheck.
  { destruct entry_id as [id|]; [|done].
    apply check_bridge_known. by apply Hid. }
  unfold bind, ret. rewrite !Hcheck, !E. cbn [fst snd]. by rewrite Hs.
Qed.

(** X18: the failures of [set_filter_config].  A rejected assistant or a
    rejected merged configuration is answered with [validation_error] and
    the validator's message, and nothing is called or changed; when the
    storage write raises, the answer carries the exception's text and the
    stored document is unchanged. *)
Theorem set_filter_config_failures msg w :
  (∀ m, validate_assistant (sfc_assistant msg) = inl m →
        websocket_set_filter_config msg w
        = (send_error "validation_error" m, w))
  ∧ (∀ a m,
       validate_assistant (sfc_assistant msg) = inr a →
       validate_filter_config
         (merged (sfc_filter_config msg) (get_filter_config a (store w)))
         = inl m →
       websocket_set_filter_config msg w
       = (send_error "validation_error" m, w))
  ∧ (∀ a vc e rest,
       validate_assistant (sfc_assistant msg) = inr a →
       validate_filter_config
         (merged (sfc_filter_config msg) (get_filter_config a (store w)))
         = inr vc →
       script w = Some e :: rest →
       (websocket_set_filter_config msg w).1 =
         send_error (error_code cmd_set_filter_config e) (str e)
       ∧ store (websocket_set_filter_config msg w).2 = store w).
Proof.
  unfold websocket_set_filter_config, handle, set_filter_config_body, bind,
    validated, get_world, ret, raise.
  split; [by intros m ->|].
  split; [by intros a m -> ->|].
  intros a vc e rest -> Hv Hscript. cbn beta iota. rewrite Hv.
  unfold async_set_filter_config, external. rewrite Hscript.
  by destruct e.
Qed.

Lemma merged_idempotent new_config current :
  merged new_config (merged new_config current) = merged new_config current.
Proof.
  unfold merged. simpl.
  by destruct (d_filter_mode new_config), (d_domains new_config),
    (d_entities new_config), (d_devices new_config),
    (d_overrides new_config).
Qed.

(** X19: [set_filter_config] is idempotent: with a validator that returns
    the merged configuration unchanged, sending the same request a second
    time stores the configuration the first one stored. *)
Theorem set_filter_config_idempotent msg w a :
  validate_assistant (sfc_assistant msg) = inr a →
  validate_filter_config
    (merged (sfc_filter_config msg) (get_filter_config a (store w)))
    = inr (merged (sfc_filter_config msg) (get_filter_config a (store w))) →
  calls_return 2 w →
  let w1 := (websocket_set_filter_config msg w).2 in
  let w2 := (websocket_set_filter_config msg w1).2 in
  store w2 = store w1
  ∧ get_filter_config a (store w2)
    = merged (sfc_filter_config msg) (get_filter_config a (store w)).
Proof.
  intros Ha Hv Hio w1 w2.
  assert (∀ w0 n,
            validate_filter_config
              (merged (sfc_filter_config msg) (get_filter_config a (store w0)))
            = inr (merged (sfc_filter_config msg)
                     (get_filter_config a (store w0))) →
            calls_return (S n) w0 →
            ∃ w', websocket_set_filter_config msg w0 = (w'.1, w'.2)
                  ∧ store w'.2 =
                      put_filter_config a
                        (merged (sfc_filter_config msg)
                           (get_filter_config a (store w0))) (store w0)
                  ∧ calls_return n w'.2) as Hrun.
  { intros w0 n Hv0 Hio0.
    unfold websocket_set_filter_config, handle, set_filter_config_body,
      bind, validated, get_world, ret.
    rewrite Ha. cbn beta iota. rewrite Hv0.
    destruct (set_filter_config_returns
                (merged (sfc_filter_config msg)
                   (get_filter_config a (store w0))) a w0 n Hio0)
      as (w' & -> & Hs & Hn).
    rewrite merge_fields_merged in Hs.
    by eexists (_, w'). }
  destruct (Hrun w 1 Hv Hio) as ([r1 w1'] & E1 & Hs1 & Hio1).
  cbn [fst snd] in *. subst w2 w1. rewrite E1. cbn [snd].
  assert (get_filter_config a (store w1')
          = merged (sfc_filter_config msg) (get_filter_config a (store w)))
    as Hc1 by by rewrite Hs1, get_put_filter_config.
  destruct (Hrun w1' 0) as ([r2 w2'] & E2 & Hs2 & _);
    [by rewrite Hc1, merged_idempotent | done |].
  cbn [fst snd] in *. rewrite E2. cbn [snd].
  rewrite Hs2, Hc1, merged_idempotent. split.
  - rewrite <- Hc1. by destruct a as [[]|], (store w1').
  - by rewrite get_put_filter_config.
Qed.

(** X20: after [set_filter_config], with a validator that returns the
    merged configuration unchanged, the stored configuration has all five
    keys: a key that neither the input nor the stored dictionary holds is
    filled with its default, [exclude] for the mode and the empty list for
    the four lists. *)
Theorem set_filter_config_fills_defaults msg w a :
  validate_assistant (sfc_assistant msg) = inr a →
  validate_filter_config
    (merged (sfc_filter_config msg) (get_filter_config a (store w)))
    = inr (merged (sfc_filter_config msg) (get_filter_config a (store w))) →
  calls_return 1 w →
  let new_config := sfc_filter_config msg in
  let current := get_filter_config a (store w) in
  let after :=
    get_filter_config a (store (websocket_set_filter_config msg w).2) in
  is_Some (d_filter_mode after) ∧ is_Some (d_domains after)
  ∧ is_Some (d_entities after) ∧ is_Some (d_devices after)
  ∧ is_Some (d_overrides after)
  ∧ (d_filter_mode new_config = None → d_filter_mode current = None →
       d_filter_mode after = Some FILTER_MODE_EXCLUDE)
  ∧ (d_domains new_config = None → d_domains current = None →
       d_domains after = Some [])
  ∧ (d_entities new_config = None → d_entities current = None →
       d_entities after = Some [])
  ∧ (d_devices new_config = None → d_devices current = None →
       d_devices after = Some [])
  ∧ (d_overrides new_config = None → d_overrides current = None →
       d_overrides after = Some []).
Proof.
  intros Ha Hv Hio new_config current after.
  pose proof (set_filter_config_stores msg w a _ Ha Hv Hio) as Hs.
  subst after. destruct (websocket_set_filter_config msg w) as [r w'].
  destruct Hs as [_ Hs]. cbn [snd]. rewrite Hs, get_put_filter_config.
  fold new_config current. unfold merged. simpl.
  repeat split; try (by eexists); by intros -> ->.
Qed.

End SaveAllFurther.

(** ** sync_homekit, preview_yaml and the records of write_files *)

Section SyncAndPreview.
Context {G : Generator}.

(** X21: [sync_homekit] records the HomeKit timestamp only after the sync
    returned.  When the sync raises, the answer is a [homekit_error] with
    the exception's text, no timestamp update is attempted and the
    document is unchanged; when the sync returned and the update persists,
    the answer is the sync's own result, HomeKit's [last_generated] is the
    timestamp and the other two are untouched. *)
Theorem sync_homekit_stamps_after_sync sync_result timestamp w :
  (∀ e rest, script w = Some e :: rest →
     (websocket_sync_homekit sync_result timestamp w).1
       = send_error "homekit_error" (str e)
     ∧ store (websocket_sync_homekit sync_result timestamp w).2 = store w
     ∧ trace (websocket_sync_homekit sync_result timestamp w).2
       = (c_sync_homekit, Some e) :: trace w)
  ∧ (∀ e rest, script w = None :: Some e :: rest →
       (websocket_sync_homekit sync_result timestamp w).1
         = send_error "homekit_error" (str e)
       ∧ store (websocket_sync_homekit sync_result timestamp w).2 = store w)
  ∧ (calls_return 2 w →
       (websocket_sync_homekit sync_result timestamp w).1
         = send_result sync_result
       ∧ ∀ a, last_generated
                (store (websocket_sync_homekit sync_result timestamp w).2) a
              = if decide (a = ASSISTANT_HOMEKIT) then Some timestamp
                else last_generated (store w) a).
Proof.
  unfold websocket_sync_homekit, handle, sync_homekit_body,
    async_set_last_generated.
  split; [|split].
  - intros e rest Hs. unfold bind, external. rewrite Hs. by destruct e.
  - intros e rest Hs. unfold bind, external. rewrite Hs. simpl.
    by destruct e.
  - intros Hio.
    destruct (external_returns c_sync_homekit id w 1 Hio)
      as (w1 & E1 & Hs1 & _ & _ & _ & _ & Hio1).
    destruct (external_returns (c_set_last_generated ASSISTANT_HOMEKIT)
                (put_last_generated ASSISTANT_HOMEKIT timestamp) w1 0 Hio1)
      as (w2 & E2 & Hs2 & _).
    unfold bind, ret. rewrite !E1, !E2. cbn [fst snd].
    split; [done|]. intros a. rewrite Hs2, Hs1. done.
Qed.

(** X22: [preview_yaml] only reads: whatever it answers, the world is as
    before.  Without an assistant it answers with a [google] and an
    [alexa] entry, each with the generated document, its warnings and the
    completeness flag; with one of the two it runs only that assistant's
    generator and answers with that entry alone; a generator that raises
    is answered with [preview_error]. *)
Theorem preview_yaml_reads_only assistant w :
  (websocket_preview_yaml assistant w).2 = w
  ∧ (∀ g al,
       generate_google_yaml w = inr g → generate_alexa_yaml w = inr al →
       (websocket_preview_yaml None w).1 =
         send_result
           (JObj [("google",
                   preview_entry g.1 g.2 (is_google_complete (store w)));
                  ("alexa",
                   preview_entry al.1 al.2 (is_alexa_complete (store w)))]))
  ∧ (∀ g, generate_google_yaml w = inr g →
       (websocket_preview_yaml (Some ASSISTANT_GOOGLE) w).1 =
         send_result
           (JObj [("google",
                   preview_entry g.1 g.2 (is_google_complete (store w)))]))
  ∧ (∀ al, generate_alexa_yaml w = inr al →
       (websocket_preview_yaml (Some ASSISTANT_ALEXA) w).1 =
         send_result
           (JObj [("alexa",
                   preview_entry al.1 al.2 (is_alexa_complete (store w)))]))
  ∧ (∀ e, generate_google_yaml w = inl e →
       assistant = None ∨ assistant = Some ASSISTANT_GOOGLE →
       (websocket_preview_yaml assistant w).1
         = send_error "preview_error" (str e)).
Proof.
  unfold websocket_preview_yaml, handle, preview_yaml_body, bind, get_world,
    generated, ret, raise.
  split.
  { repeat case_bool_decide;
      destruct (generate_google_yaml w), (generate_alexa_yaml w); done. }
  split; [by intros g al -> ->|].
  split; [by intros g ->|].
  split; [by intros al ->|].
  intros e -> Ha. rewrite bool_decide_true by done. by destruct e.
Qed.

End SyncAndPreview.

Section WriteFilesRecords.

(** X23: in the answer of [write_files] an assistant's record has
    [written = true] exactly when its [error] is null: a written assistant
    reports no error, and every assistant that was not written says
    why. *)
Theorem write_files_written_or_error timestamp w :
  ∃ g al h w',
    websocket_write_files timestamp w =
      (send_result
         (JObj [("google",
                 JObj [("written", JBool (written g));
                       ("error",
                        if error g is Some m then JStr m else JNull)]);
                ("alexa",
                 JObj [("written", JBool (written al));
                       ("error",
                        if error al is Some m then JStr m else JNull)]);
                ("homekit",
                 JObj [("written", JBool (written h));
                       ("error",
                        if error h is Some m then JStr m else JNull)])]),
       w')
    ∧ ∀ a, written (entry_of a g al h) = true ↔
           error (entry_of a g al h) = None.
Proof.
  destruct (write_files_run timestamp w)
    as (g & al & h & ng & na & nh & s1 & s2 & w' & E & _ & R1 & R2 & R3).
  exists g, al, h, w'. split; [exact E|].
  intros [];
    [destruct R1 | destruct R2 | destruct R3]; simpl; split; done.
Qed.

Lemma name_chains f n o id :
  py_or_str f (py_or_str (py_or n o) id)
  = py_or_str (py_or (py_or f n) o) id.
Proof.
  destruct f as [f|], n as [n|], o as [o|];
    unfold py_or, py_or_str, truthy;
    repeat (match goal with
            | |- context [String.eqb ?s EmptyString] =>
                destruct (String.eqb s EmptyString) eqn:?
            end; simpl);
    congruence.
Qed.

(** X24: the name on an entity row of [get_state] is the display name the
    alias actions of [bulk_update] build on, for an entity whose registry
    entry and state the two see alike. *)
Theorem row_name_is_display_name r w entity entry :
  reg_states r = states w →
  e_name entry = ee_name entity →
  e_original_name entry = ee_original_name entity →
  row_name (entity_row r entity)
  = display_name w (ee_entity_id entity) entry.
Proof.
  intros Hst Hn Ho. unfold entity_row, display_name.
  destruct (match ee_device_id entity with
            | Some device_id => _ | None => _ end) as [dn da].
  cbn [row_name]. rewrite Hst, Hn, Ho. apply name_chains.
Qed.

End WriteFilesRecords.

(** * The further properties at concrete inputs *)

Lemma entities_data_names_not_empty_witness :
  row_name (entity_row example_registries kitchen_entity) ≠ EmptyString.
Proof.
  refine (proj1 (entities_data_names_not_empty example_registries
                   (entity_row example_registries kitchen_entity) _ _)).
  - intros e He.
    repeat (apply elem_of_cons in He as [-> | He]; [done|]).
    by apply elem_of_nil in He.
  - apply list_elem_of_here.
Defined.

Lemma bulk_unexclude_removes_witness :
  let after :=
    get_list (d_entities
      (get_filter_config None
         (store (websocket_bulk_update (V := accept_all)
                   (bulk_msg unexclude ["switch.fan"; "light.hall"])
                   example_world).2))) in
  "switch.fan" ∉ after.
Proof.
  intros after Hin.
  apply (proj1 (proj2
    (bulk_unexclude_removes (V := accept_all)
       (bulk_msg unexclude ["switch.fan"; "light.hall"]) example_world
       ["switch.fan"; "light.hall"] "!" None
       eq_refl eq_refl eq_refl eq_refl (Forall_nil_2 _)))) in Hin
    as [_ Hout].
  apply Hout, list_elem_of_here.
Defined.

Lemma bulk_exclude_then_unexclude_witness :
  let w1 := (websocket_bulk_update (V := accept_all)
               (bulk_msg exclude ["switch.fan"]) example_world).2 in
  let after :=
    get_list (d_entities
      (get_filter_config None
         (store (websocket_bulk_update (V := accept_all)
                   (bulk_msg unexclude ["switch.fan"]) w1).2))) in
  "switch.fan" ∈ get_list (d_entities example_config)
  ∧ "switch.fan" ∉ after.
Proof.
  intros w1 after. split; [apply list_elem_of_here|]. intros Hin.
  apply (proj2 (proj2
    (bulk_exclude_then_unexclude (V := accept_all)
       (bulk_msg exclude ["switch.fan"]) (bulk_msg unexclude ["switch.fan"])
       example_world ["switch.fan"] "!" None
       eq_refl eq_refl eq_refl eq_refl eq_refl eq_refl eq_refl eq_refl
       (Forall_nil_2 _)))) in Hin as [_ Hout].
  apply Hout, list_elem_of_here.
Defined.

Lemma bulk_override_actions_witness :
  let after :=
    get_list (d_overrides
      (get_filter_config None
         (store (websocket_bulk_update (V := accept_all)
                   (bulk_msg add_override ["light.hall"; "light.hall"])
                   example_world).2))) in
  occurrences "light.hall" after = 1.
Proof.
  intros after.
  destruct (bulk_override_actions (V := accept_all)
              (bulk_msg add_override ["light.hall"; "light.hall"])
              example_world ["light.hall"; "light.hall"] "!" None
              eq_refl eq_refl eq_refl (Forall_nil_2 _)) as [Hadd _].
  destruct (Hadd eq_refl) as (_ & Honce & _).
  apply Honce, list_elem_of_here.
Defined.

Lemma bulk_exclude_domain_witness :
  let after :=
    get_list (d_domains
      (get_filter_config None
         (store (websocket_bulk_update (V := accept_all)
                   (bulk_msg exclude_domain ["switch.fan"])
                   example_world).2))) in
  "switch" ∈ after ∧ "light" ∈ after.
Proof.
  intros after.
  destruct (bulk_exclude_domain (V := accept_all)
              (bulk_msg exclude_domain ["switch.fan"])
              example_world ["switch.fan"] "!" None
              eq_refl eq_refl eq_refl eq_refl (Forall_nil_2 _))
    as (_ & Hmem & _).
  split; apply Hmem.
  - right. exists "switch.fan". split; [apply list_elem_of_here | done].
  - left. apply list_elem_of_here.
Defined.

Lemma bulk_exclude_device_witness :
  let after :=
    get_list (d_devices
      (get_filter_config None
         (store (websocket_bulk_update (V := accept_all)
                   (bulk_msg exclude_device
                      ["light.kitchen"; "light.hall"; "sensor.ghost"])
                   example_world).2))) in
  "dev1" ∈ after.
Proof.
  intros after.
  destruct (bulk_exclude_device (V := accept_all)
              (bulk_msg exclude_device
                 ["light.kitchen"; "light.hall"; "sensor.ghost"])
              example_world
              ["light.kitchen"; "light.hall"; "sensor.ghost"] "!" None
              eq_refl eq_refl eq_refl eq_refl (Forall_nil_2 _))
    as (_ & Hmem & _).
  apply Hmem. right.
  exists "light.kitchen",
    {| e_name := None; e_original_name := Some "Kitchen";
       e_device_id := Some "dev1" |}.
  split; [apply list_elem_of_here|]. by split; [vm_compute|].
Defined.

Lemma bulk_clear_alias_witness :
  get_aliases None
    (store (websocket_bulk_update (V := accept_all)
              (bulk_msg clear_alias ["sensor.ghost"]) example_world).2)
    !! "sensor.ghost" = Some EmptyString.
Proof.
  destruct (bulk_clear_alias (V := accept_all)
              (bulk_msg clear_alias ["sensor.ghost"]) example_world
              ["sensor.ghost"] "!" None
              eq_refl eq_refl eq_refl eq_refl (Forall_nil_2 _))
    as (_ & Hin & _).
  apply Hin, list_elem_of_here.
Defined.

Lemma bulk_alias_suffix_witness :
  get_aliases None
    (store (websocket_bulk_update (V := accept_all)
              (bulk_msg set_alias_suffix ["light.kitchen"]) example_world).2)
    !! "light.kitchen" = Some "Kitchen Light!".
Proof.
  destruct (bulk_alias_suffix (V := accept_all)
              (bulk_msg set_alias_suffix ["light.kitchen"]) example_world
              ["light.kitchen"] "!" None
              eq_refl eq_refl eq_refl eq_refl (Forall_nil_2 _))
    as (_ & Hknown & _).
  exact (Hknown "light.kitchen"
           {| e_name := None; e_original_name := Some "Kitchen";
              e_device_id := Some "dev1" |}
           (list_elem_of_here _ _) eq_refl).
Defined.

(** [save_all] answers with the not-found error, and the domains of the
    filter configuration of the same request are stored all the same. *)
Lemma save_all_keeps_earlier_steps_witness :
  (websocket_save_all (V := accept_all) (select_bridge "ghost")
     example_world).1
  = send_error "homekit_error" "HomeKit bridge not found: ghost"
  ∧ d_domains
      (filter_config
         (store (websocket_save_all (V := accept_all) (select_bridge "ghost")
                   example_world).2))
    = Some ["switch"].
Proof.
  split; [by vm_compute|].
  destruct (save_all_keeps_earlier_steps (V := accept_all)
              (select_bridge "ghost") example_world
              (only_domains ["switch"]) (only_domains ["switch"])
              eq_refl eq_refl (Forall_nil_2 _)) as (_ & Hdomains & _).
  by apply Hdomains.
Defined.

Lemma set_homekit_bridge_accepts_witness :
  homekit_entry_id
    (store (websocket_set_homekit_bridge None
              (with_store (put_homekit_entry_id (Some "bridge-1"))
                 example_world)).2) = None.
Proof.
  refine (proj2 (set_homekit_bridge_accepts None
                   (with_store (put_homekit_entry_id (Some "bridge-1"))
                      example_world) _ (Forall_nil_2 _))).
  by intros id [=].
Defined.

Lemma set_filter_config_idempotent_witness :
  let msg := {| sfc_filter_config := only_domains ["switch"];
                sfc_assistant := None |} in
  let w1 := (websocket_set_filter_config (V := accept_all) msg
               example_world).2 in
  store (websocket_set_filter_config (V := accept_all) msg w1).2 = store w1.
Proof.
  exact (proj1
    (set_filter_config_idempotent (V := accept_all)
       {| sfc_filter_config := only_domains ["switch"];
          sfc_assistant := None |}
       example_world None eq_refl eq_refl (Forall_nil_2 _))).
Defined.

Lemma set_filter_config_fills_defaults_witness :
  let msg := {| sfc_filter_config := only_domains ["switch"];
                sfc_assistant := Some ASSISTANT_GOOGLE |} in
  let w := with_store
             (put_filter_config (Some ASSISTANT_GOOGLE) (only_domains []))
             example_world in
  d_entities
    (get_filter_config (Some ASSISTANT_GOOGLE)
       (store (websocket_set_filter_config (V := accept_all) msg w).2))
  = Some [].
Proof.
  intros msg w.
  destruct (set_filter_config_fills_defaults (V := accept_all) msg w
              (Some ASSISTANT_GOOGLE) eq_refl eq_refl (Forall_nil_2 _))
    as (_ & _ & _ & _ & _ & _ & _ & Hentities & _).
  by apply Hentities.
Defined.

Lemma row_name_is_display_name_witness :
  row_name (entity_row example_registries kitchen_entity)
  = display_name example_world "light.kitchen"
      {| e_name := None; e_original_name := Some "Kitchen";
         e_device_id := Some "dev1" |}.
Proof.
  exact (row_name_is_display_name example_registries example_world
           kitchen_entity
           {| e_name := None; e_original_name := Some "Kitchen";
              e_device_id := Some "dev1" |}
           eq_refl eq_refl eq_refl).
Defined.

(** ** Runs of the snapshot helpers *)

Example entities_data_run :
  _get_entities_data example_registries =
    [ {| row_entity_id := "light.kitchen"; row_name := "Kitchen Light";
         row_domain := "light"; row_device_id := Some "dev1";
         row_device_name := Some "Hue bulb"; row_area_id := Some "kitchen";
         row_area_name := Some "Kitchen"; row_platform := "hue" |};
      {| row_entity_id := "light.hall"; row_name := "Hall";
         row_domain := "light"; row_device_id := None;
         row_device_name := None; row_area_id := Some "hall";
         row_area_name := Some "Hallway"; row_platform := "hue" |} ]
  ∧ _get_domains example_registries = ["light"].
Proof. by vm_compute. Qed.
